(** * Leucine Narration Maker: the flattening core of [src/App.jsx]

    A shallow embedding of the pure part of [App.jsx]: the formatter
    library ([formatKey] and the four code formatters), the lookup tables
    built by [processWorkflow], the field text synthesizers, the record
    builder [makeRow] and the assembly step of [handleFileUpload].

    Conventions of the model.
    - A JS string is a [string] of bytes; non-ASCII literals of the source
      are written in UTF-8.  Character classes and case conversion act on
      ASCII, which is what the source's regular expressions and
      [toUpperCase]/[toLowerCase] do on ASCII text.
    - A JSON scalar is a [jsval].  A number is [JNum z] for the integer
      [z] it holds; [JSON.parse] hands the code integers that a double
      holds exactly, and fractions are not among the numbers of the
      input.  [String] and [Number] are those of ECMAScript on doubles
      ([Number::toString] and [StringToNumber]), computed exactly on
      integers: a double is read through its shortest decimal notation,
      and an integer that no double holds is rounded to the nearest one
      first.
    - An optional text of the data model is an [option string] ([None]:
      absent).  The fields that reach a cell of a record as they are (the
      names of stages and tasks, the label and the type tag of a
      parameter) and those the source treats as opaque (identifiers,
      values) are [jsval]s.
    - A plain object used as a table is a [gmap string _] of its own
      properties.  Keys that name a member every object inherits
      ([constructor], [toString], [__proto__] and the like) are outside
      the model. *)

From Stdlib Require Import ZArith String Ascii List Bool Lia Permutation.
From Stdlib Require Import DecimalString DecimalPos.
From stdpp Require Import gmap strings list.

Set Warnings "-register-all".
Open Scope string_scope.
Open Scope list_scope.

(** ** Characters and strings *)

Module JsString.

Definition is_upper (c : ascii) : bool := (("A" <=? c) && (c <=? "Z"))%char.
Definition is_lower (c : ascii) : bool := (("a" <=? c) && (c <=? "z"))%char.
Definition is_digit (c : ascii) : bool := (("0" <=? c) && (c <=? "9"))%char.

(** [\s] and the characters [trim] strips, on ASCII: TAB, LF, VT, FF, CR
  and the space. *)
Definition is_space (c : ascii) : bool :=
let n := nat_of_ascii c in
((9 <=? n)%nat && (n <=? 13)%nat) || (n =? 32)%nat.

(** [\w] is [[A-Za-z0-9_]]. *)
Definition is_word (c : ascii) : bool :=
is_upper c || is_lower c || is_digit c || (c =? "_")%char.

Definition lower_char (c : ascii) : ascii :=
if is_upper c then ascii_of_nat (nat_of_ascii c + 32) else c.
Definition upper_char (c : ascii) : ascii :=
if is_lower c then ascii_of_nat (nat_of_ascii c - 32) else c.

Fixpoint map_chars (f : ascii -> ascii) (s : string) : string :=
match s with
| "" => ""
| String c t => String (f c) (map_chars f t)
end.

Definition toLowerCase : string -> string := map_chars lower_char.
Definition toUpperCase : string -> string := map_chars upper_char.

(** [.replace(/([A-Z])/g, " $1")] *)
Fixpoint space_before_capitals (s : string) : string :=
match s with
| "" => ""
| String c t =>
    if is_upper c then String " " (String c (space_before_capitals t))
    else String c (space_before_capitals t)
end.

(** [.replace(/_/g, " ")] *)
Definition underscores_to_spaces : string -> string :=
map_chars (fun c => if (c =? "_")%char then " "%char else c).

Definition starts_with_space (s : string) : bool :=
match s with
| "" => false
| String c _ => is_space c
end.

(** [.replace(/\s+/g, " ")]: of each maximal run of white space only its
  last character produces the replacement. *)
Fixpoint collapse_spaces (s : string) : string :=
match s with
| "" => ""
| String c t =>
    if is_space c then
      if starts_with_space t then collapse_spaces t
      else String " " (collapse_spaces t)
    else String c (collapse_spaces t)
end.

Fixpoint trim_start (s : string) : string :=
match s with
| "" => ""
| String c t => if is_space c then trim_start t else s
end.

Fixpoint trim_end (s : string) : string :=
match s with
| "" => ""
| String c t =>
    match trim_end t with
    | "" => if is_space c then "" else String c ""
    | r => String c r
    end
end.

Definition trim (s : string) : string := trim_end (trim_start s).

(** [.replace(/^\w/, (c) => c.toUpperCase())] *)
Definition capitalize_first (s : string) : string :=
match s with
| "" => ""
| String c t => if is_word c then String (upper_char c) t else s
end.

(** [s.includes(t)] *)
Fixpoint includes (s t : string) : bool :=
String.prefix t s ||
match s with
| "" => false
| String _ r => includes r t
end.

(** [s.split(c)], for a separator of one character. *)
Fixpoint split (c : ascii) (s : string) : list string :=
match s with
| "" => [""]
| String d t =>
    if (d =? c)%char then "" :: split c t
    else
      match split c t with
      | [] => [String d ""]
      | w :: ws => String d w :: ws
      end
end.

(** [l.join(sep)] on texts. *)
Definition join (sep : string) (l : list string) : string := String.concat sep l.

Definition is_hex_digit (c : ascii) : bool :=
is_digit c || (("a" <=? c) && (c <=? "f"))%char.

Fixpoint all_chars (p : ascii -> bool) (s : string) : bool :=
match s with
| "" => true
| String c t => p c && all_chars p t
end.

(** [s.match(/^[a-f0-9]{24}$/)], the shape of an identifier. *)
Definition is_hex24 (s : string) : bool :=
(String.length s =? 24)%nat && all_chars is_hex_digit s.

(** The line feed and the double quote of the source's literals. *)
Definition nl : string := String (ascii_of_nat 10) "".
Definition dq : string := String (ascii_of_nat 34) "".

End JsString.

Import JsString.

(** ** The generic humanizer (App.jsx, lines 65-74) *)

Definition formatKey (key : string) : string :=
  if String.eqb key "" then ""
  else
    capitalize_first
      (toLowerCase
         (trim
            (collapse_spaces
               (underscores_to_spaces
                  (space_before_capitals key))))).

(** ** JSON scalars as JS values *)

Inductive jsval :=
| JUndef
| JNull
| JBool (b : bool)
| JNum (z : Z)
| JStr (s : string).

#[global] Instance jsval_eq_dec : EqDecision jsval.
Proof. solve_decision. Defined.

(** ** Numbers: [Number(x)] and [String(x)]

    A number is a double: [Finite m e] is [m * 2 ^ e], with [m] and [e]
    as the rounding below yields them, so that a double has one
    notation.  The sign of zero is not kept: the code reads numbers
    through [String], [if] and [===], which do not tell it. *)
Inductive jsnum :=
| NaN
| Infinity (negative : bool)
| Finite (m e : Z).

#[global] Instance jsnum_eq_dec : EqDecision jsnum.
Proof. solve_decision. Defined.

(** The decimal notation of an integer. *)
Definition string_of_Z (z : Z) : string := NilZero.string_of_int (Z.to_int z).

Module JsNumber.

Local Open Scope Z_scope.

(** [floor (log2 (a / b))] for positive [a] and [b]. *)
Definition floor_log2 (a b : Z) : Z :=
let e := Z.log2 a - Z.log2 b in
if (if 0 <=? e then b * 2 ^ e <=? a else b <=? a * 2 ^ (- e)) then e else e - 1.

(** The integer nearest to [n / d], the even one of two. *)
Definition nearest_even (n d : Z) : Z :=
let q := n / d in
let r := n mod d in
if d <? 2 * r then q + 1
else if 2 * r =? d then (if Z.even q then q else q + 1)
else q.

(** [a / (b * 2 ^ e)] as a fraction of integers. *)
Definition scaled2 (a b e : Z) : Z * Z :=
if 0 <=? e then (a, b * 2 ^ e) else (a * 2 ^ (- e), b).

(** The double nearest to [a / b], for positive [a] and [b]. *)
Definition round_positive (a b : Z) : jsnum :=
let e := Z.max (floor_log2 a b - 52) (-1074) in
let '(n, d) := scaled2 a b e in
let m := nearest_even n d in
let '(m, e) := if m =? 2 ^ 53 then (2 ^ 52, e + 1) else (m, e) in
if 971 <? e then Infinity false
else if m =? 0 then Finite 0 0
else Finite m e.

Definition negate (x : jsnum) : jsnum :=
match x with
| NaN => NaN
| Infinity s => Infinity (negb s)
| Finite m e => Finite (- m) e
end.

(** The double nearest to [a / b], for [b] positive; the sign of zero is
    not kept. *)
Definition round_fraction (a b : Z) : jsnum :=
if a =? 0 then Finite 0 0
else if a <? 0 then negate (round_positive (- a) b)
else round_positive a b.

(** [a * 10 ^ k] as a fraction. *)
Definition scaled10 (a k : Z) : Z * Z :=
if 0 <=? k then (a * 10 ^ k, 1) else (a, 10 ^ (- k)).

Definition round_decimal (a k : Z) : jsnum :=
let '(n, d) := scaled10 a k in round_fraction n d.

Definition number_of_Z (z : Z) : jsnum := round_fraction z 1.

(** *** [Number::toString] *)

(** The number of decimal digits of a positive integer. *)
Fixpoint count_digits (fuel : nat) (z : Z) : Z :=
match fuel with
| O => 1
| S fuel' => if z <? 10 then 1 else 1 + count_digits fuel' (z / 10)
end.

Definition digit_count (z : Z) : Z := count_digits (Z.to_nat (Z.log2 z)) z.

(** The [n] with [10 ^ (n - 1) <= a / b < 10 ^ n]. *)
Definition magnitude (a b : Z) : Z :=
if b <=? a then digit_count (a / b)
else
  let d := digit_count (b / a) in
  if b <=? a * 10 ^ (d - 1) then 2 - d else 1 - d.

(** The candidates of [k] digits next to [a / b], whose magnitude is [n]:
    the digits [s] and the magnitude they are read at. *)
Definition candidate (x : jsnum) (s n k : Z) : option (Z * Z * Z) :=
if decide (round_decimal s (n - k) = x) then
  Some (if s =? 10 ^ k then (10 ^ (k - 1), k, n + 1) else (s, k, n))
else None.

Definition digits_at (x : jsnum) (a b n k : Z) (checked : bool) : option (Z * Z * Z) :=
let '(num, den) := if 0 <=? k - n then (a * 10 ^ (k - n), b) else (a, b * 10 ^ (n - k)) in
let lo := num / den in
let below := candidate x lo n k in
let above := candidate x (lo + 1) n k in
let low_is_nearer :=
  (2 * num <? (2 * lo + 1) * den) || ((2 * num =? (2 * lo + 1) * den) && Z.even lo) in
if checked then
  match below, above with
  | Some l, Some h => Some (if low_is_nearer then l else h)
  | Some l, None => Some l
  | None, Some h => Some h
  | None, None => None
  end
else Some (if low_is_nearer then (lo, k, n) else
             if lo + 1 =? 10 ^ k then (10 ^ (k - 1), k, n + 1) else (lo + 1, k, n)).

(** The shortest digits that read back as [x]: lengths from [k] on are
    tried, the last one ([fuel] exhausted) without a check. *)
Fixpoint shortest (fuel : nat) (x : jsnum) (a b n k : Z) : Z * Z * Z :=
match fuel with
| O => default (0, 1, 1) (digits_at x a b n k false)
| S fuel' =>
    match digits_at x a b n k true with
    | Some r => r
    | None => shortest fuel' x a b n (k + 1)
    end
end.

Definition zeros (k : Z) : string := String.concat "" (replicate (Z.to_nat k) "0").

Definition exponent_text (e : Z) : string :=
"e" +:+ (if e <? 0 then "-" else "+") +:+ string_of_Z (Z.abs e).

(** Steps 6 to 10 of [Number::toString] on the digits [s], their number
    [k] and the magnitude [n]. *)
Definition layout (s k n : Z) : string :=
let digits := string_of_Z s in
if (k <=? n) && (n <=? 21) then digits +:+ zeros (n - k)
else if (0 <? n) && (n <=? 21) then
  substring 0 (Z.to_nat n) digits +:+ "." +:+ substring (Z.to_nat n) (Z.to_nat (k - n)) digits
else if (-6 <? n) && (n <=? 0) then "0." +:+ zeros (- n) +:+ digits
else if k =? 1 then digits +:+ exponent_text (n - 1)
else
  substring 0 1 digits +:+ "." +:+ substring 1 (Z.to_nat (k - 1)) digits
    +:+ exponent_text (n - 1).

Definition positive_text (m e : Z) : string :=
let '(a, b) := scaled2 m 1 (- e) in
let '(s, k, n) := shortest 16 (Finite m e) a b (magnitude a b) 1 in
layout s k n.

(** [String(x)] on a number. *)
Definition num_text (x : jsnum) : string :=
match x with
| NaN => "NaN"
| Infinity false => "Infinity"
| Infinity true => "-Infinity"
| Finite m e =>
    if m =? 0 then "0"
    else if m <? 0 then "-" +:+ positive_text (- m) e
    else positive_text m e
end.

(** *** [StringToNumber] *)

Fixpoint span (p : ascii -> bool) (s : string) : string * string :=
match s with
| "" => ("", "")
| String c t =>
    if p c then let '(l, r) := span p t in (String c l, r) else ("", s)
end.

Definition digit_value (c : ascii) : Z :=
let n := Z.of_nat (nat_of_ascii c) in
if (48 <=? n) && (n <=? 57) then n - 48
else if (97 <=? n) && (n <=? 102) then n - 87
else if (65 <=? n) && (n <=? 70) then n - 55
else 16.

Fixpoint digits_in (base : Z) (s : string) (acc : Z) : Z :=
match s with
| "" => acc
| String c t => digits_in base t (acc * base + digit_value c)
end.

Definition is_digit_of (base : Z) (c : ascii) : bool := digit_value c <? base.

(** A literal with a radix prefix: [0x], [0o] or [0b], in either case. *)
Definition radix_literal (s : string) : option jsnum :=
match s with
| String "0" (String c t) =>
    let base :=
      if (c =? "x")%char || (c =? "X")%char then Some 16
      else if (c =? "o")%char || (c =? "O")%char then Some 8
      else if (c =? "b")%char || (c =? "B")%char then Some 2
      else None in
    match base, t with
    | Some base, String _ _ =>
        if all_chars (is_digit_of base) t then Some (number_of_Z (digits_in base t 0))
        else Some NaN
    | Some _, "" => Some NaN
    | None, _ => None
    end
| _ => None
end.

(** [ExponentPart], when the rest of the literal is one. *)
Definition exponent_part (s : string) : option Z :=
match s with
| "" => Some 0
| String c t =>
    if (c =? "e")%char || (c =? "E")%char then
      let '(negative, digits) :=
        match t with
        | String "-" r => (true, r)
        | String "+" r => (false, r)
        | _ => (false, t)
        end in
      match digits with
      | "" => None
      | _ =>
          if all_chars is_digit digits then
            Some (if negative then - digits_in 10 digits 0 else digits_in 10 digits 0)
          else None
      end
    else None
end.

(** [StrUnsignedDecimalLiteral] other than [Infinity]: the digits and the
    power of ten they are scaled by. *)
Definition unsigned_decimal (s : string) : option (Z * Z) :=
let '(whole, rest) := span is_digit s in
let '(fraction, rest) :=
  match rest with
  | String "." t => span is_digit t
  | _ => ("", rest)
  end in
match whole +:+ fraction with
| "" => None
| digits =>
    match exponent_part rest with
    | Some e => Some (digits_in 10 digits 0, e - Z.of_nat (String.length fraction))
    | None => None
    end
end.

Definition signed_decimal (s : string) : jsnum :=
let '(negative, body) :=
  match s with
  | String "-" t => (true, t)
  | String "+" t => (false, t)
  | _ => (false, s)
  end in
if String.eqb body "Infinity" then Infinity negative
else
  match unsigned_decimal body with
  | Some (digits, k) => round_decimal (if negative then - digits else digits) k
  | None => NaN
  end.

(** [Number(s)] on a string: white space is trimmed, the empty string is
  0, then a literal with a radix prefix or a signed decimal literal is
  read; every other string is [NaN]. *)
Definition string_to_number (s : string) : jsnum :=
match trim s with
| "" => Finite 0 0
| t =>
    match radix_literal t with
    | Some x => x
    | None => signed_decimal t
    end
end.

End JsNumber.

Import JsNumber.

Arguments round_fraction : simpl never.
Arguments num_text : simpl never.
Arguments string_to_number : simpl never.

(** [String(z)] for the number an integer numeral [z] is read as. *)
Definition integer_text (z : Z) : string := num_text (number_of_Z z).

(** [String(x)], which is also [`${x}`] and the key of [obj[x]]. *)
Definition to_text (v : jsval) : string :=
  match v with
  | JUndef => "undefined"
  | JNull => "null"
  | JBool true => "true"
  | JBool false => "false"
  | JNum z => integer_text z
  | JStr s => s
  end.

(** [Number(x)] *)
Definition to_number (v : jsval) : jsnum :=
  match v with
  | JUndef => NaN
  | JNull => number_of_Z 0
  | JBool true => number_of_Z 1
  | JBool false => number_of_Z 0
  | JNum z => number_of_Z z
  | JStr s => string_to_number s
  end.

Definition truthy (v : jsval) : bool :=
  match v with
  | JUndef | JNull => false
  | JBool b => b
  | JNum z => negb (z =? 0)%Z
  | JStr s => negb (String.eqb s "")
  end.

(** [a || b] and [a ?? b] *)
Definition or_else (a b : jsval) : jsval := if truthy a then a else b.
Definition nullish_else (a b : jsval) : jsval :=
  match a with
  | JUndef | JNull => b
  | _ => a
  end.

(** [a === b] on scalars *)
Definition strict_eq (a b : jsval) : bool := bool_decide (a = b).

(** An optional string field read as a value. *)
Definition of_opt (o : option string) : jsval :=
  match o with
  | Some s => JStr s
  | None => JUndef
  end.

(** [if (o)] on an optional string field. *)
Definition present (o : option string) : bool := truthy (of_opt o).

(** [l.join(sep)] on values: [null] and [undefined] give the empty text. *)
Definition join_values (sep : string) (l : list jsval) : string :=
  join sep (map (fun v => match v with JUndef | JNull => "" | _ => to_text v end) l).

(** [xs || []] and [xs?.forEach] on an optional array. *)
Definition items {A} (o : option (list A)) : list A := default [] o.

(** Reading a table: [m[k]]. *)
Definition get (m : gmap string jsval) (k : jsval) : jsval :=
  default JUndef (m !! to_text k).

(** ** The workflow definition, as [processWorkflow] reads it *)

(** An option of a parameter, a choice of a property, an option of a
    property validation. *)
Record choice := {
  c_id : jsval;
  c_name : option string;
  c_label : option string;
  c_displayName : option string;
  c_value : jsval;
}.

(** An entry of [data.propertyFilters.fields]. *)
Record filterField := {
  ff_field : option string;
  ff_displayName : option string;
  ff_externalId : option string;
  ff_fieldType : option string;
  ff_op : option string;
  ff_selector : option string;
  ff_values : option (list jsval);
  ff_referencedParameterId : jsval;
}.

Record dataObject := {
  d_choices : option (list (option choice));
  d_options : option (list (option choice));
  d_propertyFilters : option (option (list filterField));
  d_collection : option string;
  d_objectTypeDisplayName : option string;
  d_text : option string;
}.

(** [param.data]: absent, an array of options, or an object. *)
Inductive payload :=
| NoData
| DataArray (l : list (option choice))
| DataObject (d : dataObject).

(** An item of one of the five typed validation lists. *)
Record validationItem := {
  vi_constraint : option string;
  vi_selector : option string;
  vi_value : jsval;
  vi_dateUnit : option string;
  vi_errorMessage : option string;
  vi_referencedParameterId : jsval;
  vi_propertyId : jsval;
  vi_parameterLabel : option string;
  vi_minValue : jsval;
  vi_maxValue : jsval;
  vi_options : option (list choice);
  vi_propertyDisplayName : option string;
  vi_propertyExternalId : option string;
}.

(** A parsed JSON value, for the free-form custom validation payload; an
    object lists its entries in the order [Object.keys] gives them. *)
Inductive json :=
| JsonNull
| JsonBool (b : bool)
| JsonNum (z : Z)
| JsonStr (s : string)
| JsonArray (l : list json)
| JsonObject (l : list (string * json)).

Record validation := {
  v_exceptionApprovalType : option string;
  v_dateTimeParameterValidations : option (list validationItem);
  v_criteriaValidations : option (list validationItem);
  v_propertyValidations : option (list validationItem);
  v_resourceParameterValidations : option (list validationItem);
  v_relationPropertyValidations : option (list validationItem);
  v_customValidations : option json;
}.

(** A visibility rule; [r_show_parameters] is [rule.show?.parameters]. *)
Record rule := {
  r_input : option (list jsval);
  r_show_parameters : option (list jsval);
}.

Record parameterRequest := {
  p_id : jsval;
  p_label : jsval;
  p_type : jsval;
  p_mandatory : bool;
  p_verificationType : option string;
  p_data : payload;
  p_validations : option (list validation);
  p_rules : option (list rule);
}.

Record configuration := {
  cfg_parameterLabel : option string;
  cfg_parameterDisplayName : option string;
  cfg_parameterId : jsval;
}.

Record actionDetails := {
  ad_objectTypeDisplayName : option string;
  ad_referencedParameterId : jsval;
  ad_configuration : option (list configuration);
  ad_choices : option (list choice);
}.

Record automationRequest := {
  a_triggerType : option string;
  a_actionType : option string;
  a_displayName : option string;
  a_actionDetails : option actionDetails;
}.

Record executorLock := {
  l_hasToBeExecutorId : jsval;
  l_cannotBeExecutorIds : option (list jsval);
}.

Record taskRequest := {
  t_id : jsval;
  t_name : jsval;
  t_orderTree : option Z;
  t_parameterRequests : option (list parameterRequest);
  t_prerequisiteTaskIds : option (list jsval);
  t_taskExecutorLock : option executorLock;
  t_automationRequests : option (list automationRequest);
}.

Record stageRequest := {
  s_name : jsval;
  s_orderTree : option Z;
  s_taskRequests : option (list taskRequest);
}.

(** A property of [objects[].properties] or
    [objectRequests[].propertyRequests]. *)
Record property := {
  pr_id : jsval;
  pr_displayName : option string;
  pr_name : option string;
  pr_label : option string;
  pr_choices : option (list choice);
}.

Record workflow := {
  wf_stageRequests : option (list stageRequest);
  wf_parameterRequests : option (list parameterRequest);
  (** [objects], each entry by its [properties] *)
  wf_objects : option (list (option (list property)));
  (** [objectRequests], each entry by its [propertyRequests] *)
  wf_objectRequests : option (list (option (list property)));
}.

(** ** [JSON.stringify] without indentation *)

Definition hex_char (n : nat) : ascii :=
  if (n <? 10)%nat then ascii_of_nat (48 + n) else ascii_of_nat (87 + n).

Definition escape_char (c : ascii) : string :=
  let n := nat_of_ascii c in
  if (n =? 34)%nat then "\" +:+ dq
  else if (n =? 92)%nat then "\\"
  else if (n =? 8)%nat then "\b"
  else if (n =? 12)%nat then "\f"
  else if (n =? 10)%nat then "\n"
  else if (n =? 13)%nat then "\r"
  else if (n =? 9)%nat then "\t"
  else if (n <? 32)%nat then
    "\u00" +:+ String (hex_char (n / 16)) (String (hex_char (n mod 16)) "")
  else String c "".

Fixpoint escape (s : string) : string :=
  match s with
  | "" => ""
  | String c t => escape_char c +:+ escape t
  end.

Definition quote (s : string) : string := dq +:+ escape s +:+ dq.

Fixpoint stringify (j : json) : string :=
  match j with
  | JsonNull => "null"
  | JsonBool true => "true"
  | JsonBool false => "false"
  | JsonNum z => integer_text z
  | JsonStr s => quote s
  | JsonArray l => "[" +:+ join "," (map stringify l) +:+ "]"
  | JsonObject l =>
      "{" +:+ join "," (map (fun e => quote (fst e) +:+ ":" +:+ stringify (snd e)) l) +:+ "}"
  end.

(** ** The formatter library (App.jsx, lines 212-286) *)

(** [dict[code]] on one of the fixed dictionaries. *)
Fixpoint lookup_code (dict : list (string * string)) (code : string) : option string :=
  match dict with
  | [] => None
  | (k, v) :: rest => if String.eqb k code then Some v else lookup_code rest code
  end.

Definition constraintMappings : list (string * string) :=
  [ ("EQ", "equals"); ("NEQ", "not equals"); ("NE", "not equals");
    ("LT", "is less than"); ("LTE", "is less than or equal to");
    ("LE", "is less than or equal to"); ("GT", "is greater than");
    ("GTE", "is greater than or equal to"); ("GE", "is greater than or equal to");
    ("CONTAINS", "contains"); ("NOT_CONTAINS", "does not contain");
    ("STARTS_WITH", "starts with"); ("ENDS_WITH", "ends with");
    ("IN", "is in"); ("NOT_IN", "is not in"); ("BETWEEN", "is between");
    ("IS_NULL", "is empty"); ("IS_NOT_NULL", "is not empty") ].

Definition exceptionMappings : list (string * string) :=
  [ ("DEFAULT_FLOW", "Halt Parameter Exception");
    ("HALT_PARAMETER_EXCEPTION", "Halt Parameter Exception");
    ("SKIP_EXCEPTION", "Skip Exception"); ("WARNING_ONLY", "Warning Only");
    ("WARNING", "Warning Only"); ("APPROVAL_REQUIRED", "Approval Required");
    ("SOFT_EXCEPTION", "Soft Exception"); ("HARD_EXCEPTION", "Hard Exception") ].

Definition selectorMappings : list (string * string) :=
  [ ("CONSTANT", "Constant"); ("PARAMETER", "Parameter"); ("PROPERTY", "Property");
    ("VARIABLE", "Variable"); ("EXPRESSION", "Expression"); ("NONE", "None") ].

Definition unitMappings : list (string * string) :=
  [ ("DAYS", "Days from today"); ("DAY", "Days from today");
    ("HOURS", "Hours from now"); ("HOUR", "Hours from now");
    ("MINUTES", "Minutes from now"); ("MINUTE", "Minutes from now");
    ("WEEKS", "Weeks from today"); ("WEEK", "Weeks from today");
    ("MONTHS", "Months from today"); ("MONTH", "Months from today");
    ("YEARS", "Years from today"); ("YEAR", "Years from today") ].

(** The shape shared by the four formatters: [empty] on a missing code,
    the dictionary entry of the upper-cased code, else [formatKey]. *)
Definition format_code (dict : list (string * string)) (empty : string)
    (code : option string) : string :=
  match code with
  | None => empty
  | Some c =>
      if String.eqb c "" then empty
      else default (formatKey c) (lookup_code dict (toUpperCase c))
  end.

Definition formatConstraint : option string -> string := format_code constraintMappings "".
Definition formatExceptionType : option string -> string := format_code exceptionMappings "Default".
Definition formatSelector : option string -> string := format_code selectorMappings "".
Definition formatUnit : option string -> string := format_code unitMappings "".

(** ** The lookup tables of one [processWorkflow] call *)

Record taskInfo := {
  taskName : jsval;
  stageName : jsval;
  stageOrder : Z;
  taskOrder : Z;
}.

Record tables := {
  parameterMap : gmap string jsval;
  propertyNameMap : gmap string jsval;
  optionMap : gmap string jsval;
  visibilityMap : gmap string string;
}.

Definition empty_tables : tables :=
  {| parameterMap := ∅; propertyNameMap := ∅; optionMap := ∅; visibilityMap := ∅ |}.

(** [parameterMap[k] = v], and the like for the other tables. *)
Definition set_parameter (k v : jsval) (tb : tables) : tables :=
  {| parameterMap := <[to_text k := v]> (parameterMap tb);
     propertyNameMap := propertyNameMap tb;
     optionMap := optionMap tb;
     visibilityMap := visibilityMap tb |}.
Definition set_propertyName (k v : jsval) (tb : tables) : tables :=
  {| parameterMap := parameterMap tb;
     propertyNameMap := <[to_text k := v]> (propertyNameMap tb);
     optionMap := optionMap tb;
     visibilityMap := visibilityMap tb |}.
Definition set_option (k v : jsval) (tb : tables) : tables :=
  {| parameterMap := parameterMap tb;
     propertyNameMap := propertyNameMap tb;
     optionMap := <[to_text k := v]> (optionMap tb);
     visibilityMap := visibilityMap tb |}.
Definition set_visibility (k : jsval) (v : string) (tb : tables) : tables :=
  {| parameterMap := parameterMap tb;
     propertyNameMap := propertyNameMap tb;
     optionMap := optionMap tb;
     visibilityMap := <[to_text k := v]> (visibilityMap tb) |}.

(** [if (c) step] as a table transformer. *)
Definition when (c : bool) (step : tables -> tables) (tb : tables) : tables :=
  if c then step tb else tb.

(** [xs.forEach(step)] on the tables. *)
Definition for_each {A} (xs : list A) (step : A -> tables -> tables) (tb : tables) : tables :=
  foldl (fun acc x => step x acc) tb xs.

(** *** The task position index (lines 186-210) *)

(** [xs.forEach((x, idx) => ...)] threading an accumulator. *)
Fixpoint fold_from {A B} (f : B -> nat -> A -> B) (i : nat) (acc : B) (xs : list A) : B :=
  match xs with
  | [] => acc
  | x :: rest => fold_from f (S i) (f acc i x) rest
  end.
Definition fold_indexed {A B} (f : B -> nat -> A -> B) (acc : B) (xs : list A) : B :=
  fold_from f 0 acc xs.

(** [hint ?? idx + 1] *)
Definition order_of (hint : option Z) (idx : nat) : Z :=
  default (Z.of_nat idx + 1)%Z hint.

(** The three writes for one task. *)
Definition register_task (info : taskInfo) (id : jsval) (tm : gmap string taskInfo)
    : gmap string taskInfo :=
  <[num_text (to_number id) := info]> (<[to_text id := info]> (<[to_text id := info]> tm)).

Definition buildTaskMap (wf : workflow) : gmap string taskInfo :=
  fold_indexed
    (fun tm stageIdx st =>
       let stageOrder := order_of (s_orderTree st) stageIdx in
       fold_indexed
         (fun tm taskIdx tk =>
            let taskOrder := order_of (t_orderTree tk) taskIdx in
            let info := {| taskName := t_name tk; stageName := s_name st;
                           stageOrder := stageOrder; taskOrder := taskOrder |} in
            register_task info (t_id tk) tm)
         tm (items (s_taskRequests st)))
    ∅ (items (wf_stageRequests wf)).

(** [taskMap[taskId] || taskMap[String(taskId)] || taskMap[Number(taskId)] || null] *)
Definition lookupTask (taskMap : gmap string taskInfo) (taskId : jsval) : option taskInfo :=
  match taskMap !! to_text taskId with
  | Some info => Some info
  | None =>
      match taskMap !! to_text taskId with
      | Some info => Some info
      | None => taskMap !! num_text (to_number taskId)
      end
  end.

(** *** The reference index (lines 288-405) *)

(** [c.name ?? c.label ?? c.displayName ?? last] *)
Definition name_label_display (c : choice) (last : jsval) : jsval :=
  nullish_else (of_opt (c_name c))
    (nullish_else (of_opt (c_label c))
       (nullish_else (of_opt (c_displayName c)) last)).

(** [c.displayName || c.name || c.label || c.id] *)
Definition display_name_label (c : choice) : jsval :=
  or_else (or_else (or_else (of_opt (c_displayName c)) (of_opt (c_name c)))
             (of_opt (c_label c)))
    (c_id c).

(** The options of a parameter, whichever of the three shapes holds them. *)
Definition param_options (param : parameterRequest) : list (option choice) :=
  match p_data param with
  | DataArray l => l
  | DataObject d =>
      match d_choices d with
      | Some l => l
      | None => items (d_options d)
      end
  | NoData => []
  end.

(** [param.data?.propertyFilters] and its [fields]. *)
Definition param_propertyFilters (param : parameterRequest) : option (option (list filterField)) :=
  match p_data param with
  | DataObject d => d_propertyFilters d
  | _ => None
  end.
Definition param_filter_fields (param : parameterRequest) : option (list filterField) :=
  match param_propertyFilters param with
  | Some fields => fields
  | None => None
  end.

Definition register_option (o : option choice) (tb : tables) : tables :=
  match o with
  | None => tb
  | Some opt =>
      let tb := when (truthy (c_id opt))
                  (set_option (c_id opt) (name_label_display opt (c_id opt))) tb in
      let tb := when (present (c_name opt))
                  (set_option (of_opt (c_name opt)) (of_opt (c_name opt))) tb in
      when (truthy (c_value opt))
        (set_option (c_value opt) (name_label_display opt (c_value opt))) tb
  end.

(** [field.split('.')[1]] *)
Definition second_segment (field : string) : jsval :=
  match split "." field !! 1%nat with
  | Some seg => JStr seg
  | None => JUndef
  end.

Definition register_filter (filter : filterField) (tb : tables) : tables :=
  let tb :=
    match ff_field filter with
    | Some field =>
        if negb (String.eqb field "") && String.prefix "searchable." field then
          let propId := second_segment field in
          if present (ff_displayName filter) then
            set_propertyName propId (of_opt (ff_displayName filter)) tb
          else if present (ff_externalId filter) then
            set_propertyName propId (of_opt (ff_externalId filter)) tb
          else tb
        else tb
    | None => tb
    end in
  when (present (ff_displayName filter) && present (ff_field filter))
    (set_propertyName (of_opt (ff_field filter)) (of_opt (ff_displayName filter))) tb.

(** One entry of [validation.propertyValidations]. *)
Definition register_property_validation (pv : validationItem) (tb : tables) : tables :=
  let tb :=
    match vi_options pv with
    | Some opts =>
        for_each opts
          (fun opt => when (truthy (c_id opt)) (set_option (c_id opt) (display_name_label opt)))
          tb
    | None => tb
    end in
  if truthy (vi_propertyId pv) then
    let propName := or_else (of_opt (vi_propertyDisplayName pv))
                      (of_opt (vi_propertyExternalId pv)) in
    when (truthy propName) (set_propertyName (vi_propertyId pv) propName) tb
  else tb.

(** The sentence a rule registers for each parameter it shows. *)
Definition visibility_sentence (triggerLabel : jsval) (inputValues : string) : string :=
  "Visible when " +:+ dq +:+ to_text triggerLabel +:+ dq +:+ " is " +:+ dq
    +:+ inputValues +:+ dq.

Definition register_rule (param : parameterRequest) (r : rule) (tb : tables) : tables :=
  let triggerLabel := p_label param in
  let inputValues :=
    join_values " / "
      (map (fun inp => or_else (get (optionMap tb) inp) inp) (items (r_input r))) in
  for_each (items (r_show_parameters r))
    (fun targetId => set_visibility targetId (visibility_sentence triggerLabel inputValues))
    tb.

Definition collectParam (param : parameterRequest) (tb : tables) : tables :=
  let tb := set_parameter (p_id param) (p_label param) tb in
  let tb := set_propertyName (p_id param) (p_label param) tb in
  let tb := for_each (param_options param) register_option tb in
  let tb :=
    match param_filter_fields param with
    | Some fields => for_each fields register_filter tb
    | None => tb
    end in
  let tb :=
    for_each (items (p_validations param))
      (fun v => for_each (items (v_propertyValidations v)) register_property_validation)
      tb in
  match p_rules param with
  | Some ((_ :: _) as rules) => for_each rules (register_rule param) tb
  | _ => tb
  end.

(** [choices.forEach((choice) => { if (choice.id) optionMap[choice.id] = ... })] *)
Definition register_choices (cs : option (list choice)) (tb : tables) : tables :=
  match cs with
  | Some l =>
      for_each l
        (fun c => when (truthy (c_id c)) (set_option (c_id c) (display_name_label c))) tb
  | None => tb
  end.

Definition register_property (p : property) (tb : tables) : tables :=
  let shown :=
    or_else (or_else (or_else (of_opt (pr_displayName p)) (of_opt (pr_name p)))
               (of_opt (pr_label p)))
      (pr_id p) in
  register_choices (pr_choices p) (set_propertyName (pr_id p) shown tb).

Definition register_automation (auto : automationRequest) (tb : tables) : tables :=
  match a_actionDetails auto with
  | Some ad => register_choices (ad_choices ad) tb
  | None => tb
  end.

(** The four tables of a definition: objects, object requests, top-level
    parameters, then every task's parameters and automation choices. *)
Definition buildTables (wf : workflow) : tables :=
  let tb := for_each (items (wf_objects wf))
              (fun obj => for_each (items obj) register_property) empty_tables in
  let tb := for_each (items (wf_objectRequests wf))
              (fun obj => for_each (items obj) register_property) tb in
  let tb := for_each (items (wf_parameterRequests wf)) collectParam tb in
  for_each (items (wf_stageRequests wf))
    (fun st =>
       for_each (items (s_taskRequests st))
         (fun tk tb =>
            let tb := for_each (items (t_parameterRequests tk)) collectParam tb in
            for_each (items (t_automationRequests tk)) register_automation tb))
    tb.

(** ** Field text synthesizers *)

(** [cond ? [line] : []], the lines a block pushes conditionally. *)
Definition line_if (c : bool) (line : string) : list string :=
  if c then [line] else [].

(** *** Filters (lines 408-472) *)

(** [f.displayName || f.externalId || f.field || null] *)
Definition filter_field_name (f : filterField) : option string :=
  if present (ff_displayName f) then ff_displayName f
  else if present (ff_externalId f) then ff_externalId f
  else if present (ff_field f) then ff_field f
  else None.

Definition resolved_field_name (tb : tables) (f : filterField) : jsval :=
  match filter_field_name f with
  | Some fieldName =>
      if String.prefix "searchable." fieldName then
        get (propertyNameMap tb) (second_segment fieldName)
      else if is_hex24 fieldName then get (propertyNameMap tb) (JStr fieldName)
      else if negb (includes fieldName ".") && negb (is_hex24 fieldName) then JStr fieldName
      else JNull
  | None => JNull
  end.

(** The callback of [f.values.map]: an identifier-shaped value is looked
    up, and is [null] when neither table knows it. *)
Definition resolve_filter_value (tb : tables) (val : jsval) : jsval :=
  match val with
  | JStr s =>
      if is_hex24 s then
        or_else (or_else (get (optionMap tb) val) (get (propertyNameMap tb) val)) JNull
      else val
  | _ => val
  end.

Definition not_null (v : jsval) : bool := negb (strict_eq v JNull).

Definition resolved_filter_values (tb : tables) (vals : list jsval) : list jsval :=
  List.filter not_null (map (resolve_filter_value tb) vals).

(** The lines pushed for [f.values]. *)
Definition filter_values_lines (tb : tables) (f : filterField) : list string :=
  match ff_values f, ff_selector f with
  | Some ((_ :: _) as vals), Some selector =>
      if negb (String.eqb selector "")
         && negb (String.eqb (toUpperCase selector) "PARAMETER") then
        let resolvedValues := resolved_filter_values tb vals in
        match resolvedValues with
        | [] => []
        | _ => ["Values: " +:+ join_values ", " resolvedValues]
        end
      else []
  | _, _ => []
  end.

Definition filter_parts (tb : tables) (f : filterField) : list string :=
  let resolvedFieldName := resolved_field_name tb f in
  line_if (truthy resolvedFieldName) ("Field: " +:+ to_text resolvedFieldName)
  ++ line_if (present (ff_fieldType f)) ("Type: " +:+ formatKey (default "" (ff_fieldType f)))
  ++ line_if (present (ff_op f)) ("Condition: " +:+ formatConstraint (ff_op f))
  ++ line_if (present (ff_selector f)) ("Selector: " +:+ formatSelector (ff_selector f))
  ++ filter_values_lines tb f
  ++ line_if (truthy (ff_referencedParameterId f))
       ("Referenced Parameter: " +:+
          to_text (or_else (get (parameterMap tb) (ff_referencedParameterId f))
                     (ff_referencedParameterId f))).

Definition number_text (n : nat) : string := string_of_Z (Z.of_nat n).

Definition filter_block (tb : tables) (idx : nat) (f : filterField) : string :=
  "Filter " +:+ number_text (idx + 1) +:+ ":" +:+ nl +:+ "  "
    +:+ join (nl +:+ "  ") (filter_parts tb f).

Definition getFiltersText (tb : tables) (param : parameterRequest) : string :=
  match param_propertyFilters param with
  | None => ""
  | Some fields =>
      match items fields with
      | [] => ""
      | fs => join (nl +:+ nl) (imap (filter_block tb) fs)
      end
  end.

(** *** Validations (lines 475-555) *)

(** The condition under which a validation value is looked up. *)
Definition is_constant_identifier (selector : option string) (value : jsval) : bool :=
  match selector, value with
  | Some sel, JStr s =>
      negb (String.eqb sel "") && String.eqb (toUpperCase sel) "CONSTANT" && is_hex24 s
  | _, _ => false
  end.

Definition validation_value_lines (tb : tables) (v : validationItem) : list string :=
  match vi_value v with
  | JUndef | JNull => []
  | value =>
      let resolvedValue :=
        if is_constant_identifier (vi_selector v) value then
          or_else (or_else (get (optionMap tb) value) (get (propertyNameMap tb) value)) value
        else value in
      ["  Value: " +:+ to_text resolvedValue]
  end.

Definition is_identifier (v : jsval) : bool :=
  match v with
  | JStr s => is_hex24 s
  | _ => false
  end.

Definition validation_property_lines (tb : tables) (v : validationItem) : list string :=
  if truthy (vi_propertyId v) then
    let found := get (propertyNameMap tb) (vi_propertyId v) in
    let propName :=
      if negb (truthy found) && is_identifier (vi_propertyId v) then JNull
      else if negb (truthy found) then vi_propertyId v
      else found in
    line_if (truthy propName) ("  Property: " +:+ to_text propName)
  else [].

Definition defined (v : jsval) : bool := negb (strict_eq v JUndef).

Definition validation_parts (tb : tables) (exceptionType typeName : string)
    (idx : nat) (v : validationItem) : list string :=
  [ typeName +:+ " " +:+ number_text (idx + 1) +:+ ":";
    "  Exception Type: " +:+ exceptionType ]
  ++ line_if (present (vi_constraint v)) ("  Condition: " +:+ formatConstraint (vi_constraint v))
  ++ line_if (present (vi_selector v)) ("  Selector: " +:+ formatSelector (vi_selector v))
  ++ validation_value_lines tb v
  ++ line_if (present (vi_dateUnit v)) ("  Unit: " +:+ formatUnit (vi_dateUnit v))
  ++ line_if (present (vi_errorMessage v))
       ("  Error Message: " +:+ dq +:+ default "" (vi_errorMessage v) +:+ dq)
  ++ line_if (truthy (vi_referencedParameterId v))
       ("  Referenced Parameter: " +:+
          to_text (or_else (get (parameterMap tb) (vi_referencedParameterId v))
                     (vi_referencedParameterId v)))
  ++ validation_property_lines tb v
  ++ line_if (present (vi_parameterLabel v))
       ("  Parameter: " +:+ default "" (vi_parameterLabel v))
  ++ line_if (defined (vi_minValue v)) ("  Min Value: " +:+ to_text (vi_minValue v))
  ++ line_if (defined (vi_maxValue v)) ("  Max Value: " +:+ to_text (vi_maxValue v)).

(** [processValidationArray]: one block per item of the array. *)
Definition processValidationArray (tb : tables) (exceptionType : string)
    (validationArray : option (list validationItem)) (typeName : string) : list string :=
  imap (fun idx v => join nl (validation_parts tb exceptionType typeName idx v))
    (items validationArray).

(** [if (x)] and [`${x}`] on a parsed JSON value. *)
Definition json_truthy (j : json) : bool :=
  match j with
  | JsonNull => false
  | JsonBool b => b
  | JsonNum z => negb (z =? 0)%Z
  | JsonStr s => negb (String.eqb s "")
  | JsonArray _ | JsonObject _ => true
  end.

Definition custom_lines (j : json) : list string :=
  match j with
  | JsonObject entries =>
      map (fun e => "  " +:+ formatKey (fst e) +:+ ": " +:+ stringify (snd e)) entries
  | JsonArray elems =>
      imap (fun i e => "  " +:+ formatKey (number_text i) +:+ ": " +:+ stringify e) elems
  | JsonNull => ["  Details: null"]
  | JsonBool true => ["  Details: true"]
  | JsonBool false => ["  Details: false"]
  | JsonNum z => ["  Details: " +:+ integer_text z]
  | JsonStr s => ["  Details: " +:+ s]
  end.

Definition custom_block (exceptionType : string) (custom : option json) : list string :=
  match custom with
  | Some j =>
      if json_truthy j then
        [ join nl ([ "Custom Validation:"; "  Exception Type: " +:+ exceptionType ]
                   ++ custom_lines j) ]
      else []
  | None => []
  end.

(** The blocks one validation group appends to [allValidationTexts]. *)
Definition validation_blocks (tb : tables) (validation : validation) : list string :=
  let exceptionType := formatExceptionType (v_exceptionApprovalType validation) in
  processValidationArray tb exceptionType
    (v_dateTimeParameterValidations validation) "Date/Time Validation"
  ++ processValidationArray tb exceptionType
       (v_criteriaValidations validation) "Criteria Validation"
  ++ processValidationArray tb exceptionType
       (v_propertyValidations validation) "Property Validation"
  ++ processValidationArray tb exceptionType
       (v_resourceParameterValidations validation) "Resource Validation"
  ++ processValidationArray tb exceptionType
       (v_relationPropertyValidations validation) "Relation Validation"
  ++ custom_block exceptionType (v_customValidations validation).

Definition getValidationsText (tb : tables) (param : parameterRequest) : string :=
  match p_validations param with
  | Some ((_ :: _) as validations) =>
      join (nl +:+ nl) (concat (map (validation_blocks tb) validations))
  | _ => ""
  end.

(** *** Dependencies (lines 558-572) *)

Definition dependency_line (taskMap : gmap string taskInfo) (taskId : jsval) : string :=
  match lookupTask taskMap taskId with
  | Some info =>
      "Stage " +:+ integer_text (stageOrder info) +:+ ": " +:+ to_text (stageName info)
        +:+ nl +:+ "  → Task " +:+ integer_text (stageOrder info) +:+ "."
        +:+ integer_text (taskOrder info) +:+ ": " +:+ to_text (taskName info)
  | None => "Task ID: " +:+ to_text taskId +:+ " (not found in workflow)"
  end.

Definition getDependenciesText (taskMap : gmap string taskInfo) (tk : taskRequest) : string :=
  match t_prerequisiteTaskIds tk with
  | Some ((_ :: _) as prereqs) =>
      "Tasks that need to be executed before this task:" +:+ nl
        +:+ join nl (map (dependency_line taskMap) prereqs)
  | _ => "N/A"
  end.

(** *** Executor lock (lines 575-602) *)

Definition task_position (info : taskInfo) : string :=
  "Task " +:+ integer_text (stageOrder info) +:+ "." +:+ integer_text (taskOrder info)
    +:+ ": " +:+ to_text (taskName info)
    +:+ " (" +:+ to_text (stageName info) +:+ ")".

Definition same_executor_lines (taskMap : gmap string taskInfo) (lock : executorLock)
    : list string :=
  if truthy (l_hasToBeExecutorId lock) then
    match lookupTask taskMap (l_hasToBeExecutorId lock) with
    | Some info =>
        ["Must be executed by same person as:" +:+ nl +:+ "  " +:+ task_position info]
    | None =>
        ["Must be executed by same person as: Task ID "
           +:+ to_text (l_hasToBeExecutorId lock)]
    end
  else [].

Definition cannot_be_line (taskMap : gmap string taskInfo) (taskId : jsval) : string :=
  match lookupTask taskMap taskId with
  | Some info => task_position info
  | None => "Task ID: " +:+ to_text taskId
  end.

Definition other_executor_lines (taskMap : gmap string taskInfo) (lock : executorLock)
    : list string :=
  match l_cannotBeExecutorIds lock with
  | Some ((_ :: _) as ids) =>
      ["Cannot be executed by same person as:" +:+ nl +:+ "  "
         +:+ join (nl +:+ "  ") (map (cannot_be_line taskMap) ids)]
  | _ => []
  end.

Definition getExecutorLockText (taskMap : gmap string taskInfo) (tk : taskRequest) : string :=
  match t_taskExecutorLock tk with
  | None => "N/A"
  | Some lock =>
      match (same_executor_lines taskMap lock ++ other_executor_lines taskMap lock)%list with
      | [] => "N/A"
      | lines => join (nl +:+ nl) lines
      end
  end.

(** ** Automation summary (lines 605-651) *)

(** [(code || "").replace(/_/g, " ").toLowerCase()] *)
Definition humanize_code (code : option string) : string :=
  toLowerCase (underscores_to_spaces (default "" code)).

(** [refParam?.data?.collection] *)
Definition param_collection (param : parameterRequest) : option string :=
  match p_data param with
  | DataObject d => d_collection d
  | _ => None
  end.

Definition all_task_parameters (wf : workflow) : list parameterRequest :=
  flat_map (fun tk => items (t_parameterRequests tk))
    (flat_map (fun st => items (s_taskRequests st)) (items (wf_stageRequests wf))).

(** The parameter an automation refers to: top-level ones are searched
    first, then those of every task. *)
Definition find_parameter (wf : workflow) (refId : jsval) : option parameterRequest :=
  match List.find (fun p => strict_eq (p_id p) refId) (items (wf_parameterRequests wf)) with
  | Some p => Some p
  | None => List.find (fun p => strict_eq (p_id p) refId) (all_task_parameters wf)
  end.

Definition automation_object_type (wf : workflow) (auto : automationRequest) : string :=
  let explicit :=
    match a_actionDetails auto with
    | Some ad => ad_objectTypeDisplayName ad
    | None => None
    end in
  let objectType := if present explicit then default "" explicit else "Unknown Object Type" in
  let refId :=
    match a_actionDetails auto with
    | Some ad => ad_referencedParameterId ad
    | None => JUndef
    end in
  if String.eqb objectType "Unknown Object Type" && truthy refId then
    match find_parameter wf refId with
    | Some refParam =>
        if present (param_collection refParam) then default "" (param_collection refParam)
        else objectType
    | None => objectType
    end
  else objectType.

Definition nonempty (s : string) : bool := negb (String.eqb s "").

Definition mapping_line (tb : tables) (cfg : configuration) : string :=
  let paramLabel :=
    or_else (or_else (or_else (of_opt (cfg_parameterLabel cfg))
                        (of_opt (cfg_parameterDisplayName cfg)))
               (get (propertyNameMap tb) (cfg_parameterId cfg)))
      (JStr "") in
  if truthy paramLabel then "• " +:+ to_text paramLabel else "".

Definition automation_mappings (tb : tables) (auto : automationRequest) : string :=
  match a_actionDetails auto with
  | Some ad =>
      match ad_configuration ad with
      | Some cfgs => join nl (List.filter nonempty (map (mapping_line tb) cfgs))
      | None => ""
      end
  | None => ""
  end.

Definition automation_block (wf : workflow) (tb : tables) (auto : automationRequest) : string :=
  let trigger := humanize_code (a_triggerType auto) in
  let action := humanize_code (a_actionType auto) in
  let name := if present (a_displayName auto) then default "" (a_displayName auto)
              else "Unnamed Automation" in
  let objectType := automation_object_type wf auto in
  let mappings := automation_mappings tb auto in
  join nl
    (List.filter nonempty
       [ "Automation: " +:+ name;
         "Trigger: " +:+ trigger;
         "Action: " +:+ action;
         "Object Type: " +:+ objectType;
         if nonempty mappings then "Parameters to be automated:" +:+ nl +:+ mappings else "" ]).

Definition buildAutomationText (wf : workflow) (tb : tables) (tk : taskRequest) : string :=
  match t_automationRequests tk with
  | Some ((_ :: _) as autos) => join (nl +:+ nl) (map (automation_block wf tb) autos)
  | _ => ""
  end.

(** ** The record builder (lines 655-703) *)

(** A flat record: the columns in the order of the object literal. *)
Definition row : Type := list (string * jsval).

(** [r[column]] *)
Fixpoint row_get (r : row) (column : string) : jsval :=
  match r with
  | [] => JUndef
  | (k, v) :: rest => if String.eqb k column then v else row_get rest column
  end.

(** [text || fallback] on texts *)
Definition or_text (text fallback : string) : string :=
  if nonempty text then text else fallback.

(** [d?.name || d?.label || d?.value] *)
Definition option_shown (o : option choice) : jsval :=
  match o with
  | Some d => or_else (or_else (of_opt (c_name d)) (of_opt (c_label d))) (c_value d)
  | None => JUndef
  end.

Definition options_summary (l : list (option choice)) : string :=
  join_values " • " (List.filter truthy (map option_shown l)).

Definition options_text (param : parameterRequest) : string :=
  match p_data param with
  | DataArray l => options_summary l
  | DataObject d =>
      match d_choices d with
      | Some l => options_summary l
      | None =>
          if present (d_collection d) then
            "[Resource: " +:+
              to_text (or_else (of_opt (d_objectTypeDisplayName d)) (of_opt (d_collection d)))
              +:+ "]"
          else if present (d_text d) then "[Instruction Text]"
          else "N/A"
      end
  | NoData => "N/A"
  end.

Definition branching_text (tb : tables) (param : parameterRequest) : string :=
  or_text (default "" (visibilityMap tb !! to_text (p_id param))) "N/A".

Definition has_verification (param : parameterRequest) (tag : string) : bool :=
  bool_decide (p_verificationType param = Some tag).

Definition enabled (b : bool) : jsval := JStr (if b then "Enabled" else "Disabled").

Definition makeRow (tb : tables) (taskMap : gmap string taskInfo)
    (stage task : jsval) (param : parameterRequest) (automationText : string)
    (taskObj : option taskRequest) (isLastParam : bool) : row :=
  let branchingText := branching_text tb param in
  let validationsText := or_text (getValidationsText tb param) "N/A" in
  let filtersText := or_text (getFiltersText tb param) "N/A" in
  let dependenciesText :=
    match isLastParam, taskObj with
    | true, Some tk => getDependenciesText taskMap tk
    | _, _ => "N/A"
    end in
  let executorLockText :=
    match isLastParam, taskObj with
    | true, Some tk => getExecutorLockText taskMap tk
    | _, _ => "N/A"
    end in
  let automationDetails := if isLastParam then or_text automationText "" else "" in
  let options := options_text param in
  [ ("Stage Name", stage);
    ("Activity Name", task);
    ("Performer", JStr "Performer/Verifier");
    ("Activity Description in detail",
      JStr ("Performer provides input for " +:+ to_text (p_label param) +:+ "."));
    ("Instruction Title", p_label param);
    ("Options / Values", JStr (or_text options "N/A"));
    ("Field Type", JStr (if p_mandatory param then "Mandatory" else "Optional"));
    ("Activity / Parameter Type", or_else (p_type param) (JStr "N/A"));
    ("Dependencies", JStr dependenciesText);
    ("Executor Lock", JStr executorLockText);
    ("Branching", JStr branchingText);
    ("Filters", JStr filtersText);
    ("Validations", JStr validationsText);
    ("Automation Details", JStr automationDetails);
    ("Configuration Feasibility", JStr "Configurable");
    ("Configuration Feasibility Notes", JStr "N/A");
    ("Configuration Status", JStr "Configured");
    ("IS SELF VERIFICATION PRESENT?",
      enabled (has_verification param "SELF" || has_verification param "BOTH"));
    ("Tester Comments", JStr "N/A");
    ("IS PEER VERIFICATION PRESENT?", enabled (has_verification param "BOTH"));
    ("Tester Comments (B)", JStr "N/A") ].

(** ** [processWorkflow] (lines 180-726) and the assembly (lines 154-161) *)

(** [csvRows.push(r)] *)
Definition push (csvRows : list row) (r : row) : list row := csvRows ++ [r].

(** The rows one task pushes: one per parameter, the flag raised at the
    index [params.length - 1]. *)
Definition push_task_rows (wf : workflow) (tb : tables) (taskMap : gmap string taskInfo)
    (st : stageRequest) (tk : taskRequest) (csvRows : list row) : list row :=
  let automationText := buildAutomationText wf tb tk in
  let params := items (t_parameterRequests tk) in
  let lastIndex := (Z.of_nat (length params) - 1)%Z in
  fold_indexed
    (fun rows idx p =>
       let isLastParam := (Z.of_nat idx =? lastIndex)%Z in
       push rows (makeRow tb taskMap (s_name st) (t_name tk) p automationText (Some tk)
                    isLastParam))
    csvRows params.

(** The rows of the creation form: the top-level parameters. *)
Definition push_cjf_rows (wf : workflow) (tb : tables) (taskMap : gmap string taskInfo)
    (csvRows : list row) : list row :=
  let cjfParams := items (wf_parameterRequests wf) in
  let cjfLastIndex := (Z.of_nat (length cjfParams) - 1)%Z in
  fold_indexed
    (fun rows idx p =>
       let isLastParam := (Z.of_nat idx =? cjfLastIndex)%Z in
       push rows (makeRow tb taskMap (JStr "Create Job Form") (p_label p) p "" None
                    isLastParam))
    csvRows cjfParams.

Definition processWorkflow (wf : workflow) (csvRows : list row) : list row :=
  let taskMap := buildTaskMap wf in
  let tb := buildTables wf in
  let csvRows :=
    foldl
      (fun rows st =>
         foldl (fun rows tk => push_task_rows wf tb taskMap st tk rows)
           rows (items (s_taskRequests st)))
      csvRows (items (wf_stageRequests wf)) in
  push_cjf_rows wf tb taskMap csvRows.

(** [jsonObjects.forEach((wf) => processWorkflow(wf, csvRows))] from an
    empty [csvRows]. *)
Definition csvRows (jsonObjects : list workflow) : list row :=
  foldl (fun rows wf => processWorkflow wf rows) [] jsonObjects.

(** [r["Stage Name"] === "Create Job Form"] *)
Definition is_cjf (r : row) : bool :=
  strict_eq (row_get r "Stage Name") (JStr "Create Job Form").

(** The list handed to [setRows]. *)
Definition sortedRows (jsonObjects : list workflow) : list row :=
  let rows := csvRows jsonObjects in
  List.filter is_cjf rows ++ List.filter (fun r => negb (is_cjf r)) rows.

(** ** Statistics and table header (lines 98-121 and 771-772) *)

Record statistics := {
  totalRows : nat;
  stages : nat;
  mandatory : nat;
  automations : nat;
  dependencies : nat;
  validations : nat;
}.

(** The accumulators of the loop over the rows; [stageSet] is the [Set]
    in insertion order. *)
Record tally := {
  stageSet : list jsval;
  mandatoryCount : nat;
  automationCount : nat;
  dependencyCount : nat;
  validationCount : nat;
}.

Definition empty_tally : tally :=
  {| stageSet := []; mandatoryCount := 0; automationCount := 0;
     dependencyCount := 0; validationCount := 0 |}.

(** [stageSet.add(v)] *)
Definition set_add (v : jsval) (s : list jsval) : list jsval :=
  if bool_decide (v ∈ s) then s else s ++ [v].

(** [if (c) n += 1] *)
Definition bump (c : bool) (n : nat) : nat := if c then S n else n.

(** [(row["Field Type"] || "").toLowerCase()], which throws on a truthy
    value that is no string. *)
Definition lowered_field_type (r : row) : option string :=
  match or_else (row_get r "Field Type") (JStr "") with
  | JStr s => Some (toLowerCase s)
  | _ => None
  end.

(** [v && v !== placeholder] *)
Definition present_and_not (v : jsval) (placeholder : string) : bool :=
  truthy v && negb (strict_eq v (JStr placeholder)).

Definition tally_row (acc : tally) (r : row) : option tally :=
  let stageSet' :=
    if truthy (row_get r "Stage Name") then set_add (row_get r "Stage Name") (stageSet acc)
    else stageSet acc in
  match lowered_field_type r with
  | None => None
  | Some fieldType =>
      Some {| stageSet := stageSet';
              mandatoryCount := bump (String.eqb fieldType "mandatory") (mandatoryCount acc);
              automationCount :=
                bump (present_and_not (row_get r "Automation Details") "")
                  (automationCount acc);
              dependencyCount :=
                bump (present_and_not (row_get r "Dependencies") "N/A") (dependencyCount acc);
              validationCount :=
                bump (present_and_not (row_get r "Validations") "N/A")
                  (validationCount acc) |}
  end.

(** The loop; [None] when a row makes it throw. *)
Definition tally_rows (rows : list row) : option tally :=
  foldl (fun acc r => match acc with Some a => tally_row a r | None => None end)
    (Some empty_tally) rows.

Definition stats (rows : list row) : option statistics :=
  match tally_rows rows with
  | Some t =>
      Some {| totalRows := length rows;
              stages := length (stageSet t);
              mandatory := mandatoryCount t;
              automations := automationCount t;
              dependencies := dependencyCount t;
              validations := validationCount t |}
  | None => None
  end.

(** [hasRows ? Object.keys(rows[0]) : []], for rows whose keys are no
    array indices. *)
Definition tableColumns (rows : list row) : list string :=
  match rows with
  | [] => []
  | first :: _ => map fst first
  end.

(** ** Predicates of the statements *)

(** The shape of a humanized text before its first letter is raised: every
    white space is one blank between two other characters. *)
Fixpoint blanks_single (s : string) : bool :=
  match s with
  | "" => true
  | String c t =>
      (if is_space c then (c =? " ")%char && negb (starts_with_space t) else true)
      && blanks_single t
  end.

Fixpoint ends_with_space (s : string) : bool :=
  match s with
  | "" => false
  | String c "" => is_space c
  | String _ t => ends_with_space t
  end.

Definition no_capital (c : ascii) : bool := negb (is_upper c).
Definition no_underscore (c : ascii) : bool := negb (c =? "_")%char.

Record humanized (s : string) : Prop := {
  hum_lower : all_chars no_capital s = true;
  hum_plain : all_chars no_underscore s = true;
  hum_blanks : blanks_single s = true;
  hum_start : starts_with_space s = false;
  hum_end : ends_with_space s = false;
}.

(** The records the builder emits for one task, and for the creation
    form, on their own. *)
Definition task_rows (wf : workflow) (tb : tables) (taskMap : gmap string taskInfo)
    (st : stageRequest) (tk : taskRequest) : list row :=
  push_task_rows wf tb taskMap st tk [].

Definition cjf_rows (wf : workflow) (tb : tables) (taskMap : gmap string taskInfo)
    : list row :=
  push_cjf_rows wf tb taskMap [].

(** A record whose three task-level columns hold the placeholders. *)
Definition task_level_placeholder (r : row) : bool :=
  strict_eq (row_get r "Dependencies") (JStr "N/A")
  && strict_eq (row_get r "Executor Lock") (JStr "N/A")
  && strict_eq (row_get r "Automation Details") (JStr "").

(** The column names of a flat record, in order. *)
Definition columns : list string :=
  [ "Stage Name"; "Activity Name"; "Performer"; "Activity Description in detail";
    "Instruction Title"; "Options / Values"; "Field Type"; "Activity / Parameter Type";
    "Dependencies"; "Executor Lock"; "Branching"; "Filters"; "Validations";
    "Automation Details"; "Configuration Feasibility"; "Configuration Feasibility Notes";
    "Configuration Status"; "IS SELF VERIFICATION PRESENT?"; "Tester Comments";
    "IS PEER VERIFICATION PRESENT?"; "Tester Comments (B)" ].






(** Field updates used to state what a synthesizer ignores. *)
Definition with_values (f : filterField) (vals : list jsval) : filterField :=
  {| ff_field := ff_field f; ff_displayName := ff_displayName f;
     ff_externalId := ff_externalId f; ff_fieldType := ff_fieldType f;
     ff_op := ff_op f; ff_selector := ff_selector f;
     ff_values := Some vals;
     ff_referencedParameterId := ff_referencedParameterId f |}.

(** An identifier-shaped text that neither the option table nor the
    property-name table knows. *)
Definition unresolved (tb : tables) (id : string) : Prop :=
  is_hex24 id = true /\ optionMap tb !! id = None /\ propertyNameMap tb !! id = None.

Definition unresolved_value (tb : tables) (v : jsval) : Prop :=
  exists id, v = JStr id /\ unresolved tb id.

(** A line of a filter block other than its values line. *)
Definition not_values_line (line : string) : Prop :=
  String.prefix "Values:" line = false.

(** The tasks of a definition, and its parameters in the order their
    records are emitted and in the order they are collected. *)
Definition all_tasks (wf : workflow) : list taskRequest :=
  flat_map (fun st => items (s_taskRequests st)) (items (wf_stageRequests wf)).

Definition emitted_parameters (wf : workflow) : list parameterRequest :=
  all_task_parameters wf ++ items (wf_parameterRequests wf).

Definition collected_parameters (wf : workflow) : list parameterRequest :=
  items (wf_parameterRequests wf) ++ all_task_parameters wf.

(** A validation group that contributes no block. *)
Definition silent_group (v : validation) : bool :=
  match items (v_dateTimeParameterValidations v), items (v_criteriaValidations v),
        items (v_propertyValidations v), items (v_resourceParameterValidations v),
        items (v_relationPropertyValidations v) with
  | [], [], [], [], [] =>
      match v_customValidations v with
      | Some j => negb (json_truthy j)
      | None => true
      end
  | _, _, _, _, _ => false
  end.

(** An executor lock that names a task. *)
Definition effective_lock (lock : executorLock) : bool :=
  truthy (l_hasToBeExecutorId lock)
  || match items (l_cannotBeExecutorIds lock) with [] => false | _ => true end.

(** The records the stages of a definition contribute. *)
Definition stage_rows (wf : workflow) : list row :=
  concat
    (map
       (fun st =>
          concat
            (map (task_rows wf (buildTables wf) (buildTaskMap wf) st)
               (items (s_taskRequests st))))
       (items (wf_stageRequests wf))).

(** No stage of the definition bears the name of the creation form. *)
Definition no_stage_named_cjf (wf : workflow) : Prop :=
  Forall (fun st => s_name st <> JStr "Create Job Form") (items (wf_stageRequests wf)).

(** A text that is neither empty nor starts with the [N] of the
    placeholder. *)
Definition headed (s : string) : Prop :=
  match s with
  | "" => False
  | String c _ => c <> "N"%char
  end.

(** The rows the loop of [stats] counts. *)
Definition counts_mandatory (r : row) : bool :=
  match lowered_field_type r with
  | Some fieldType => String.eqb fieldType "mandatory"
  | None => false
  end.
Definition counts_automation (r : row) : bool :=
  present_and_not (row_get r "Automation Details") "".
Definition counts_dependency (r : row) : bool :=
  present_and_not (row_get r "Dependencies") "N/A".
Definition counts_validation (r : row) : bool :=
  present_and_not (row_get r "Validations") "N/A".

(** A task that has a record to carry its task-level texts. *)
Definition has_parameter (tk : taskRequest) : bool :=
  match items (t_parameterRequests tk) with [] => false | _ => true end.
Definition has_prerequisite (tk : taskRequest) : bool :=
  match items (t_prerequisiteTaskIds tk) with [] => false | _ => true end.
Definition has_automation (tk : taskRequest) : bool :=
  match items (t_automationRequests tk) with [] => false | _ => true end.
Definition has_validation (p : parameterRequest) : bool :=
  negb (forallb silent_group (items (p_validations p))).

(** The stage names the loop of [stats] collects, in insertion order. *)
Definition add_stage (s : list jsval) (r : row) : list jsval :=
  if truthy (row_get r "Stage Name") then set_add (row_get r "Stage Name") s else s.
Definition stage_set (rows : list row) : list jsval := foldl add_stage [] rows.

(** The Stage Name cells that are truthy. *)
Definition stage_cells (rows : list row) : list jsval :=
  List.filter truthy (map (fun r => row_get r "Stage Name") rows).

(** A row on which the loop of [stats] does not throw. *)
Definition countable_row (r : row) : Prop := is_Some (lowered_field_type r).

(** A character the humanizer turns into white space. *)
Definition is_blank (c : ascii) : bool := is_space c || (c =? "_")%char.

(** The keys the rules of a parameter write in [visibilityMap], and
    those of a whole definition. *)
Definition shown_targets (p : parameterRequest) : list string :=
  flat_map (fun r => map to_text (items (r_show_parameters r))) (items (p_rules p)).
Definition all_targets (wf : workflow) : list string :=
  flat_map shown_targets (collected_parameters wf).

(** The tasks of a definition with the info the index stores for them, in
    the order they are registered. *)
Definition task_entries (wf : workflow) : list (jsval * taskInfo) :=
  concat
    (imap
       (fun stageIdx st =>
          imap
            (fun taskIdx tk =>
               (t_id tk,
                {| taskName := t_name tk; stageName := s_name st;
                   stageOrder := order_of (s_orderTree st) stageIdx;
                   taskOrder := order_of (t_orderTree tk) taskIdx |}))
            (items (s_taskRequests st)))
       (items (wf_stageRequests wf))).

(** An identifier none of whose two keys is the text of [id]. *)
Definition keys_apart (id other : jsval) : Prop :=
  to_text other <> to_text id /\ num_text (to_number other) <> to_text id.

(** A reference none of whose keys is a key of the task [id]: neither
    its text nor the text of its numeric form is the text of [id] or the
    text of the numeric form of [id]. *)
Definition no_key_of (reference id : jsval) : Prop :=
  to_text id <> to_text reference
  /\ num_text (to_number id) <> to_text reference
  /\ to_text id <> num_text (to_number reference)
  /\ num_text (to_number id) <> num_text (to_number reference).

(** A reference that matches no key of the index of a definition. *)
Definition names_no_task (wf : workflow) (reference : jsval) : Prop :=
  Forall (fun e => no_key_of reference (fst e)) (task_entries wf).

(** An identifier-shaped text that the property-name table does not
    know. *)
Definition unknown_property (tb : tables) (id : string) : Prop :=
  is_hex24 id = true /\ propertyNameMap tb !! id = None.

(** The name [register_filter] stores for the property a filter key
    embeds: the display name, else the external identifier. *)
Definition registered_name (f : filterField) : option string :=
  if present (ff_displayName f) then ff_displayName f else ff_externalId f.

(** A filter known by its key alone. *)
Definition key_only (g : filterField) (field : string) : Prop :=
  ff_field g = Some field /\ ff_displayName g = None /\ ff_externalId g = None.

(** A line of a filter block other than its field line. *)
Definition not_field_line (line : string) : Prop :=
  String.prefix "Field:" line = false.

(** A text that starts with the character [c]. *)
Definition starts_with (c : ascii) (s : string) : Prop := exists t, s = String c t.

(** The tables [collectParam] has reached when it turns to the rules. *)
Definition before_rules (p : parameterRequest) (tb : tables) : tables :=
  let tb := set_parameter (p_id p) (p_label p) tb in
  let tb := set_propertyName (p_id p) (p_label p) tb in
  let tb := for_each (param_options p) register_option tb in
  let tb :=
    match param_filter_fields p with
    | Some fields => for_each fields register_filter tb
    | None => tb
    end in
  for_each (items (p_validations p))
    (fun v => for_each (items (v_propertyValidations v)) register_property_validation)
    tb.

(** Every value of a visibility table is a sentence. *)
Definition sentences (m : gmap string string) : Prop :=
  map_Forall (fun _ v => starts_with "V" v) m.

(** ** Sample definitions, for the concrete cases below *)

Module Samples.

Definition parameter_of (id : string) (label : jsval) (verification : option string)
    (validations : option (list validation)) : parameterRequest :=
  {| p_id := JStr id; p_label := label; p_type := JStr "SINGLE_LINE";
     p_mandatory := true; p_verificationType := verification; p_data := NoData;
     p_validations := validations; p_rules := None |}.

Definition text_parameter (id label : string) : parameterRequest :=
  parameter_of id (JStr label) None None.

Definition task_of (id : jsval) (name : string) (params : list parameterRequest)
    (prereqs : option (list jsval)) : taskRequest :=
  {| t_id := id; t_name := JStr name; t_orderTree := None;
     t_parameterRequests := Some params; t_prerequisiteTaskIds := prereqs;
     t_taskExecutorLock := None; t_automationRequests := None |}.

Definition stage_of (name : string) (tasks : list taskRequest) : stageRequest :=
  {| s_name := JStr name; s_orderTree := None; s_taskRequests := Some tasks |}.

Definition workflow_of (stages : list stageRequest) (top : list parameterRequest)
    : workflow :=
  {| wf_stageRequests := Some stages; wf_parameterRequests := Some top;
     wf_objects := None; wf_objectRequests := None |}.

(** A task with one parameter and neither prerequisites, executor lock
    nor automation. *)
Definition bare_task : taskRequest :=
  task_of (JStr "t1") "Weigh" [text_parameter "p1" "Weight"] None.
Definition bare_stage : stageRequest := stage_of "Dispensing" [bare_task].
Definition bare_workflow : workflow := workflow_of [bare_stage] [].

(** A task of two parameters that waits for [bare_task]. *)
Definition second_task : taskRequest :=
  task_of (JStr "t2") "Record"
    [text_parameter "p2" "Batch"; text_parameter "p3" "Operator"] (Some [JStr "t1"]).
Definition two_task_stage : stageRequest := stage_of "Dispensing" [bare_task; second_task].
Definition two_task_workflow : workflow :=
  workflow_of [two_task_stage] [text_parameter "p0" "Product"].

Definition peer_parameter : parameterRequest :=
  parameter_of "p1" (JStr "Weight") (Some "PEER") None.

Definition unlabeled_parameter : parameterRequest := parameter_of "p1" JUndef None None.

(** A task whose prerequisite names no task of the definition. *)
Definition dangling_task : taskRequest :=
  task_of (JStr "t1") "Weigh" [text_parameter "p1" "Weight"] (Some [JStr "t9"]).
Definition dangling_workflow : workflow :=
  workflow_of [stage_of "Dispensing" [dangling_task]] [].

(** An identifier of 24 hexadecimal digits that no table of the sample
    definitions knows. *)
Definition unknown_id : string := "64b7f0c2a1d3e4f5a6b7c8d9".

Definition constant_item (value propertyId : jsval) : validationItem :=
  {| vi_constraint := Some "EQ"; vi_selector := Some "CONSTANT"; vi_value := value;
     vi_dateUnit := None; vi_errorMessage := None; vi_referencedParameterId := JUndef;
     vi_propertyId := propertyId; vi_parameterLabel := None;
     vi_minValue := JUndef; vi_maxValue := JUndef; vi_options := None;
     vi_propertyDisplayName := None; vi_propertyExternalId := None |}.

Definition criteria_validation (item : validationItem) : validation :=
  {| v_exceptionApprovalType := None; v_dateTimeParameterValidations := None;
     v_criteriaValidations := Some [item]; v_propertyValidations := None;
     v_resourceParameterValidations := None; v_relationPropertyValidations := None;
     v_customValidations := None |}.

(** A parameter validated against a constant that is an unknown
    identifier. *)
Definition validated_parameter : parameterRequest :=
  parameter_of "p1" (JStr "Material") None
    (Some [criteria_validation (constant_item (JStr unknown_id) (JStr unknown_id))]).
Definition validated_workflow : workflow :=
  workflow_of [stage_of "Dispensing" [task_of (JStr "t1") "Pick" [validated_parameter] None]]
    [].

(** A task with an identifier of eighteen digits, as real definitions
    have them, that cites a prerequisite which is no task, and whose
    parameter is validated against an unknown identifier. *)
Definition referencing_workflow : workflow :=
  workflow_of
    [ stage_of "Dispensing"
        [ task_of (JStr "586514447368638464") "Weigh" [validated_parameter]
            (Some [JStr "586514447368650000"]) ] ]
    [].

(** Two tasks with identifiers of eighteen digits that are far apart. *)
Definition numbered_workflow : workflow :=
  workflow_of
    [ stage_of "Dispensing"
        [ task_of (JStr "586514447368638464") "Weigh" [text_parameter "p1" "Weight"] None;
          task_of (JStr "586514447368650000") "Record" [text_parameter "p2" "Batch"]
            (Some [JStr "586514447368638464"]) ] ]
    [].

(** Two tasks whose identifiers differ in the last of eighteen digits. *)
Definition near_workflow : workflow :=
  workflow_of
    [ stage_of "Dispensing"
        [ task_of (JStr "586514447368638500") "Weigh" [text_parameter "p1" "Weight"] None;
          task_of (JStr "586514447368638501") "Record" [text_parameter "p2" "Batch"] None ] ]
    [].

Definition constant_filter (vals : list jsval) : filterField :=
  {| ff_field := Some "status"; ff_displayName := None; ff_externalId := None;
     ff_fieldType := None; ff_op := Some "EQ"; ff_selector := Some "CONSTANT";
     ff_values := Some vals; ff_referencedParameterId := JUndef |}.

(** The scenario of one stage, one task with a text and a single-choice
parameter and one automation named ["Notify"]. *)
Definition yes_no : list (option choice) :=
  [ Some {| c_id := JStr "o1"; c_name := Some "Yes"; c_label := None;
            c_displayName := None; c_value := JUndef |};
    Some {| c_id := JStr "o2"; c_name := Some "No"; c_label := None;
            c_displayName := None; c_value := JUndef |} ].

Definition choice_parameter : parameterRequest :=
  {| p_id := JStr "P2"; p_label := JStr "Approved"; p_type := JStr "SINGLE_SELECT";
     p_mandatory := false; p_verificationType := None; p_data := DataArray yes_no;
     p_validations := None; p_rules := None |}.

Definition notify : automationRequest :=
  {| a_triggerType := Some "TASK_COMPLETED"; a_actionType := Some "CREATE_OBJECT";
     a_displayName := Some "Notify"; a_actionDetails := None |}.

Definition intake_workflow : workflow :=
  workflow_of
    [ stage_of "Intake"
        [ {| t_id := JStr "1"; t_name := JStr "Collect Info"; t_orderTree := Some 1%Z;
             t_parameterRequests := Some [text_parameter "P1" "Name"; choice_parameter];
             t_prerequisiteTaskIds := None; t_taskExecutorLock := None;
             t_automationRequests := Some [notify] |} ] ]
    [].

(** A batch whose concatenated records come from the stages
["Create Job Form"], ["Stage A"], ["Create Job Form"], ["Stage B"]. *)
Definition mixed_batch : list workflow :=
  [ workflow_of [] [text_parameter "x" "Product"];
    workflow_of [stage_of "Stage A" [task_of (JStr "1") "Mix" [text_parameter "a" "Speed"] None]]
      [text_parameter "y" "Batch"];
    workflow_of [stage_of "Stage B" [task_of (JStr "1") "Pack" [text_parameter "b" "Count"] None]]
      [] ].

Definition stage_and_title (r : row) : string * string :=
  (to_text (row_get r "Stage Name"), to_text (row_get r "Instruction Title")).

End Samples.

(** * Properties *)

(** ** The generic humanizer *)

Section Characters.

Local Ltac each_char c :=
  destruct c as [[] [] [] [] [] [] [] []]; try reflexivity; try discriminate.

Lemma lower_char_no_capital c : no_capital (lower_char c) = true.
Proof. each_char c. Qed.

Lemma lower_char_space c : is_space (lower_char c) = is_space c.
Proof. each_char c. Qed.

Lemma lower_char_blank c : (lower_char c =? " ")%char = (c =? " ")%char.
Proof. each_char c. Qed.

Lemma lower_char_underscore c : no_underscore (lower_char c) = no_underscore c.
Proof. each_char c. Qed.

Lemma lower_char_fixed c : no_capital c = true -> lower_char c = c.
Proof. each_char c. Qed.

Lemma lower_upper_char c : no_capital c = true -> lower_char (upper_char c) = c.
Proof. each_char c. Qed.

Lemma upper_char_space c : is_space (upper_char c) = is_space c.
Proof. each_char c. Qed.

Lemma upper_char_underscore c : no_underscore (upper_char c) = no_underscore c.
Proof. each_char c. Qed.

Lemma upper_char_cases c :
  no_capital c = true -> is_upper (upper_char c) = true \/ upper_char c = c.
Proof. each_char c; intros _; (by left) || (by right). Qed.

Lemma space_no_capital c : is_space c = true -> is_upper c = false.
Proof. each_char c. Qed.

Lemma blank_is_space c : (c =? " ")%char = true -> c = " "%char.
Proof. apply Ascii.eqb_eq. Qed.

Lemma underscore_swap c :
  no_underscore (if (c =? "_")%char then " "%char else c) = true.
Proof. each_char c. Qed.

Lemma underscore_swap_fixed c :
  no_underscore c = true -> (if (c =? "_")%char then " "%char else c) = c.
Proof. each_char c. Qed.

End Characters.

Section Humanizer.

Lemma all_chars_map p f s :
  (forall c, p (f c) = true) -> all_chars p (map_chars f s) = true.
Proof. intros Hf. induction s as [|c t IH]; simpl; [done | by rewrite Hf, IH]. Qed.

Lemma all_chars_map_keep p f s :
  (forall c, p (f c) = p c) -> all_chars p (map_chars f s) = all_chars p s.
Proof. intros Hf. induction s as [|c t IH]; simpl; [done | by rewrite Hf, IH]. Qed.

Lemma map_chars_fixed p f s :
  (forall c, p c = true -> f c = c) -> all_chars p s = true -> map_chars f s = s.
Proof.
  intros Hf. induction s as [|c t IH]; simpl; [done |].
  intros [Hc Ht]%andb_true_iff. by rewrite Hf, IH.
Qed.

Lemma all_chars_collapse p s :
  p " "%char = true -> all_chars p s = true -> all_chars p (collapse_spaces s) = true.
Proof.
  intros Hp. induction s as [|c t IH]; simpl; [done |].
  intros [Hc Ht]%andb_true_iff.
  destruct (is_space c); [destruct (starts_with_space t) |]; simpl;
    rewrite ?Hp, ?Hc; auto.
Qed.

Lemma all_chars_trim_start p s :
  all_chars p s = true -> all_chars p (trim_start s) = true.
Proof.
  induction s as [|c t IH]; simpl; [done |].
  intros [Hc Ht]%andb_true_iff.
  destruct (is_space c); simpl; [auto | by rewrite Hc, Ht].
Qed.

Lemma all_chars_trim_end p s :
  all_chars p s = true -> all_chars p (trim_end s) = true.
Proof.
  induction s as [|c t IH]; simpl; [done |].
  intros [Hc Ht]%andb_true_iff. specialize (IH Ht).
  destruct (trim_end t) as [|d r]; [destruct (is_space c) |];
    simpl in *; rewrite ?Hc; auto.
Qed.

Lemma space_before_capitals_fixed s :
  all_chars no_capital s = true -> space_before_capitals s = s.
Proof.
  induction s as [|c t IH]; simpl; [done |].
  unfold no_capital at 1. intros [Hc Ht]%andb_true_iff.
  apply negb_true_iff in Hc. by rewrite Hc, IH.
Qed.

Lemma collapse_start s :
  starts_with_space (collapse_spaces s) = starts_with_space s.
Proof.
  induction s as [|c t IH]; simpl; [done |].
  destruct (is_space c) eqn:Hc; simpl; [| done].
  destruct (starts_with_space t) eqn:Ht; simpl; [by rewrite IH | done].
Qed.

Lemma collapse_blanks s : blanks_single (collapse_spaces s) = true.
Proof.
  induction s as [|c t IH]; simpl; [done |].
  destruct (is_space c) eqn:Hc; simpl.
  - destruct (starts_with_space t) eqn:Ht; [done |].
    simpl. by rewrite collapse_start, Ht, IH.
  - by rewrite Hc, IH.
Qed.

Lemma collapse_fixed s : blanks_single s = true -> collapse_spaces s = s.
Proof.
  induction s as [|c t IH]; simpl; [done |].
  intros [Hc Ht]%andb_true_iff. rewrite (IH Ht).
  destruct (is_space c); [| done].
  apply andb_true_iff in Hc as [Hb Hn].
  apply negb_true_iff in Hn. rewrite Hn.
  by rewrite (blank_is_space _ Hb).
Qed.

Lemma trim_start_blanks s :
  blanks_single s = true -> blanks_single (trim_start s) = true.
Proof.
  induction s as [|c t IH]; simpl; [done |].
  intros H. pose proof H as [Hc Ht]%andb_true_iff.
  destruct (is_space c) eqn:Hsp; [auto |].
  simpl. by rewrite Hsp.
Qed.

Lemma trim_start_start s : starts_with_space (trim_start s) = false.
Proof.
  induction s as [|c t IH]; simpl; [done |].
  destruct (is_space c) eqn:Hc; [done | by simpl].
Qed.

Lemma trim_start_fixed s : starts_with_space s = false -> trim_start s = s.
Proof. destruct s as [|c t]; simpl; [done | by intros ->]. Qed.

Lemma trim_end_start s :
  starts_with_space (trim_end s) = true -> starts_with_space s = true.
Proof.
  destruct s as [|c t]; simpl; [done |].
  destruct (trim_end t); [destruct (is_space c) eqn:Hc |]; simpl; congruence.
Qed.

Lemma trim_end_blanks s :
  blanks_single s = true -> blanks_single (trim_end s) = true.
Proof.
  induction s as [|c t IH]; simpl; [done |].
  intros [Hc Ht]%andb_true_iff. specialize (IH Ht).
  pose proof (trim_end_start t) as Hs.
  destruct (trim_end t) as [|d r] eqn:Hr.
  - destruct (is_space c) eqn:Hsp; simpl; [done | by rewrite Hsp].
  - change (blanks_single (String c (String d r))) with
      ((if is_space c
        then (c =? " ")%char && negb (starts_with_space (String d r))
        else true) && blanks_single (String d r)).
    rewrite IH, andb_true_r.
    destruct (is_space c); [| done].
    apply andb_true_iff in Hc as [Hb Hn]. rewrite Hb. simpl.
    destruct (is_space d) eqn:Hd; [| done].
    simpl in Hs. rewrite Hd in Hs. rewrite (Hs eq_refl) in Hn. done.
Qed.

Lemma trim_end_end s : ends_with_space (trim_end s) = false.
Proof.
  induction s as [|c t IH]; simpl; [done |].
  destruct (trim_end t) as [|d r]; [destruct (is_space c) eqn:Hc; simpl; done |].
  exact IH.
Qed.

Lemma trim_end_fixed s : ends_with_space s = false -> trim_end s = s.
Proof.
  induction s as [|c t IH]; simpl; [done |].
  destruct t as [|d r]; [by intros -> |].
  intros H. by rewrite (IH H).
Qed.

Lemma starts_with_space_map f s :
  (forall c, is_space (f c) = is_space c) ->
  starts_with_space (map_chars f s) = starts_with_space s.
Proof. intros Hf. destruct s; simpl; [done | apply Hf]. Qed.

Lemma ends_with_space_map f s :
  (forall c, is_space (f c) = is_space c) ->
  ends_with_space (map_chars f s) = ends_with_space s.
Proof.
  intros Hf. induction s as [|c t IH]; [done |].
  destruct t as [|d r]; [simpl; apply Hf | exact IH].
Qed.

Lemma toLowerCase_blanks s : blanks_single (toLowerCase s) = blanks_single s.
Proof.
  induction s as [|c t IH]; simpl; [done |].
  unfold toLowerCase in *. rewrite IH, lower_char_space, lower_char_blank.
  by rewrite (starts_with_space_map lower_char t lower_char_space).
Qed.

(** The text [formatKey] builds before it raises the first letter. *)
Lemma humanized_pipeline s :
  humanized
    (toLowerCase (trim (collapse_spaces (underscores_to_spaces (space_before_capitals s))))).
Proof.
  set (u := underscores_to_spaces (space_before_capitals s)).
  assert (Hu : all_chars no_underscore u = true)
    by (apply all_chars_map, underscore_swap).
  split.
  - apply all_chars_map, lower_char_no_capital.
  - unfold toLowerCase. rewrite (all_chars_map_keep _ _ _ lower_char_underscore).
    by apply all_chars_trim_end, all_chars_trim_start, all_chars_collapse.
  - rewrite toLowerCase_blanks.
    apply trim_end_blanks, trim_start_blanks, collapse_blanks.
  - unfold toLowerCase. rewrite (starts_with_space_map _ _ lower_char_space).
    destruct (starts_with_space (trim (collapse_spaces u))) eqn:H; [| done].
    apply trim_end_start in H. by rewrite trim_start_start in H.
  - unfold toLowerCase. rewrite (ends_with_space_map _ _ lower_char_space).
    apply trim_end_end.
Qed.

End Humanizer.

Section HumanizerIdempotent.

(** Running the pipeline of [formatKey] on a humanized text whose first
    character has been raised gives the humanized text back. *)
Lemma pipeline_capitalized c C t :
  humanized (String c t) ->
  lower_char C = c -> is_space C = false -> no_underscore C = true ->
  is_upper C = true \/ C = c ->
  toLowerCase
    (trim (collapse_spaces (underscores_to_spaces (space_before_capitals (String C t)))))
  = String c t.
Proof.
  intros [Hl Hp Hb Hs He] Hlow HspC HunC Hcase.
  simpl in Hl, Hp, Hb, Hs. rewrite Hs in Hb. simpl in Hb.
  apply andb_true_iff in Hl as [Hlc Hlt], Hp as [Hpc Hpt].
  assert (HeC : ends_with_space (String C t) = false).
  { destruct t; [exact HspC | exact He]. }
  assert (HbC : blanks_single (String C t) = true).
  { simpl. by rewrite HspC, Hb. }
  assert (HpC : all_chars no_underscore (String C t) = true).
  { simpl. by rewrite HunC, Hpt. }
  assert (Hlower : toLowerCase (String C t) = String c t).
  { unfold toLowerCase. simpl. rewrite Hlow. f_equal.
    apply (map_chars_fixed no_capital); [apply lower_char_fixed | done]. }
  assert (Hsbc : space_before_capitals (String C t)
                 = if is_upper C then String " " (String C t) else String C t).
  { simpl. by rewrite (space_before_capitals_fixed t Hlt). }
  rewrite Hsbc. unfold underscores_to_spaces.
  destruct (is_upper C) eqn:HupC.
  - rewrite (map_chars_fixed no_underscore); [| apply underscore_swap_fixed | done].
    rewrite collapse_fixed by (simpl; by rewrite HspC, Hb).
    unfold trim. cbn [trim_start is_space]. simpl. rewrite HspC.
    by rewrite (trim_end_fixed _ HeC).
  - rewrite (map_chars_fixed no_underscore); [| apply underscore_swap_fixed | done].
    rewrite (collapse_fixed _ HbC).
    unfold trim. rewrite trim_start_fixed by (simpl; done).
    by rewrite (trim_end_fixed _ HeC).
Qed.

Lemma formatKey_capitalized l :
  humanized l -> formatKey (capitalize_first l) = capitalize_first l.
Proof.
  intros Hh. destruct l as [|c t]; [done |].
  pose proof Hh as [Hl Hp Hb Hs He].
  simpl in Hl, Hp, Hs. apply andb_true_iff in Hl as [Hlc _], Hp as [Hpc _].
  unfold capitalize_first. destruct (is_word c) eqn:Hw.
  - unfold formatKey. cbn [String.eqb].
    rewrite (pipeline_capitalized c (upper_char c) t); auto.
    + unfold capitalize_first. by rewrite Hw.
    + by apply lower_upper_char.
    + by rewrite upper_char_space.
    + by rewrite upper_char_underscore.
    + by apply upper_char_cases.
  - unfold formatKey. cbn [String.eqb].
    rewrite (pipeline_capitalized c c t); auto.
    + unfold capitalize_first. by rewrite Hw.
    + by apply lower_char_fixed.
Qed.

End HumanizerIdempotent.

(** C6, first half as claimed, second half as the code computes it: the
    generic humanizer is idempotent, and on ["SOFT_Exception"] it puts a
    blank before every capital letter before folding the case, which
    gives ["S o f t exception"]. *)
Theorem formatKey_idempotent :
  (forall key, formatKey (formatKey key) = formatKey key)
  /\ formatKey "SOFT_Exception" = "S o f t exception".
Proof.
  split; [| reflexivity].
  intros key. unfold formatKey at 2 3.
  destruct (String.eqb key ""); [reflexivity |].
  apply formatKey_capitalized, humanized_pipeline.
Qed.

(** C6 as stated fails: the humanizer does not give ["Soft exception"]. *)
Lemma formatKey_soft_exception :
  formatKey "SOFT_Exception" <> "Soft exception".
Proof. discriminate. Qed.

(** ** The record builder *)

Section RecordBuilder.

Context (tb : tables) (taskMap : gmap string taskInfo).

Lemma fold_from_push {A} (f : nat -> A -> row) i acc xs :
  fold_from (fun rows idx x => push rows (f idx x)) i acc xs
  = acc ++ imap (fun k => f (i + k)%nat) xs.
Proof.
  revert i acc. induction xs as [|x xs IH]; intros i acc; simpl.
  - by rewrite app_nil_r.
  - rewrite IH. unfold push. rewrite <- app_assoc. simpl.
    rewrite Nat.add_0_r. do 2 f_equal.
    apply imap_ext. intros k y _. simpl. f_equal. lia.
Qed.

Lemma fold_indexed_push {A} (f : nat -> A -> row) acc xs :
  fold_indexed (fun rows idx x => push rows (f idx x)) acc xs = acc ++ imap f xs.
Proof. unfold fold_indexed. by rewrite fold_from_push. Qed.

(** Rows with a flag raised at the last index: all but the last are
    built with the flag down. *)
Lemma imap_last_flag {A} (f : A -> bool -> row) init x :
  imap (fun idx y => f y (Z.of_nat idx =? Z.of_nat (length (init ++ [x])) - 1)%Z)
    (init ++ [x])
  = map (fun y => f y false) init ++ [f x true].
Proof.
  rewrite imap_app, length_app. simpl. f_equal.
  - rewrite <- (imap_const (fun y => f y false)).
    apply imap_ext. intros i y Hi. simpl.
    apply lookup_lt_Some in Hi.
    replace (Z.of_nat i =? Z.of_nat (length init + 1) - 1)%Z with false; [done |].
    symmetry. apply Z.eqb_neq. lia.
  - replace (Z.of_nat (length init + 0) =? Z.of_nat (length init + 1) - 1)%Z with true;
      [done |].
    symmetry. apply Z.eqb_eq. lia.
Qed.

Lemma push_task_rows_app wf st tk rows :
  push_task_rows wf tb taskMap st tk rows = rows ++ task_rows wf tb taskMap st tk.
Proof. unfold task_rows, push_task_rows. by rewrite !fold_indexed_push. Qed.

Lemma push_cjf_rows_app wf rows :
  push_cjf_rows wf tb taskMap rows = rows ++ cjf_rows wf tb taskMap.
Proof. unfold cjf_rows, push_cjf_rows. by rewrite !fold_indexed_push. Qed.

Lemma task_rows_split wf st tk init p :
  t_parameterRequests tk = Some (init ++ [p]) ->
  task_rows wf tb taskMap st tk
  = map (fun q => makeRow tb taskMap (s_name st) (t_name tk) q
                    (buildAutomationText wf tb tk) (Some tk) false) init
    ++ [makeRow tb taskMap (s_name st) (t_name tk) p
          (buildAutomationText wf tb tk) (Some tk) true].
Proof.
  intros Hp. unfold task_rows, push_task_rows.
  rewrite fold_indexed_push, Hp. simpl.
  apply (imap_last_flag
           (fun q flag => makeRow tb taskMap (s_name st) (t_name tk) q
                            (buildAutomationText wf tb tk) (Some tk) flag)).
Qed.

Lemma cjf_rows_split wf init p :
  wf_parameterRequests wf = Some (init ++ [p]) ->
  cjf_rows wf tb taskMap
  = map (fun q => makeRow tb taskMap (JStr "Create Job Form") (p_label q) q "" None false)
      init
    ++ [makeRow tb taskMap (JStr "Create Job Form") (p_label p) p "" None true].
Proof.
  intros Hp. unfold cjf_rows, push_cjf_rows.
  rewrite fold_indexed_push, Hp. simpl.
  apply (imap_last_flag
           (fun q flag => makeRow tb taskMap (JStr "Create Job Form") (p_label q) q ""
                            None flag)).
Qed.

Lemma or_text_empty text : or_text text "" = text.
Proof. by destruct text. Qed.

(** With the flag down, or without a task object, [makeRow] writes the
    placeholders. *)
Lemma makeRow_flag_down stage task param automationText taskObj :
  task_level_placeholder
    (makeRow tb taskMap stage task param automationText taskObj false) = true.
Proof. reflexivity. Qed.

Lemma makeRow_no_task stage task param isLastParam :
  task_level_placeholder (makeRow tb taskMap stage task param "" None isLastParam) = true.
Proof. by destruct isLastParam. Qed.

Lemma task_level_placeholder_columns r :
  task_level_placeholder r = true ->
  row_get r "Dependencies" = JStr "N/A"
  /\ row_get r "Executor Lock" = JStr "N/A"
  /\ row_get r "Automation Details" = JStr "".
Proof.
  unfold task_level_placeholder, strict_eq.
  intros [[H1 H2]%andb_true_iff H3]%andb_true_iff.
  by apply bool_decide_eq_true in H1, H2, H3.
Qed.

End RecordBuilder.

Section TaskLevelColumns.

Context (wf : workflow) (tb : tables) (taskMap : gmap string taskInfo).

Lemma filter_placeholders (rows : list row) :
  Forall (fun r => task_level_placeholder r = true) rows ->
  List.filter (fun r => negb (task_level_placeholder r)) rows = [].
Proof.
  induction 1 as [|r rows Hr _ IH]; simpl; [done |]. by rewrite Hr.
Qed.

Lemma earlier_rows_placeholders stage task automationText taskObj
    (init : list parameterRequest) :
  Forall (fun r => task_level_placeholder r = true)
    (map (fun q => makeRow tb taskMap stage task q automationText taskObj false) init).
Proof. apply List.Forall_map, Forall_true. intros q. reflexivity. Qed.

End TaskLevelColumns.

(** C1, with its last clause as the code has it: a task with N >= 1
    parameters yields N records; each record before the last carries
    ["N/A"] in Dependencies and Executor Lock and the empty text in
    Automation Details; the last record carries the task's dependencies,
    executor-lock and automation texts, whatever they are; so at most one
    record departs from the placeholders. *)
Theorem task_level_columns_on_last_record
    (wf : workflow) (tb : tables) (taskMap : gmap string taskInfo)
    (st : stageRequest) (tk : taskRequest) (params : list parameterRequest) :
  t_parameterRequests tk = Some params ->
  (1 <= length params)%nat ->
  let rows := task_rows wf tb taskMap st tk in
  length rows = length params
  /\ (forall i r, (i < length params - 1)%nat -> rows !! i = Some r ->
        row_get r "Dependencies" = JStr "N/A"
        /\ row_get r "Executor Lock" = JStr "N/A"
        /\ row_get r "Automation Details" = JStr "")
  /\ (exists r, rows !! (length params - 1)%nat = Some r
        /\ row_get r "Dependencies" = JStr (getDependenciesText taskMap tk)
        /\ row_get r "Executor Lock" = JStr (getExecutorLockText taskMap tk)
        /\ row_get r "Automation Details" = JStr (buildAutomationText wf tb tk))
  /\ (length (List.filter (fun r => negb (task_level_placeholder r)) rows) <= 1)%nat.
Proof.
  intros Hp Hlen rows. subst rows.
  destruct params as [|p init _] using rev_ind; [simpl in Hlen; lia |].
  rewrite (task_rows_split tb taskMap wf st tk init p Hp).
  pose proof (earlier_rows_placeholders tb taskMap (s_name st) (t_name tk)
                (buildAutomationText wf tb tk) (Some tk) init) as Hearlier.
  rewrite !length_app, length_map. simpl.
  replace (length init + 1 - 1)%nat with (length init) by lia.
  split; [done |]. split; [| split].
  - intros i r Hi Hr.
    rewrite lookup_app_l in Hr by (by rewrite length_map).
    apply task_level_placeholder_columns.
    exact (proj1 (Forall_lookup _ _) Hearlier i r Hr).
  - eexists. split.
    + rewrite lookup_app_r by (by rewrite length_map).
      rewrite length_map, Nat.sub_diag. reflexivity.
    + repeat split. cbn. by rewrite or_text_empty.
  - rewrite List.filter_app, length_app, (filter_placeholders _ Hearlier). simpl.
    destruct (negb _); simpl; lia.
Qed.

(** A task of two parameters with a prerequisite, for C1. *)
Lemma task_level_columns_on_last_record_witness :
  let rows :=
    task_rows Samples.two_task_workflow (buildTables Samples.two_task_workflow)
      (buildTaskMap Samples.two_task_workflow) Samples.two_task_stage Samples.second_task in
  length rows = 2%nat
  /\ (exists r, rows !! 1%nat = Some r
        /\ row_get r "Dependencies"
           = JStr (getDependenciesText (buildTaskMap Samples.two_task_workflow)
                     Samples.second_task)).
Proof.
  destruct (task_level_columns_on_last_record
              Samples.two_task_workflow (buildTables Samples.two_task_workflow)
              (buildTaskMap Samples.two_task_workflow) Samples.two_task_stage
              Samples.second_task _ eq_refl) as (Hlen & _ & (r & Hr & Hd & _) & _).
  - simpl. lia.
  - split; [exact Hlen |]. exists r. split; [exact Hr | exact Hd].
Defined.

(** C1 as stated fails: the one record of a task without prerequisites,
    executor lock and automation carries the placeholders, so none of
    the task's records departs from them. *)
Lemma bare_task_only_placeholders :
  let rows :=
    task_rows Samples.bare_workflow (buildTables Samples.bare_workflow)
      (buildTaskMap Samples.bare_workflow) Samples.bare_stage Samples.bare_task in
  length (items (t_parameterRequests Samples.bare_task)) = 1%nat
  /\ length rows = 1%nat
  /\ length (List.filter (fun r => negb (task_level_placeholder r)) rows) = 0%nat.
Proof. vm_compute. done. Qed.

(** C10: the record of every top-level parameter has Stage Name
    ["Create Job Form"], its own label as Activity Name, ["N/A"] in
    Dependencies and Executor Lock and the empty text in Automation
    Details, the last one included. *)
Theorem creation_form_records
    (wf : workflow) (tb : tables) (taskMap : gmap string taskInfo)
    (i : nat) (p : parameterRequest) :
  items (wf_parameterRequests wf) !! i = Some p ->
  exists r, cjf_rows wf tb taskMap !! i = Some r
    /\ row_get r "Stage Name" = JStr "Create Job Form"
    /\ row_get r "Activity Name" = p_label p
    /\ row_get r "Dependencies" = JStr "N/A"
    /\ row_get r "Executor Lock" = JStr "N/A"
    /\ row_get r "Automation Details" = JStr "".
Proof.
  intros Hp. unfold cjf_rows, push_cjf_rows.
  rewrite fold_indexed_push. simpl.
  rewrite list_lookup_imap, Hp. simpl.
  eexists. split; [reflexivity |].
  split; [reflexivity |]. split; [reflexivity |].
  apply task_level_placeholder_columns, makeRow_no_task.
Qed.

(** The one top-level parameter of a sample definition, which is also the
    last one. *)
Lemma creation_form_records_witness :
  exists r,
    cjf_rows Samples.two_task_workflow (buildTables Samples.two_task_workflow)
      (buildTaskMap Samples.two_task_workflow) !! 0%nat = Some r
    /\ row_get r "Stage Name" = JStr "Create Job Form"
    /\ row_get r "Activity Name" = JStr "Product"
    /\ row_get r "Dependencies" = JStr "N/A"
    /\ row_get r "Executor Lock" = JStr "N/A"
    /\ row_get r "Automation Details" = JStr "".
Proof.
  exact (creation_form_records Samples.two_task_workflow
           (buildTables Samples.two_task_workflow)
           (buildTaskMap Samples.two_task_workflow) 0
           (Samples.text_parameter "p0" "Product") eq_refl).
Defined.

(** ** Texts that are not the placeholder *)

Section Placeholders.

Lemma starts_with_append c t s : starts_with c (String c t +:+ s).
Proof. by exists (t +:+ s). Qed.

Lemma join_starts_with sep c x rest :
  starts_with c x -> starts_with c (join sep (x :: rest)).
Proof.
  intros [t ->]. unfold join. destruct rest as [|y rest]; simpl; [by exists t |].
  by eexists.
Qed.

Lemma starts_with_not c s other :
  starts_with c s -> String.prefix (String c "") other = false -> s <> other.
Proof.
  intros [t ->] Hother <-. simpl in Hother.
  destruct (Ascii.ascii_dec c c); [by destruct t | done].
Qed.

Lemma starts_with_nonempty c s : starts_with c s -> nonempty s = true.
Proof. by intros [t ->]. Qed.

Lemma or_text_starts_with c s fallback :
  starts_with c s -> or_text s fallback = s.
Proof. by intros [t ->]. Qed.

End Placeholders.

Section FiltersAndValidations.

Context (tb : tables).

Lemma headed_append c t s : c <> "N"%char -> headed (String c t +:+ s).
Proof. done. Qed.

Lemma headed_join sep x rest : headed x -> headed (join sep (x :: rest)).
Proof. destruct x as [|c t]; [done |]. intros Hc. by destruct rest. Qed.

Lemma headed_or_text s : headed s -> or_text s "N/A" = s /\ s <> "N/A".
Proof.
  destruct s as [|c t]; [done |]. simpl. intros Hc. split; [done |].
  intros [= -> _]. done.
Qed.

Lemma Forall_imap {A C} (P : C -> Prop) (f : nat -> A -> C) (l : list A) :
  (forall idx x, P (f idx x)) -> Forall P (imap f l).
Proof.
  intros Hf. apply Forall_lookup. intros i y Hy.
  rewrite list_lookup_imap in Hy.
  destruct (l !! i) as [x |]; simpl in Hy; [| done].
  injection Hy as <-. apply Hf.
Qed.

Lemma processValidationArray_headed exceptionType validationArray typeName :
  headed typeName ->
  Forall headed (processValidationArray tb exceptionType validationArray typeName).
Proof.
  intros Hname. apply Forall_imap. intros idx v.
  unfold validation_parts. cbn [app]. apply headed_join.
  destruct typeName as [|c t]; [done |]. exact Hname.
Qed.

Lemma processValidationArray_nil exceptionType validationArray typeName :
  processValidationArray tb exceptionType validationArray typeName = []
  <-> items validationArray = [].
Proof.
  unfold processValidationArray. destruct (items validationArray); simpl; split; done.
Qed.

Lemma validation_blocks_headed v : Forall headed (validation_blocks tb v).
Proof.
  unfold validation_blocks.
  repeat (apply Forall_app; split; [by apply processValidationArray_headed |]).
  unfold custom_block.
  destruct (v_customValidations v) as [j |]; [| constructor].
  destruct (json_truthy j); [| constructor].
  constructor; [| constructor]. by apply headed_join.
Qed.

Lemma validation_blocks_silent v :
  validation_blocks tb v = [] <-> silent_group v = true.
Proof.
  unfold validation_blocks, silent_group, processValidationArray, custom_block.
  destruct (items (v_dateTimeParameterValidations v)); [| by split].
  destruct (items (v_criteriaValidations v)); [| by split].
  destruct (items (v_propertyValidations v)); [| by split].
  destruct (items (v_resourceParameterValidations v)); [| by split].
  destruct (items (v_relationPropertyValidations v)); [| by split].
  simpl. destruct (v_customValidations v) as [j |]; [| done].
  by destruct (json_truthy j).
Qed.

Lemma all_blocks_silent (vs : list validation) :
  concat (map (validation_blocks tb) vs) = [] <-> forallb silent_group vs = true.
Proof.
  induction vs as [|v vs IH]; simpl; [done |].
  rewrite andb_true_iff, <- IH, <- validation_blocks_silent.
  split.
  - by intros [? ?]%app_eq_nil.
  - by intros [-> ->].
Qed.

(** The text of the validations: empty without a block, else headed by
    the title of its first block. *)
Lemma getValidationsText_cases (param : parameterRequest) :
  if has_validation param then headed (getValidationsText tb param)
  else getValidationsText tb param = "".
Proof.
  unfold has_validation, getValidationsText.
  destruct (p_validations param) as [[|v vs] |]; simpl; try done.
  pose proof (all_blocks_silent (v :: vs)) as Hsilent. simpl in Hsilent.
  assert (Hheaded : Forall headed (validation_blocks tb v ++ concat (map (validation_blocks tb) vs))).
  { apply Forall_app. split; [apply validation_blocks_headed |].
    clear. induction vs as [|w vs IH]; simpl; [constructor |].
    apply Forall_app. split; [apply validation_blocks_headed | exact IH]. }
  destruct (validation_blocks tb v ++ concat (map (validation_blocks tb) vs))
    as [|x rest] eqn:Hblocks.
  - rewrite (proj1 Hsilent eq_refl). done.
  - destruct (silent_group v && forallb silent_group vs) eqn:Hall.
    + by pose proof (proj2 Hsilent eq_refl).
    + simpl. apply headed_join. by inversion Hheaded.
Qed.

Lemma getFiltersText_cases (param : parameterRequest) :
  match items (param_filter_fields param) with
  | [] => getFiltersText tb param = ""
  | _ => headed (getFiltersText tb param)
  end.
Proof.
  unfold getFiltersText, param_filter_fields.
  destruct (param_propertyFilters param) as [[[|f fs] |] |]; simpl; try done.
  by apply headed_join.
Qed.

End FiltersAndValidations.

(** ** The columns of a record *)

Section Columns.











End Columns.





(** A parameter without a label: the Instruction Title is left undefined
    and the description names ["undefined"], while the cells next to it
    fall back to ["N/A"]. *)
Example missing_label_undefined_column :
  p_label Samples.unlabeled_parameter = JUndef
  /\ let r := makeRow empty_tables ∅ (JStr "Dispensing") (JStr "Weigh")
                Samples.unlabeled_parameter "" None true in
     row_get r "Instruction Title" = JUndef
     /\ row_get r "Activity Description in detail"
        = JStr "Performer provides input for undefined.".
Proof. repeat split. Qed.

(** What [makeRow] writes in the two verification columns. *)
Lemma verification_columns
    (tb : tables) (taskMap : gmap string taskInfo) (stage task : jsval)
    (param : parameterRequest) (automationText : string)
    (taskObj : option taskRequest) (isLastParam : bool) :
  let r := makeRow tb taskMap stage task param automationText taskObj isLastParam in
  row_get r "IS SELF VERIFICATION PRESENT?"
    = enabled (has_verification param "SELF" || has_verification param "BOTH")
  /\ row_get r "IS PEER VERIFICATION PRESENT?" = enabled (has_verification param "BOTH").
Proof. split; reflexivity. Qed.

(** C7, where the code departs from it: a parameter tagged ["PEER"] gets
    ["Disabled"] in the peer-verification column, since that column only
    tests for ["BOTH"]. *)
Theorem peer_tag_shows_disabled
    (tb : tables) (taskMap : gmap string taskInfo) (stage task : jsval)
    (param : parameterRequest) (automationText : string)
    (taskObj : option taskRequest) (isLastParam : bool) :
  p_verificationType param = Some "PEER" ->
  row_get (makeRow tb taskMap stage task param automationText taskObj isLastParam)
    "IS PEER VERIFICATION PRESENT?" = JStr "Disabled".
Proof.
  intros Htag.
  rewrite (proj2 (verification_columns tb taskMap stage task param automationText
                    taskObj isLastParam)).
  unfold has_verification. by rewrite Htag.
Qed.

Lemma peer_tag_shows_disabled_witness :
  row_get
    (makeRow empty_tables ∅ (JStr "Dispensing") (JStr "Weigh") Samples.peer_parameter
       "" None true)
    "IS PEER VERIFICATION PRESENT?" = JStr "Disabled".
Proof.
  exact (peer_tag_shows_disabled empty_tables ∅ (JStr "Dispensing") (JStr "Weigh")
           Samples.peer_parameter "" None true eq_refl).
Defined.

(** ** Assembly of a batch *)

Section Assembly.

(** A loop whose body only appends yields the appended chunks after
    what was there. *)
Lemma foldl_appending {A} (f : list row -> A -> list row) (g : A -> list row) :
  (forall acc x, f acc x = acc ++ g x) ->
  forall xs acc, foldl f acc xs = acc ++ concat (map g xs).
Proof.
  intros Hf. induction xs as [|x xs IH]; intros acc; simpl.
  - by rewrite app_nil_r.
  - by rewrite IH, Hf, <- app_assoc.
Qed.

(** The rows of one definition: those of its tasks, stage by stage,
    then those of the creation form. *)
Lemma processWorkflow_rows wf rows :
  processWorkflow wf rows
  = rows
    ++ concat
         (map
            (fun st =>
               concat
                 (map (task_rows wf (buildTables wf) (buildTaskMap wf) st)
                    (items (s_taskRequests st))))
            (items (wf_stageRequests wf)))
    ++ cjf_rows wf (buildTables wf) (buildTaskMap wf).
Proof.
  unfold processWorkflow. rewrite push_cjf_rows_app, app_assoc. f_equal.
  apply foldl_appending. intros acc st.
  apply foldl_appending. intros acc' tk.
  apply push_task_rows_app.
Qed.

Lemma processWorkflow_app wf rows :
  processWorkflow wf rows = rows ++ processWorkflow wf [].
Proof. by rewrite (processWorkflow_rows wf rows), (processWorkflow_rows wf []). Qed.

Lemma filter_filter_same {A} (f : A -> bool) l :
  List.filter f (List.filter f l) = List.filter f l.
Proof.
  induction l as [|x l IH]; simpl; [done |].
  destruct (f x) eqn:Hx; simpl; [by rewrite Hx, IH | done].
Qed.

Lemma filter_filter_other {A} (f : A -> bool) l :
  List.filter f (List.filter (fun x => negb (f x)) l) = [].
Proof.
  induction l as [|x l IH]; simpl; [done |].
  destruct (f x) eqn:Hx; simpl; [done | by rewrite Hx].
Qed.

Lemma filter_split_permutation {A} (f : A -> bool) l :
  Permutation (List.filter f l ++ List.filter (fun x => negb (f x)) l) l.
Proof.
  induction l as [|x l IH]; simpl; [done |].
  destruct (f x); simpl.
  - by apply perm_skip.
  - symmetry. apply Permutation_cons_app. by symmetry.
Qed.

Lemma is_cjf_true r :
  is_cjf r = true <-> row_get r "Stage Name" = JStr "Create Job Form".
Proof. unfold is_cjf, strict_eq. apply bool_decide_eq_true. Qed.

Lemma is_cjf_false r :
  is_cjf r = false <-> row_get r "Stage Name" <> JStr "Create Job Form".
Proof. unfold is_cjf, strict_eq. apply bool_decide_eq_false. Qed.

End Assembly.

(** C9: the record list of a batch, before the partition, is the
    concatenation in batch order of the lists each definition yields when
    processed alone; every [processWorkflow] call builds its tables from
    its own definition only. *)
Theorem batch_is_concatenation (jsonObjects : list workflow) :
  csvRows jsonObjects = concat (map (fun wf => processWorkflow wf []) jsonObjects).
Proof.
  unfold csvRows.
  rewrite (foldl_appending (fun rows wf => processWorkflow wf rows)
             (fun wf => processWorkflow wf [])); [done |].
  intros acc wf. apply processWorkflow_app.
Qed.

(** C3: the assembled list is a stable partition of the concatenated
    list: it splits into a front of records whose Stage Name is
    ["Create Job Form"] and a back of records whose Stage Name differs;
    the records of each kind are those of the concatenated list in the
    same order; nothing is lost or repeated. *)
Theorem sortedRows_stable_partition (jsonObjects : list workflow) :
  let rows := csvRows jsonObjects in
  let out := sortedRows jsonObjects in
  (exists front back,
      out = front ++ back
      /\ Forall (fun r => row_get r "Stage Name" = JStr "Create Job Form") front
      /\ Forall (fun r => row_get r "Stage Name" <> JStr "Create Job Form") back)
  /\ List.filter is_cjf out = List.filter is_cjf rows
  /\ List.filter (fun r => negb (is_cjf r)) out
     = List.filter (fun r => negb (is_cjf r)) rows
  /\ Permutation out rows.
Proof.
  intros rows out. subst out. unfold sortedRows. fold rows.
  split; [| split; [| split]].
  - exists (List.filter is_cjf rows), (List.filter (fun r => negb (is_cjf r)) rows).
    split; [done |]. split; apply List.Forall_forall; intros r [_ Hr]%List.filter_In.
    + by apply is_cjf_true.
    + apply is_cjf_false. by apply negb_true_iff.
  - by rewrite List.filter_app, filter_filter_same, filter_filter_other, app_nil_r.
  - rewrite List.filter_app.
    rewrite (filter_filter_same (fun r => negb (is_cjf r))).
    replace (List.filter (fun r => negb (is_cjf r)) (List.filter is_cjf rows))
      with (@nil row); [done |].
    symmetry. clear. induction rows as [|r rows IH]; simpl; [done |].
    destruct (is_cjf r) eqn:Hr; simpl; [by rewrite Hr |done].
  - apply filter_split_permutation.
Qed.

(** ** Unresolved identifiers in the synthesizers *)

Section Unresolved.

Context (tb : tables).

Lemma get_absent (m : gmap string jsval) (id : string) :
  m !! id = None -> get m (JStr id) = JUndef.
Proof. unfold get. simpl. by intros ->. Qed.

Lemma resolve_unresolved v :
  unresolved_value tb v -> resolve_filter_value tb v = JNull.
Proof.
  intros (id & -> & Hhex & Hopt & Hprop). unfold resolve_filter_value.
  by rewrite Hhex, (get_absent _ _ Hopt), (get_absent _ _ Hprop).
Qed.

Lemma resolved_filter_values_app l1 l2 :
  resolved_filter_values tb (l1 ++ l2)
  = resolved_filter_values tb l1 ++ resolved_filter_values tb l2.
Proof. unfold resolved_filter_values. by rewrite map_app, List.filter_app. Qed.

Lemma resolved_filter_values_drop before v after :
  unresolved_value tb v ->
  resolved_filter_values tb (before ++ v :: after)
  = resolved_filter_values tb (before ++ after).
Proof.
  intros Hv. rewrite !resolved_filter_values_app. f_equal.
  unfold resolved_filter_values. simpl. by rewrite (resolve_unresolved v Hv).
Qed.

Lemma resolved_filter_values_none vals :
  Forall (unresolved_value tb) vals -> resolved_filter_values tb vals = [].
Proof.
  induction 1 as [|v vals Hv _ IH]; [done |].
  unfold resolved_filter_values in *. simpl.
  by rewrite (resolve_unresolved v Hv).
Qed.

Lemma filter_values_lines_constant f vals :
  ff_selector f = Some "CONSTANT" ->
  filter_values_lines tb (with_values f vals)
  = match resolved_filter_values tb vals with
    | [] => []
    | resolvedValues => ["Values: " +:+ join_values ", " resolvedValues]
    end.
Proof.
  intros Hsel. unfold filter_values_lines, with_values. simpl. rewrite Hsel. simpl.
  destruct vals as [|v vals]; [reflexivity |].
  by destruct (resolved_filter_values tb (v :: vals)).
Qed.

Lemma line_if_not_values c rest :
  Forall not_values_line rest -> forall line,
  not_values_line line -> Forall not_values_line (line_if c line ++ rest).
Proof. intros Hrest line Hline. destruct c; simpl; [by constructor | done]. Qed.

(** Without a values line, no line of a filter block starts with
    ["Values:"]. *)
Lemma filter_parts_no_values f :
  filter_values_lines tb f = [] -> Forall not_values_line (filter_parts tb f).
Proof.
  intros Hnone. unfold filter_parts. rewrite Hnone. simpl.
  repeat (apply line_if_not_values; [| reflexivity]).
  destruct (truthy _); simpl; [by repeat constructor | constructor].
Qed.

End Unresolved.

(** C4: in a filter field whose selector is ["CONSTANT"], a value of 24
    hexadecimal digits that neither the option table nor the
    property-name table knows is left out of the values line, which is
    the line the other values alone would give; when every value is of
    that kind the block has no values line at all. *)
Theorem unresolved_filter_value_dropped
    (tb : tables) (f : filterField) (before after : list jsval) (id : string) :
  ff_selector f = Some "CONSTANT" ->
  unresolved tb id ->
  filter_values_lines tb (with_values f (before ++ JStr id :: after))
  = match resolved_filter_values tb (before ++ after) with
    | [] => []
    | others => ["Values: " +:+ join_values ", " others]
    end
  /\ (Forall (unresolved_value tb) (before ++ after) ->
      Forall not_values_line
        (filter_parts tb (with_values f (before ++ JStr id :: after)))).
Proof.
  intros Hsel Hid.
  assert (Hv : unresolved_value tb (JStr id)) by (by exists id).
  assert (Hlines : filter_values_lines tb (with_values f (before ++ JStr id :: after))
                   = match resolved_filter_values tb (before ++ after) with
                     | [] => []
                     | others => ["Values: " +:+ join_values ", " others]
                     end).
  { rewrite (filter_values_lines_constant tb f _ Hsel).
    by rewrite (resolved_filter_values_drop tb before (JStr id) after Hv). }
  split; [exact Hlines |].
  intros Hall. apply filter_parts_no_values.
  by rewrite Hlines, (resolved_filter_values_none tb _ Hall).
Qed.

(** A filter on the values ["OPEN"] and an unknown identifier: the line
    shows ["OPEN"] alone. *)
Lemma unresolved_filter_value_dropped_witness :
  filter_values_lines empty_tables
    (with_values (Samples.constant_filter []) ([JStr "OPEN"] ++ JStr Samples.unknown_id :: []))
  = ["Values: OPEN"].
Proof.
  exact (proj1 (unresolved_filter_value_dropped empty_tables (Samples.constant_filter [])
                  [JStr "OPEN"] [] Samples.unknown_id eq_refl
                  (conj eq_refl (conj eq_refl eq_refl)))).
Defined.

(** ** Numbers and their decimal notation *)

Section Rounding.

Local Open Scope Z_scope.

Lemma nearest_even_one n : nearest_even n 1 = n.
Proof.
  unfold nearest_even. rewrite Z.mod_1_r, Z.div_1_r. simpl. reflexivity.
Qed.

(** A positive integer below 2^53 is a double. *)
Lemma round_positive_exact z :
  0 < z < 2 ^ 53 ->
  round_positive z 1 = Finite (z * 2 ^ (52 - Z.log2 z)) (Z.log2 z - 52).
Proof.
  intros [Hpos Hlt].
  pose proof (Z.log2_spec z Hpos) as [Hlow Hhigh].
  pose proof (Z.log2_nonneg z) as Hnonneg.
  assert (Hlog : Z.log2 z <= 52).
  { apply Z.lt_succ_r. apply (Z.pow_lt_mono_r_iff 2); lia. }
  unfold round_positive, floor_log2. change (Z.log2 1) with 0.
  rewrite Z.sub_0_r.
  assert (H1 : (0 <=? Z.log2 z) = true) by (apply Z.leb_le; lia). rewrite H1.
  assert (H2 : (1 * 2 ^ Z.log2 z <=? z) = true) by (apply Z.leb_le; lia). rewrite H2.
  rewrite Z.max_l by lia.
  assert (Hm : 2 ^ 52 <= z * 2 ^ (52 - Z.log2 z) < 2 ^ 53).
  { replace (2 ^ 52) with (2 ^ Z.log2 z * 2 ^ (52 - Z.log2 z))
      by (rewrite <- Z.pow_add_r by lia; f_equal; lia).
    replace (2 ^ 53) with (2 ^ Z.succ (Z.log2 z) * 2 ^ (52 - Z.log2 z))
      by (rewrite <- Z.pow_add_r by lia; f_equal; lia).
    assert (0 < 2 ^ (52 - Z.log2 z)) by (apply Z.pow_pos_nonneg; lia).
    split; nia. }
  unfold scaled2.
  destruct (0 <=? Z.log2 z - 52) eqn:He.
  - apply Z.leb_le in He. assert (Heq : Z.log2 z = 52) by lia.
    rewrite Heq in *. simpl (52 - 52) in *. change (2 ^ 0) with 1 in *.
    change (1 * 2 ^ (52 - 52)) with 1. rewrite nearest_even_one.
    rewrite Z.mul_1_r in *.
    assert (H3 : (z =? 2 ^ 53) = false) by (apply Z.eqb_neq; lia). rewrite H3.
    assert (H4 : (971 <? 52 - 52) = false) by reflexivity. rewrite H4.
    assert (H5 : (z =? 0) = false) by (apply Z.eqb_neq; lia). rewrite H5.
    reflexivity.
  - rewrite nearest_even_one.
    replace (- (Z.log2 z - 52)) with (52 - Z.log2 z) by lia.
    assert (H3 : (z * 2 ^ (52 - Z.log2 z) =? 2 ^ 53) = false) by (apply Z.eqb_neq; lia).
    rewrite H3.
    assert (H4 : (971 <? Z.log2 z - 52) = false) by (apply Z.ltb_ge; lia). rewrite H4.
    assert (H5 : (z * 2 ^ (52 - Z.log2 z) =? 0) = false) by (apply Z.eqb_neq; lia).
    rewrite H5. reflexivity.
Qed.

(** An integer from 2^53 on rounds to a double with a positive
    exponent. *)
Lemma round_positive_big w :
  2 ^ 53 <= w ->
  match round_positive w 1 with
  | Finite m e => m = 0 \/ 1 <= e
  | _ => True
  end.
Proof.
  intros Hbig.
  assert (Hpos : 0 < w) by lia.
  pose proof (Z.log2_spec w Hpos) as [Hlow Hhigh].
  assert (Hlog : 53 <= Z.log2 w) by (apply Z.log2_le_pow2; lia).
  unfold round_positive, floor_log2. change (Z.log2 1) with 0.
  rewrite Z.sub_0_r.
  assert (H1 : (0 <=? Z.log2 w) = true) by (apply Z.leb_le; lia). rewrite H1.
  assert (H2 : (1 * 2 ^ Z.log2 w <=? w) = true) by (apply Z.leb_le; lia). rewrite H2.
  rewrite Z.max_l by lia.
  destruct (scaled2 w 1 (Z.log2 w - 52)) as [n d].
  destruct (nearest_even n d =? 2 ^ 53);
    repeat match goal with |- context [if ?c then _ else _] => destruct c end;
    first [done | by left | right; lia].
Qed.

Lemma number_of_Z_positive z : 0 < z -> number_of_Z z = round_positive z 1.
Proof.
  intros Hz. unfold number_of_Z, round_fraction.
  assert (H1 : (z =? 0) = false) by (apply Z.eqb_neq; lia).
  assert (H2 : (z <? 0) = false) by (apply Z.ltb_ge; lia).
  by rewrite H1, H2.
Qed.

(** Below 2^53 no other positive integer rounds to the same double. *)
Lemma number_of_Z_inj w z :
  0 < w -> 0 < z < 2 ^ 53 -> number_of_Z w = number_of_Z z -> w = z.
Proof.
  intros Hw Hz. rewrite !number_of_Z_positive by lia.
  rewrite (round_positive_exact z Hz).
  pose proof (Z.log2_nonneg z) as Hz0.
  assert (Hzlog : Z.log2 z <= 52).
  { apply Z.lt_succ_r. apply (Z.pow_lt_mono_r_iff 2); [lia | lia |].
    pose proof (Z.log2_spec z (proj1 Hz)). lia. }
  assert (Hzm : 0 < z * 2 ^ (52 - Z.log2 z)).
  { assert (0 < 2 ^ (52 - Z.log2 z)) by (apply Z.pow_pos_nonneg; lia). nia. }
  destruct (Z.lt_ge_cases w (2 ^ 53)) as [Hsmall | Hbig].
  - rewrite (round_positive_exact w (conj Hw Hsmall)).
    intros [= Hm He].
    assert (Hlog : Z.log2 w = Z.log2 z) by lia.
    rewrite Hlog in Hm.
    assert (0 < 2 ^ (52 - Z.log2 z)) by (apply Z.pow_pos_nonneg; lia). nia.
  - pose proof (round_positive_big w Hbig) as Hround.
    intros Heq. rewrite Heq in Hround. lia.
Qed.

End Rounding.

Section Digits.

Local Open Scope Z_scope.

Lemma count_digits_spec fuel z :
  0 < z < 2 ^ (Z.of_nat fuel + 1) ->
  1 <= count_digits fuel z /\ 10 ^ (count_digits fuel z - 1) <= z < 10 ^ count_digits fuel z.
Proof.
  revert z. induction fuel as [|fuel IH]; intros z [Hpos Hlt].
  - simpl in *. change (2 ^ 1) with 2 in Hlt. assert (z = 1) as -> by lia. done.
  - cbn [count_digits]. destruct (z <? 10) eqn:Hten.
    + apply Z.ltb_lt in Hten. change (10 ^ (1 - 1)) with 1. change (10 ^ 1) with 10. lia.
    + apply Z.ltb_ge in Hten.
      assert (Hdiv : 0 < z / 10 < 2 ^ (Z.of_nat fuel + 1)).
      { split; [apply Z.div_str_pos; lia |].
        apply Z.div_lt_upper_bound; [lia |].
        replace (Z.of_nat (S fuel) + 1) with (Z.succ (Z.of_nat fuel + 1)) in Hlt by lia.
        rewrite Z.pow_succ_r in Hlt by lia. lia. }
      destruct (IH (z / 10) Hdiv) as (Hn & Hlow & Hhigh).
      set (n := count_digits fuel (z / 10)) in *.
      replace (1 + n - 1) with (Z.succ (n - 1)) by lia.
      replace (1 + n) with (Z.succ n) by lia.
      rewrite !Z.pow_succ_r by lia.
      pose proof (Z.div_mod z 10 ltac:(lia)) as Hdm.
      pose proof (Z.mod_pos_bound z 10 ltac:(lia)) as Hmod.
      lia.
Qed.

Lemma digit_count_spec z :
  0 < z -> 1 <= digit_count z /\ 10 ^ (digit_count z - 1) <= z < 10 ^ digit_count z.
Proof.
  intros Hpos. apply count_digits_spec. split; [done |].
  rewrite Z2Nat.id by apply Z.log2_nonneg.
  pose proof (Z.log2_spec z Hpos) as [_ Hhigh]. by rewrite Z.add_1_r.
Qed.

Lemma digit_count_safe z : 0 < z < 2 ^ 53 -> digit_count z <= 16.
Proof.
  intros [Hpos Hlt]. destruct (digit_count_spec z Hpos) as (Hn & Hlow & _).
  assert (H : digit_count z - 1 < 16); [| lia].
  apply (Z.pow_lt_mono_r_iff 10); [lia | lia |].
  eapply Z.le_lt_trans; [exact Hlow |]. eapply Z.lt_trans; [exact Hlt |]. reflexivity.
Qed.

End Digits.

Section Shortest.

Local Open Scope Z_scope.

Context (z : Z) (Hz : 0 < z < 2 ^ 53).

Let n := digit_count z.
Let x := number_of_Z z.

Lemma candidate_multiple s k :
  0 <= n - k -> candidate x s n k
  = if decide (number_of_Z (s * 10 ^ (n - k)) = x) then
      Some (if s =? 10 ^ k then (10 ^ (k - 1), k, n + 1) else (s, k, n))
    else None.
Proof.
  intros Hk. unfold candidate, round_decimal, scaled10.
  assert (H : (0 <=? n - k) = true) by (by apply Z.leb_le). by rewrite H.
Qed.

Lemma candidate_valid s k :
  0 <= n - k -> s * 10 ^ (n - k) = z -> s < 10 ^ k -> candidate x s n k = Some (s, k, n).
Proof.
  intros Hk Hs Hlt. rewrite candidate_multiple, Hs by done.
  rewrite decide_True by done.
  assert (H : (s =? 10 ^ k) = false) by (apply Z.eqb_neq; lia). by rewrite H.
Qed.

Lemma candidate_invalid s k :
  0 <= n - k -> 0 < s -> s * 10 ^ (n - k) <> z -> candidate x s n k = None.
Proof.
  intros Hk Hpos Hs. rewrite candidate_multiple by done.
  rewrite decide_False; [done |].
  intros Heq. apply Hs. apply number_of_Z_inj; try done.
  assert (0 < 10 ^ (n - k)) by (apply Z.pow_pos_nonneg; lia). nia.
Qed.

Lemma candidates_at k lo :
  1 <= k <= n -> lo = z / 10 ^ (n - k) ->
  candidate x lo n k
  = (if decide (z mod 10 ^ (n - k) = 0) then Some (lo, k, n) else None)
  /\ candidate x (lo + 1) n k = None.
Proof.
  intros Hk Hlo.
  destruct (digit_count_spec z (proj1 Hz)) as (Hn & Hlow & Hhigh). fold n in Hn, Hlow, Hhigh.
  set (p := 10 ^ (n - k)) in *.
  assert (Hp : 0 < p) by (apply Z.pow_pos_nonneg; lia).
  assert (Hple : p <= 10 ^ (n - 1)) by (apply Z.pow_le_mono_r; lia).
  assert (Hpk : p * 10 ^ k = 10 ^ n).
  { unfold p. rewrite <- Z.pow_add_r by lia. f_equal. lia. }
  pose proof (Z.div_mod z p ltac:(lia)) as Hdm.
  pose proof (Z.mod_pos_bound z p Hp) as Hmod.
  assert (Hlo1 : 1 <= lo).
  { subst lo. apply Z.div_le_lower_bound; lia. }
  assert (Hlok : lo < 10 ^ k).
  { subst lo. apply Z.div_lt_upper_bound; lia. }
  split.
  - destruct (decide (z mod p = 0)) as [Hzero | Hrest].
    + apply candidate_valid; [lia | | done]. fold p. subst lo. lia.
    + apply candidate_invalid; [lia | lia |]. fold p. subst lo. lia.
  - apply candidate_invalid; [lia | lia |]. fold p. subst lo. nia.
Qed.

Lemma digits_at_integer b k :
  0 < b -> 1 <= k <= n ->
  digits_at x (z * b) b n k true
  = if decide (z mod 10 ^ (n - k) = 0) then Some (z / 10 ^ (n - k), k, n) else None.
Proof.
  intros Hb Hk. unfold digits_at.
  assert (Hlo : (let '(num, den) :=
                   if 0 <=? k - n then (z * b * 10 ^ (k - n), b)
                   else (z * b, b * 10 ^ (n - k)) in num / den)
                = z / 10 ^ (n - k)).
  { destruct (0 <=? k - n) eqn:Hkn.
    - apply Z.leb_le in Hkn. assert (k = n) as -> by lia.
      rewrite !Z.sub_diag. change (10 ^ 0) with 1.
      by rewrite Z.mul_1_r, Z.div_1_r, Z.div_mul by lia.
    - rewrite (Z.mul_comm b). apply Z.div_mul_cancel_r; [| lia].
      apply Z.pow_nonzero; lia. }
  destruct (if 0 <=? k - n then (z * b * 10 ^ (k - n), b) else (z * b, b * 10 ^ (n - k)))
    as [num den].
  destruct (candidates_at k (num / den) Hk Hlo) as [-> ->].
  rewrite Hlo. by destruct (decide (z mod 10 ^ (n - k) = 0)).
Qed.

(** The search stops at the first length at which the digits left out
    are zeros. *)
Lemma shortest_integer b fuel k :
  0 < b -> 1 <= k <= n -> n - k < Z.of_nat fuel ->
  exists j, k <= j <= n /\ z mod 10 ^ (n - j) = 0
    /\ shortest fuel x (z * b) b n k = (z / 10 ^ (n - j), j, n).
Proof.
  intros Hb. revert k. induction fuel as [|fuel IH]; intros k Hk Hfuel; [lia |].
  cbn [shortest]. rewrite (digits_at_integer b k Hb Hk).
  destruct (decide (z mod 10 ^ (n - k) = 0)) as [Hzero | Hrest].
  - exists k. split; [lia |]. by split.
  - assert (Hkn : k <> n).
    { intros ->. apply Hrest. rewrite Z.sub_diag. apply Z.mod_1_r. }
    destruct (IH (k + 1) ltac:(lia) ltac:(lia)) as (j & Hj & Hzero & Hshort).
    exists j. split; [lia |]. by split.
Qed.

End Shortest.

Section DecimalNotation.

Local Open Scope Z_scope.

Lemma append_assoc (s1 s2 s3 : string) : (s1 +:+ s2) +:+ s3 = s1 +:+ (s2 +:+ s3).
Proof.
  induction s1 as [|c s1 IH]; [reflexivity |].
  change (String c ((s1 +:+ s2) +:+ s3) = String c (s1 +:+ (s2 +:+ s3))).
  by rewrite IH.
Qed.

Lemma append_empty (s : string) : s +:+ "" = s.
Proof.
  induction s as [|c s IH]; [reflexivity |].
  change (String c (s +:+ "") = String c s). by rewrite IH.
Qed.

Lemma string_of_uint_revapp d acc :
  NilEmpty.string_of_uint (Decimal.revapp d acc)
  = NilEmpty.string_of_uint (Decimal.revapp d Decimal.Nil) +:+ NilEmpty.string_of_uint acc.
Proof.
  revert acc. induction d as [|d IH|d IH|d IH|d IH|d IH|d IH|d IH|d IH|d IH|d IH];
    intros acc; [reflexivity | ..];
    cbn [Decimal.revapp]; rewrite IH, (IH (_ Decimal.Nil)); by rewrite append_assoc.
Qed.

Lemma string_of_Z_positive p :
  string_of_Z (Z.pos p) = NilEmpty.string_of_uint (Pos.to_uint p).
Proof.
  unfold string_of_Z. simpl.
  pose proof (DecimalPos.Unsigned.to_uint_nonnil p). by destruct (Pos.to_uint p).
Qed.

Lemma string_of_Z_tenfold q : 0 < q -> string_of_Z (q * 10) = string_of_Z q +:+ "0".
Proof.
  destruct q as [|p|p]; try done. intros _.
  change (Z.pos p * 10) with (Z.pos (p * 10)).
  rewrite !string_of_Z_positive. unfold Pos.to_uint.
  pose proof (DecimalPos.Unsigned.to_ldec_tenfold p) as Hten.
  rewrite Pos.mul_comm.
  change (Pos.to_little_uint (10 * p)) with (DecimalPos.Unsigned.to_lu (10 * N.pos p)).
  rewrite Hten. unfold Decimal.rev. cbn [Decimal.revapp DecimalPos.Unsigned.to_lu].
  by rewrite string_of_uint_revapp.
Qed.

End DecimalNotation.

Section SafeIntegers.

Local Open Scope Z_scope.

Lemma concat_zeros_cons k :
  String.concat "" (replicate (S k) "0") = "0" +:+ String.concat "" (replicate k "0").
Proof. by destruct k. Qed.

Lemma zeros_snoc t : 0 <= t -> zeros (Z.succ t) = zeros t +:+ "0".
Proof.
  intros Ht. unfold zeros. rewrite Z2Nat.inj_succ by done.
  induction (Z.to_nat t) as [|k IH]; [reflexivity |].
  rewrite (concat_zeros_cons (S k)), IH, <- append_assoc.
  by rewrite <- IH, (concat_zeros_cons k).
Qed.

Lemma string_of_Z_power q t :
  0 < q -> 0 <= t -> string_of_Z (q * 10 ^ t) = string_of_Z q +:+ zeros t.
Proof.
  intros Hq Ht. revert t Ht. apply natlike_ind.
  - change (10 ^ 0) with 1. rewrite Z.mul_1_r. by rewrite append_empty.
  - intros t Ht IH. rewrite Z.pow_succ_r, zeros_snoc by done.
    replace (q * (10 * 10 ^ t)) with (q * 10 ^ t * 10) by lia.
    rewrite string_of_Z_tenfold, IH, append_assoc; [done |].
    assert (0 < 10 ^ t) by (apply Z.pow_pos_nonneg; lia). nia.
Qed.

Lemma positive_text_safe z :
  0 < z < 2 ^ 53 ->
  positive_text (z * 2 ^ (52 - Z.log2 z)) (Z.log2 z - 52) = string_of_Z z.
Proof.
  intros Hz.
  pose proof (Z.log2_nonneg z) as Hnonneg.
  assert (Hlog : Z.log2 z <= 52).
  { apply Z.lt_succ_r. apply (Z.pow_lt_mono_r_iff 2); [lia | lia |].
    pose proof (Z.log2_spec z (proj1 Hz)). lia. }
  unfold positive_text, scaled2.
  rewrite <- (round_positive_exact z Hz), <- (number_of_Z_positive z (proj1 Hz)).
  assert (H1 : (0 <=? - (Z.log2 z - 52)) = true) by (apply Z.leb_le; lia). rewrite H1.
  replace (- (Z.log2 z - 52)) with (52 - Z.log2 z) by lia.
  set (b := 2 ^ (52 - Z.log2 z)).
  assert (Hb : 0 < b) by (apply Z.pow_pos_nonneg; lia).
  rewrite Z.mul_1_l.
  unfold magnitude.
  assert (H2 : (b <=? z * b) = true) by (apply Z.leb_le; nia). rewrite H2.
  rewrite Z.div_mul by lia.
  destruct (digit_count_spec z (proj1 Hz)) as (Hn & Hlow & Hhigh).
  pose proof (digit_count_safe z Hz) as Hsafe.
  destruct (shortest_integer z Hz b 16 1 Hb ltac:(lia) ltac:(lia))
    as (j & Hj & Hzero & ->).
  unfold layout.
  assert (H3 : ((j <=? digit_count z) && (digit_count z <=? 21)) = true).
  { apply andb_true_iff. split; apply Z.leb_le; lia. }
  rewrite H3.
  assert (Hp : 0 < 10 ^ (digit_count z - j)) by (apply Z.pow_pos_nonneg; lia).
  pose proof (Z.div_mod z (10 ^ (digit_count z - j)) ltac:(lia)) as Hdm.
  rewrite <- string_of_Z_power; [f_equal; lia | | lia].
  apply Z.div_str_pos. split; [lia |].
  apply Z.le_trans with (10 ^ (digit_count z - 1)); [| lia].
  apply Z.pow_le_mono_r; lia.
Qed.

(** [String] on an integer below 2^53 is its decimal notation. *)
Lemma integer_text_safe z : Z.abs z < 2 ^ 53 -> integer_text z = string_of_Z z.
Proof.
  intros Hz. unfold integer_text. destruct z as [|p|p].
  - reflexivity.
  - rewrite number_of_Z_positive, round_positive_exact by lia.
    unfold num_text.
    assert (Hm : 0 < Z.pos p * 2 ^ (52 - Z.log2 (Z.pos p))).
    { assert (0 < 2 ^ (52 - Z.log2 (Z.pos p))); [| nia].
      apply Z.pow_pos_nonneg; [lia |].
      assert (Z.log2 (Z.pos p) <= 52); [| lia].
      apply Z.lt_succ_r. apply (Z.pow_lt_mono_r_iff 2); [lia | lia |].
      pose proof (Z.log2_spec (Z.pos p) ltac:(lia)). lia. }
    assert (H1 : (Z.pos p * 2 ^ (52 - Z.log2 (Z.pos p)) =? 0) = false)
      by (apply Z.eqb_neq; lia).
    assert (H2 : (Z.pos p * 2 ^ (52 - Z.log2 (Z.pos p)) <? 0) = false)
      by (apply Z.ltb_ge; lia).
    rewrite H1, H2. apply positive_text_safe. lia.
  - unfold number_of_Z, round_fraction.
    change (Z.neg p =? 0) with false. change (Z.neg p <? 0) with true. cbv iota.
    change (- Z.neg p) with (Z.pos p).
    rewrite round_positive_exact by lia.
    unfold negate, num_text.
    assert (Hm : 0 < Z.pos p * 2 ^ (52 - Z.log2 (Z.pos p))).
    { assert (0 < 2 ^ (52 - Z.log2 (Z.pos p))); [| nia].
      apply Z.pow_pos_nonneg; [lia |].
      assert (Z.log2 (Z.pos p) <= 52); [| lia].
      apply Z.lt_succ_r. apply (Z.pow_lt_mono_r_iff 2); [lia | lia |].
      pose proof (Z.log2_spec (Z.pos p) ltac:(lia)). lia. }
    assert (H1 : (- (Z.pos p * 2 ^ (52 - Z.log2 (Z.pos p))) =? 0) = false)
      by (apply Z.eqb_neq; lia).
    assert (H2 : (- (Z.pos p * 2 ^ (52 - Z.log2 (Z.pos p))) <? 0) = true)
      by (apply Z.ltb_lt; lia).
    rewrite H1, H2, Z.opp_involutive, positive_text_safe by lia.
    reflexivity.
Qed.

End SafeIntegers.

Section ReadingDigits.

Local Open Scope Z_scope.

Local Ltac each_char c :=
  destruct c as [[] [] [] [] [] [] [] []]; try reflexivity; try discriminate.

Lemma digit_no_space c : is_digit c = true -> is_space c = false.
Proof. each_char c. Qed.

Lemma digit_plain c :
  is_digit c = true ->
  radix_literal (String "0" (String c "")) = None
  /\ (forall t, match String c t with
                | String "-" r => (true, r)
                | String "+" r => (false, r)
                | _ => (false, String c t)
                end = (false, String c t))
  /\ (forall t, String.eqb (String c t) "Infinity" = false).
Proof. each_char c; intros _; repeat split. Qed.

Lemma digits_of_uint d : all_chars is_digit (NilEmpty.string_of_uint d) = true.
Proof. induction d; simpl; auto. Qed.

Lemma digits_start s : all_chars is_digit s = true -> starts_with_space s = false.
Proof.
  destruct s as [|c t]; simpl; [done |].
  intros [Hc _]%andb_true_iff. by apply digit_no_space.
Qed.

Lemma digits_end s : all_chars is_digit s = true -> ends_with_space s = false.
Proof.
  induction s as [|c t IH]; [done |].
  intros [Hc Ht]%andb_true_iff.
  destruct t as [|d r]; [by apply digit_no_space | by apply IH].
Qed.

Lemma trim_fixed s :
  starts_with_space s = false -> ends_with_space s = false -> trim s = s.
Proof. intros Hs He. unfold trim. by rewrite (trim_start_fixed s Hs), trim_end_fixed. Qed.

Lemma span_all p s : all_chars p s = true -> span p s = (s, "").
Proof.
  induction s as [|c t IH]; simpl; [done |].
  intros [Hc Ht]%andb_true_iff. by rewrite Hc, (IH Ht).
Qed.

Lemma digits_in_acc d acc :
  digits_in 10 (NilEmpty.string_of_uint d) (Z.pos acc) = Z.pos (Pos.of_uint_acc d acc).
Proof.
  revert acc. induction d as [|d IH|d IH|d IH|d IH|d IH|d IH|d IH|d IH|d IH|d IH];
    intros acc; [reflexivity | ..];
    cbn [NilEmpty.string_of_uint digits_in Pos.of_uint_acc];
    rewrite <- IH; f_equal;
    match goal with
    | |- context [digit_value ?c] =>
        let v := eval vm_compute in (digit_value c) in change (digit_value c) with v
    end; lia.
Qed.

Lemma digits_in_uint d :
  digits_in 10 (NilEmpty.string_of_uint d) 0 = Z.of_N (Pos.of_uint d).
Proof.
  induction d as [|d IH|d IH|d IH|d IH|d IH|d IH|d IH|d IH|d IH|d IH];
    [reflexivity | exact IH | ..];
    cbn [NilEmpty.string_of_uint digits_in Pos.of_uint N.of_uint];
    (etransitivity; [| apply digits_in_acc]); f_equal.
Qed.

Lemma radix_literal_digits s : all_chars is_digit s = true -> radix_literal s = None.
Proof.
  destruct s as [|c [|c' t]]; [done | by each_char c |].
  intros [Hc [Hc' _]%andb_true_iff]%andb_true_iff.
  destruct (Ascii.ascii_dec c "0") as [-> | Hne].
  - pose proof (proj1 (digit_plain c' Hc')) as Hplain.
    unfold radix_literal in *.
    destruct ((c' =? "x")%char || (c' =? "X")%char); [done |].
    destruct ((c' =? "o")%char || (c' =? "O")%char); [done |].
    by destruct ((c' =? "b")%char || (c' =? "B")%char).
  - clear Hc Hc'. by each_char c.
Qed.

Lemma unsigned_decimal_digits s :
  all_chars is_digit s = true -> s <> "" ->
  unsigned_decimal s = Some (digits_in 10 s 0, 0).
Proof.
  intros Hs Hne. unfold unsigned_decimal.
  rewrite (span_all _ s Hs), append_empty. by destruct s.
Qed.

Lemma signed_decimal_digits s :
  all_chars is_digit s = true -> s <> "" ->
  signed_decimal s = number_of_Z (digits_in 10 s 0)
  /\ signed_decimal (String "-" s) = number_of_Z (- digits_in 10 s 0).
Proof.
  intros Hs Hne. pose proof (unsigned_decimal_digits s Hs Hne) as Hread.
  destruct s as [|c t]; [done |].
  pose proof Hs as [Hc _]%andb_true_iff.
  destruct (digit_plain c Hc) as (_ & Hsign & Hinf).
  unfold signed_decimal. rewrite Hsign, Hinf, Hread.
  unfold round_decimal, scaled10. change (10 ^ 0) with 1. simpl (0 <=? 0).
  by rewrite !Z.mul_1_r.
Qed.

Lemma string_to_number_digits s :
  all_chars is_digit s = true -> s <> "" ->
  string_to_number s = number_of_Z (digits_in 10 s 0)
  /\ string_to_number (String "-" s) = number_of_Z (- digits_in 10 s 0).
Proof.
  intros Hs Hne. destruct (signed_decimal_digits s Hs Hne) as [Hplus Hminus].
  unfold string_to_number. split.
  - rewrite (trim_fixed s (digits_start s Hs) (digits_end s Hs)).
    destruct s as [|c t]; [done |]. by rewrite (radix_literal_digits _ Hs).
  - assert (Htrim : trim (String "-" s) = String "-" s).
    { apply trim_fixed; [done |].
      destruct s as [|c t]; [done |]. by apply (digits_end (String c t)). }
    by rewrite Htrim.
Qed.

(** The decimal notation of an integer reads back as the double nearest
    to it. *)
Lemma string_to_number_of_Z z : string_to_number (string_of_Z z) = number_of_Z z.
Proof.
  destruct z as [|p|p]; [reflexivity | |].
  - rewrite string_of_Z_positive.
    pose proof (DecimalPos.Unsigned.to_uint_nonnil p) as Hnil.
    assert (Hne : NilEmpty.string_of_uint (Pos.to_uint p) <> "")
      by (by destruct (Pos.to_uint p)).
    rewrite (proj1 (string_to_number_digits _ (digits_of_uint _) Hne)).
    by rewrite digits_in_uint, DecimalPos.Unsigned.of_to.
  - change (string_of_Z (Z.neg p)) with (String "-" (string_of_Z (Z.pos p))).
    rewrite string_of_Z_positive.
    pose proof (DecimalPos.Unsigned.to_uint_nonnil p) as Hnil.
    assert (Hne : NilEmpty.string_of_uint (Pos.to_uint p) <> "")
      by (by destruct (Pos.to_uint p)).
    rewrite (proj2 (string_to_number_digits _ (digits_of_uint _) Hne)).
    by rewrite digits_in_uint, DecimalPos.Unsigned.of_to.
Qed.

End ReadingDigits.

(** ** The task position index *)

Section TaskIndex.

(** A task is registered under the text of its identifier and under the
    text of its numeric form. *)
Lemma register_task_keys info id (tm : gmap string taskInfo) :
  register_task info id tm !! to_text id = Some info
  /\ register_task info id tm !! num_text (to_number id) = Some info.
Proof.
  unfold register_task. split; [| apply lookup_insert_eq].
  destruct (decide (num_text (to_number id) = to_text id)) as [-> | Hne].
  - apply lookup_insert_eq.
  - rewrite lookup_insert_ne by done. apply lookup_insert_eq.
Qed.

Lemma register_task_keeps info id (tm : gmap string taskInfo) k :
  is_Some (tm !! k) -> is_Some (register_task info id tm !! k).
Proof.
  intros Hk. unfold register_task.
  rewrite !lookup_insert. repeat case_decide; eauto.
Qed.

(** The lookup finds nothing exactly when neither form is a key. *)
Lemma lookupTask_None (tm : gmap string taskInfo) taskId :
  lookupTask tm taskId = None
  <-> tm !! to_text taskId = None /\ tm !! num_text (to_number taskId) = None.
Proof.
  unfold lookupTask. destruct (tm !! to_text taskId); [| tauto].
  split; [done | by intros [? _]].
Qed.

(** Two references with the same text, a number and its text form among
    them, resolve alike when that text is a key. *)
Lemma lookupTask_same_text (tm : gmap string taskInfo) a b :
  to_text a = to_text b -> is_Some (tm !! to_text a) -> lookupTask tm a = lookupTask tm b.
Proof. intros Heq [info Hinfo]. unfold lookupTask. by rewrite <- Heq, Hinfo. Qed.

(** A number below 2^53 and its decimal notation resolve alike, whatever
    the index holds. *)
Lemma lookupTask_number_text (tm : gmap string taskInfo) z :
  (Z.abs z < 2 ^ 53)%Z -> lookupTask tm (JNum z) = lookupTask tm (JStr (string_of_Z z)).
Proof.
  intros Hz. unfold lookupTask. cbn [to_text to_number].
  rewrite string_to_number_of_Z. fold (integer_text z).
  by rewrite (integer_text_safe z Hz).
Qed.

Lemma fold_from_keeps {A B} (P : B -> Prop) (f : B -> nat -> A -> B) :
  (forall acc i x, P acc -> P (f acc i x)) ->
  forall xs i acc, P acc -> P (fold_from f i acc xs).
Proof.
  intros Hf. induction xs as [|x xs IH]; intros i acc Hacc; simpl; [done |].
  apply IH, Hf, Hacc.
Qed.

Lemma fold_from_reaches {A B} (P : B -> Prop) (f : B -> nat -> A -> B) :
  (forall acc i x, P acc -> P (f acc i x)) ->
  forall xs x, In x xs -> (forall acc i, P (f acc i x)) ->
  forall i acc, P (fold_from f i acc xs).
Proof.
  intros Hf. induction xs as [|y xs IH]; intros x Hin Hx i acc; [done |].
  simpl. destruct Hin as [-> | Hin].
  - apply fold_from_keeps; [exact Hf | apply Hx].
  - by apply (IH x).
Qed.

(** Every task whose identifier is no number leaves its info under the
    key ["NaN"]. *)
Lemma buildTaskMap_NaN wf st tk :
  In st (items (wf_stageRequests wf)) ->
  In tk (items (s_taskRequests st)) ->
  to_number (t_id tk) = NaN ->
  is_Some (buildTaskMap wf !! "NaN").
Proof.
  intros Hst Htk Hnan. unfold buildTaskMap, fold_indexed.
  apply (fold_from_reaches (fun tm : gmap string taskInfo => is_Some (tm !! "NaN")))
    with (x := st); [| exact Hst |].
  - intros acc i x Hacc. apply fold_from_keeps; [| exact Hacc].
    intros acc' j y Hacc'. by apply register_task_keeps.
  - intros acc i.
    apply (fold_from_reaches (fun tm : gmap string taskInfo => is_Some (tm !! "NaN")))
      with (x := tk); [| exact Htk |].
    + intros acc' j y Hacc'. by apply register_task_keeps.
    + intros acc' j.
      pose proof (register_task_keys
                    {| taskName := t_name tk; stageName := s_name st;
                       stageOrder := order_of (s_orderTree st) i;
                       taskOrder := order_of (t_orderTree tk) j |}
                    (t_id tk) acc') as [_ Hkey].
      rewrite Hnan in Hkey. change (num_text NaN) with "NaN" in Hkey. by rewrite Hkey.
Qed.

End TaskIndex.

Section TaskEntries.

Lemma fold_from_imap {A B C} (F : B -> C -> B) (G : nat -> A -> C) xs i acc :
  fold_from (fun acc idx x => F acc (G idx x)) i acc xs
  = foldl F acc (imap (fun k => G (i + k)%nat) xs).
Proof.
  revert i acc. induction xs as [|x xs IH]; intros i acc; simpl; [done |].
  rewrite IH, Nat.add_0_r. f_equal.
  apply imap_ext. intros k y _. simpl. f_equal. lia.
Qed.

Lemma fold_from_concat {A B C} (F : B -> C -> B) (H : nat -> A -> list C) xs i acc :
  fold_from (fun acc idx x => foldl F acc (H idx x)) i acc xs
  = foldl F acc (concat (imap (fun k => H (i + k)%nat) xs)).
Proof.
  revert i acc. induction xs as [|x xs IH]; intros i acc; simpl; [done |].
  rewrite IH, foldl_app, Nat.add_0_r. do 2 f_equal.
  apply imap_ext. intros k y _. simpl. f_equal. lia.
Qed.

Lemma fold_stages_entries (stages : list stageRequest) i (tm : gmap string taskInfo) :
  fold_from
    (fun tm stageIdx st =>
       fold_from
         (fun tm taskIdx tk =>
            register_task
              {| taskName := t_name tk; stageName := s_name st;
                 stageOrder := order_of (s_orderTree st) stageIdx;
                 taskOrder := order_of (t_orderTree tk) taskIdx |}
              (t_id tk) tm)
         0 tm (items (s_taskRequests st)))
    i tm stages
  = foldl (fun tm (e : jsval * taskInfo) => register_task e.2 e.1 tm) tm
      (concat
         (imap
            (fun k st =>
               imap
                 (fun taskIdx tk =>
                    (t_id tk,
                     {| taskName := t_name tk; stageName := s_name st;
                        stageOrder := order_of (s_orderTree st) (i + k);
                        taskOrder := order_of (t_orderTree tk) taskIdx |}))
                 (items (s_taskRequests st)))
            stages)).
Proof.
  revert i tm. induction stages as [|st stages IH]; intros i tm; simpl; [done |].
  rewrite IH, foldl_app, Nat.add_0_r. f_equal.
  - apply (fold_from_imap
             (fun tm (e : jsval * taskInfo) => register_task e.2 e.1 tm)
             (fun taskIdx tk =>
                (t_id tk,
                 {| taskName := t_name tk; stageName := s_name st;
                    stageOrder := order_of (s_orderTree st) i;
                    taskOrder := order_of (t_orderTree tk) taskIdx |}))
             (items (s_taskRequests st)) 0 tm).
  - f_equal. apply imap_ext. intros k st' _. simpl.
    apply imap_ext. intros j tk _. simpl. do 3 f_equal. lia.
Qed.

Lemma buildTaskMap_entries wf :
  buildTaskMap wf
  = foldl (fun tm (e : jsval * taskInfo) => register_task e.2 e.1 tm) ∅ (task_entries wf).
Proof. unfold buildTaskMap, fold_indexed. apply (fold_stages_entries _ 0). Qed.

Lemma register_task_other info other (tm : gmap string taskInfo) k :
  to_text other <> k -> num_text (to_number other) <> k ->
  register_task info other tm !! k = tm !! k.
Proof. intros Ht Hn. unfold register_task. by rewrite !lookup_insert_ne. Qed.

Lemma foldl_register_other (l : list (jsval * taskInfo)) (tm : gmap string taskInfo) id :
  Forall (fun e => keys_apart id e.1) l ->
  foldl (fun tm (e : jsval * taskInfo) => register_task e.2 e.1 tm) tm l !! to_text id
  = tm !! to_text id.
Proof.
  intros Hl. revert tm. induction Hl as [|e l [Ht Hn] _ IH]; intros tm; simpl; [done |].
  by rewrite IH, register_task_other.
Qed.

Lemma foldl_register_none (l : list (jsval * taskInfo)) (tm : gmap string taskInfo) k :
  tm !! k = None ->
  Forall (fun e => to_text e.1 <> k /\ num_text (to_number e.1) <> k) l ->
  foldl (fun tm (e : jsval * taskInfo) => register_task e.2 e.1 tm) tm l !! k = None.
Proof.
  intros Hk Hl. revert tm Hk.
  induction Hl as [|e l [Ht Hn] _ IH]; intros tm Hk; simpl; [done |].
  apply IH. by rewrite register_task_other.
Qed.

(** A reference that matches no key of the index resolves to nothing. *)
Lemma lookupTask_unmatched wf reference :
  names_no_task wf reference -> lookupTask (buildTaskMap wf) reference = None.
Proof.
  intros Hno. apply lookupTask_None. rewrite buildTaskMap_entries.
  split; apply foldl_register_none; try apply lookup_empty;
    eapply List.Forall_impl; try exact Hno; intros e (H1 & H2 & H3 & H4); done.
Qed.

End TaskEntries.

(** [String(Number(s))], the third key of a task and of a lookup, on
    identifiers and on literals of other shapes. *)
Example numeric_forms :
  map (fun s => num_text (string_to_number s))
    [ "42"; " 42 "; "0042"; "586514447368638464"; "586514447368638501";
      "9007199254740993"; "1e3"; "0x10"; "1.50"; "1e21"; "-Infinity"; "";
      "t1"; "64b7f0c2a1d3e4f5a6b7c8d9"; "12px" ]
  = [ "42"; "42"; "42"; "586514447368638500"; "586514447368638500";
      "9007199254740992"; "1000"; "16"; "1.5"; "1e+21"; "-Infinity"; "0";
      "NaN"; "NaN"; "NaN" ].
Proof. vm_compute. reflexivity. Qed.

(** The number 42 and the text ["42"] resolve alike in every index. *)
Example number_and_text_alike (tm : gmap string taskInfo) :
  lookupTask tm (JNum 42) = lookupTask tm (JStr "42").
Proof. reflexivity. Qed.

(** C2, where the code departs from it: as soon as one task of the
    definition has an identifier that is no number, every identifier
    that is no number resolves to some task, whether or not it denotes
    one, because both are looked up under the key ["NaN"]. *)
Theorem lookupTask_resolves_unknown_identifier
    (wf : workflow) (st : stageRequest) (tk : taskRequest) (taskId : jsval) :
  In st (items (wf_stageRequests wf)) ->
  In tk (items (s_taskRequests st)) ->
  to_number (t_id tk) = NaN ->
  to_number taskId = NaN ->
  lookupTask (buildTaskMap wf) taskId <> None.
Proof.
  intros Hst Htk Hnan Hid Hnone.
  apply lookupTask_None in Hnone as [_ Hnum].
  rewrite Hid in Hnum. change (num_text NaN) with "NaN" in Hnum.
  destruct (buildTaskMap_NaN wf st tk Hst Htk Hnan) as [info Hinfo].
  congruence.
Qed.

(** The prerequisite ["t9"] of the sample task ["t1"] names no task, and
    is resolved to ["t1"] itself. *)
Lemma lookupTask_resolves_unknown_identifier_witness :
  lookupTask (buildTaskMap Samples.dangling_workflow) (JStr "t9") <> None.
Proof.
  apply (lookupTask_resolves_unknown_identifier Samples.dangling_workflow
           (Samples.stage_of "Dispensing" [Samples.dangling_task]) Samples.dangling_task
           (JStr "t9")).
  - simpl. by left.
  - simpl. by left.
  - vm_compute. reflexivity.
  - vm_compute. reflexivity.
Defined.

(** The Dependencies column that results: the position of ["t1"] instead
    of the marker for an identifier that is not found. *)
Example dangling_prerequisite_text :
  getDependenciesText (buildTaskMap Samples.dangling_workflow) Samples.dangling_task
  = "Tasks that need to be executed before this task:" +:+ nl
      +:+ "Stage 1: Dispensing" +:+ nl +:+ "  → Task 1.1: Weigh".
Proof. vm_compute. reflexivity. Qed.

(** ** References that resolve to nothing *)

(** The reference of a sample task to an identifier that matches no key
    of the index, as its Dependencies column shows it. *)
Example unmatched_prerequisite_text :
  map (fun r => row_get r "Dependencies") (csvRows [Samples.referencing_workflow])
  = [ JStr ("Tasks that need to be executed before this task:" +:+ nl
            +:+ "Task ID: 586514447368650000 (not found in workflow)") ].
Proof. vm_compute. reflexivity. Qed.

(** A reference that is no identifier of the sample definition, but has
    the numeric form of its task, resolves to that task. *)
Example near_reference_resolves :
  lookupTask (buildTaskMap Samples.referencing_workflow) (JStr "586514447368638466")
  = Some {| taskName := JStr "Weigh"; stageName := JStr "Dispensing";
            stageOrder := 1; taskOrder := 1 |}.
Proof. vm_compute. reflexivity. Qed.

(** C5, as the code has it.  A task reference that matches no key of the
    index is shown raw: with the marker ["(not found in workflow)"] in
    the dependencies, after ["Task ID"] in the executor lock.  An
    identifier-shaped value unknown to the option and property-name
    tables is dropped from a filter's values; as a property reference
    unknown to the property-name table it gives no property line in a
    validation; but as a validation value it is printed raw. *)
Theorem unresolved_references_asymmetric
    (wf : workflow) (tb : tables) (taskId : jsval) (id pid : string)
    (v : validationItem) :
  names_no_task wf taskId ->
  unresolved tb id ->
  unknown_property tb pid ->
  dependency_line (buildTaskMap wf) taskId
    = "Task ID: " +:+ to_text taskId +:+ " (not found in workflow)"
  /\ cannot_be_line (buildTaskMap wf) taskId = "Task ID: " +:+ to_text taskId
  /\ (truthy taskId = true ->
      same_executor_lines (buildTaskMap wf)
        {| l_hasToBeExecutorId := taskId; l_cannotBeExecutorIds := None |}
      = ["Must be executed by same person as: Task ID " +:+ to_text taskId])
  /\ resolved_filter_values tb [JStr id] = []
  /\ (vi_propertyId v = JStr pid -> validation_property_lines tb v = [])
  /\ (vi_value v = JStr id -> validation_value_lines tb v = ["  Value: " +:+ id]).
Proof.
  intros Htask%lookupTask_unmatched Hid (Hshape & Hunknown).
  assert (Hv : unresolved_value tb (JStr id)) by (by exists id).
  destruct Hid as (Hhex & Hopt & Hprop).
  split; [| split; [| split; [| split; [| split]]]].
  - unfold dependency_line. by rewrite Htask.
  - unfold cannot_be_line. by rewrite Htask.
  - intros Htruthy. unfold same_executor_lines. simpl. by rewrite Htruthy, Htask.
  - apply resolved_filter_values_none. by repeat constructor.
  - intros Hpid. unfold validation_property_lines. rewrite Hpid.
    rewrite (get_absent _ _ Hunknown). simpl. rewrite Hshape. simpl.
    by destruct (negb (String.eqb pid "")).
  - intros Hval. unfold validation_value_lines. rewrite Hval.
    destruct (is_constant_identifier (vi_selector v) (JStr id)); [| done].
    by rewrite (get_absent _ _ Hopt), (get_absent _ _ Hprop).
Qed.

(** The sample definition: its one prerequisite matches no key of its
    index, and its validation cites an identifier that none of its tables
    knows. *)
Lemma unresolved_references_asymmetric_witness :
  let wf := Samples.referencing_workflow in
  let item := Samples.constant_item (JStr Samples.unknown_id) (JStr Samples.unknown_id) in
  dependency_line (buildTaskMap wf) (JStr "586514447368650000")
    = "Task ID: 586514447368650000 (not found in workflow)"
  /\ validation_property_lines (buildTables wf) item = []
  /\ validation_value_lines (buildTables wf) item = ["  Value: 64b7f0c2a1d3e4f5a6b7c8d9"].
Proof.
  intros wf item.
  assert (Htask : names_no_task wf (JStr "586514447368650000")).
  { repeat constructor; vm_compute; discriminate. }
  assert (Hid : unresolved (buildTables wf) Samples.unknown_id)
    by (repeat split; vm_compute; reflexivity).
  assert (Hpid : unknown_property (buildTables wf) Samples.unknown_id)
    by (split; vm_compute; reflexivity).
  destruct (unresolved_references_asymmetric wf (buildTables wf) (JStr "586514447368650000")
              Samples.unknown_id Samples.unknown_id item Htask Hid Hpid)
    as (Hdep & _ & _ & _ & Hprop & Hval).
  split; [exact Hdep |]. split; [exact (Hprop eq_refl) | exact (Hval eq_refl)].
Defined.

(** C5 as stated fails: a validation whose constant value is an
    identifier unknown to both tables prints that identifier in the
    Validations column. *)
Lemma unresolved_validation_value_shown :
  unresolved (buildTables Samples.validated_workflow) Samples.unknown_id
  /\ exists r text,
       csvRows [Samples.validated_workflow] !! 0%nat = Some r
       /\ row_get r "Validations" = JStr text
       /\ includes text Samples.unknown_id = true.
Proof.
  split.
  - repeat split; vm_compute; reflexivity.
  - eexists. eexists. split; [vm_compute; reflexivity |].
    split; [vm_compute; reflexivity | vm_compute; reflexivity].
Qed.

(** ** The scenarios of the specification, computed *)

Example mixed_batch_before :
  map Samples.stage_and_title (csvRows Samples.mixed_batch)
  = [ ("Create Job Form", "Product"); ("Stage A", "Speed");
      ("Create Job Form", "Batch"); ("Stage B", "Count") ].
Proof. vm_compute. reflexivity. Qed.

Example mixed_batch_sorted :
  map Samples.stage_and_title (sortedRows Samples.mixed_batch)
  = [ ("Create Job Form", "Product"); ("Create Job Form", "Batch");
      ("Stage A", "Speed"); ("Stage B", "Count") ].
Proof. vm_compute. reflexivity. Qed.

Example intake_records :
  map (fun r => (row_get r "Instruction Title", row_get r "Options / Values",
                 row_get r "Dependencies", row_get r "Executor Lock",
                 row_get r "Automation Details"))
    (sortedRows [Samples.intake_workflow])
  = [ (JStr "Name", JStr "N/A", JStr "N/A", JStr "N/A", JStr "");
      (JStr "Approved", JStr "Yes • No", JStr "N/A", JStr "N/A",
       JStr ("Automation: Notify" +:+ nl +:+ "Trigger: task completed" +:+ nl
             +:+ "Action: create object" +:+ nl
             +:+ "Object Type: Unknown Object Type")) ].
Proof. vm_compute. reflexivity. Qed.

Example formatKey_camel_case : formatKey "hasToBeExecutorId" = "Has to be executor id".
Proof. reflexivity. Qed.

(** * Further properties of the code *)

(** ** When a synthesizer gives the placeholder *)

(** X1: the Dependencies text is the placeholder exactly when the task
    lists no prerequisite. *)
Theorem getDependenciesText_placeholder
    (taskMap : gmap string taskInfo) (tk : taskRequest) :
  getDependenciesText taskMap tk = "N/A" <-> items (t_prerequisiteTaskIds tk) = [].
Proof.
  unfold getDependenciesText.
  destruct (t_prerequisiteTaskIds tk) as [[|taskId rest] |]; simpl; split; try done.
Qed.

(** X2: the Executor Lock text is the placeholder exactly when the task
    has no lock, or a lock that names no task. *)
Theorem getExecutorLockText_placeholder
    (taskMap : gmap string taskInfo) (tk : taskRequest) :
  getExecutorLockText taskMap tk = "N/A"
  <-> match t_taskExecutorLock tk with
      | Some lock => effective_lock lock = false
      | None => True
      end.
Proof.
  unfold getExecutorLockText, effective_lock.
  destruct (t_taskExecutorLock tk) as [lock |]; [| done].
  unfold same_executor_lines, other_executor_lines.
  destruct (truthy (l_hasToBeExecutorId lock)); simpl.
  - split; [| done]. intros Htext. exfalso. revert Htext.
    apply (starts_with_not "M"); [| done].
    destruct (lookupTask taskMap (l_hasToBeExecutorId lock));
      simpl; apply join_starts_with; by eexists.
  - by destruct (l_cannotBeExecutorIds lock) as [[|taskId rest] |].
Qed.

(** X3: the automation summary is empty exactly when the task has no
    automation rule. *)
Theorem buildAutomationText_empty (wf : workflow) (tb : tables) (tk : taskRequest) :
  buildAutomationText wf tb tk = "" <-> items (t_automationRequests tk) = [].
Proof.
  unfold buildAutomationText.
  destruct (t_automationRequests tk) as [[|auto rest] |]; simpl; try done.
  split; [| done]. intros Htext. exfalso. revert Htext.
  apply (starts_with_not "A"); [| done].
  apply join_starts_with. unfold automation_block, starts_with. simpl.
  eexists. reflexivity.
Qed.

(** ** The records of a definition, parameter by parameter *)

Section RowsOfParameters.

Context {B : Type} (col : row -> B) (g : parameterRequest -> B).
Context (tb : tables) (taskMap : gmap string taskInfo).
Hypothesis col_of_parameter :
  forall stage task p automationText taskObj isLastParam,
    col (makeRow tb taskMap stage task p automationText taskObj isLastParam) = g p.

Lemma map_imap_rows (f : nat -> parameterRequest -> row) params :
  (forall idx p, col (f idx p) = g p) -> map col (imap f params) = map g params.
Proof.
  intros Hf. change (map col (imap f params)) with (col <$> imap f params).
  rewrite fmap_imap, <- (imap_const g).
  apply imap_ext. intros idx p _. apply Hf.
Qed.

Lemma map_task_rows wf st tk :
  map col (task_rows wf tb taskMap st tk) = map g (items (t_parameterRequests tk)).
Proof.
  unfold task_rows, push_task_rows. rewrite fold_indexed_push. simpl.
  apply map_imap_rows. intros idx p. apply col_of_parameter.
Qed.

Lemma map_cjf_rows wf :
  map col (cjf_rows wf tb taskMap) = map g (items (wf_parameterRequests wf)).
Proof.
  unfold cjf_rows, push_cjf_rows. rewrite fold_indexed_push. simpl.
  apply map_imap_rows. intros idx p. apply col_of_parameter.
Qed.

Lemma map_stage_rows wf (stages : list stageRequest) :
  map col
    (concat
       (map (fun st => concat (map (task_rows wf tb taskMap st) (items (s_taskRequests st))))
          stages))
  = map g
      (flat_map (fun tk => items (t_parameterRequests tk))
         (flat_map (fun st => items (s_taskRequests st)) stages)).
Proof.
  induction stages as [|st stages IH]; simpl; [done |].
  rewrite List.flat_map_app, !map_app, IH. f_equal.
  induction (items (s_taskRequests st)) as [|tk tasks IHt]; simpl; [done |].
  by rewrite !map_app, IHt, map_task_rows.
Qed.

End RowsOfParameters.

Lemma map_processWorkflow {B : Type} (col : row -> B) (g : parameterRequest -> B)
    (wf : workflow) :
  (forall stage task p automationText taskObj isLastParam,
      col (makeRow (buildTables wf) (buildTaskMap wf) stage task p automationText taskObj
             isLastParam) = g p) ->
  map col (processWorkflow wf []) = map g (emitted_parameters wf).
Proof.
  intros Hcol. rewrite processWorkflow_rows. simpl.
  unfold emitted_parameters, all_task_parameters.
  by rewrite !map_app, (map_stage_rows col g _ _ Hcol), (map_cjf_rows col g _ _ Hcol).
Qed.

Lemma map_csvRows {B : Type} (col : row -> B) (g : parameterRequest -> B)
    (jsonObjects : list workflow) :
  (forall tb taskMap stage task p automationText taskObj isLastParam,
      col (makeRow tb taskMap stage task p automationText taskObj isLastParam) = g p) ->
  map col (csvRows jsonObjects) = map g (flat_map emitted_parameters jsonObjects).
Proof.
  intros Hcol. unfold csvRows.
  rewrite (foldl_appending (fun rows wf => processWorkflow wf rows)
             (fun wf => processWorkflow wf [])) by (intros; apply processWorkflow_app).
  simpl. induction jsonObjects as [|wf rest IH]; simpl; [done |].
  rewrite !map_app, IH. f_equal. apply map_processWorkflow. intros. apply Hcol.
Qed.

(** X4: the records of a batch follow its parameters: definition by
    definition, the parameters of every task in stage and task order,
    then the top-level ones; each record shows its parameter's label as
    Instruction Title, its type (or ["N/A"]) and whether it is
    mandatory. *)
Theorem csvRows_follow_parameters (jsonObjects : list workflow) :
  map (fun r => (row_get r "Instruction Title", row_get r "Activity / Parameter Type",
                 row_get r "Field Type"))
    (csvRows jsonObjects)
  = map (fun p => (p_label p, or_else (p_type p) (JStr "N/A"),
                   JStr (if p_mandatory p then "Mandatory" else "Optional")))
      (flat_map emitted_parameters jsonObjects).
Proof. by apply map_csvRows. Qed.

(** ** The assembled list *)

Section AssembledList.

Lemma filter_partition_length {A} (q a : A -> bool) (l : list A) :
  length (List.filter q (List.filter a l ++ List.filter (fun x => negb (a x)) l))
  = length (List.filter q l).
Proof.
  rewrite List.filter_app, length_app.
  induction l as [|x l IH]; simpl; [done |].
  destruct (a x); simpl; destruct (q x); simpl; lia.
Qed.

Lemma Forall_imap_rows (P : row -> Prop) (f : nat -> parameterRequest -> row) params :
  (forall idx p, P (f idx p)) -> Forall P (imap f params).
Proof.
  intros Hf. apply Forall_lookup. intros i r Hr.
  rewrite list_lookup_imap in Hr.
  destruct (params !! i) as [p |]; simpl in Hr; [| done].
  injection Hr as <-. apply Hf.
Qed.

Lemma Forall_task_rows (P : row -> Prop) wf tb taskMap st tk :
  (forall p isLastParam,
      P (makeRow tb taskMap (s_name st) (t_name tk) p (buildAutomationText wf tb tk)
           (Some tk) isLastParam)) ->
  Forall P (task_rows wf tb taskMap st tk).
Proof.
  intros HP. unfold task_rows, push_task_rows. rewrite fold_indexed_push. simpl.
  apply Forall_imap_rows. intros idx p. apply HP.
Qed.

Lemma Forall_cjf_rows (P : row -> Prop) wf tb taskMap :
  (forall p isLastParam,
      P (makeRow tb taskMap (JStr "Create Job Form") (p_label p) p "" None isLastParam)) ->
  Forall P (cjf_rows wf tb taskMap).
Proof.
  intros HP. unfold cjf_rows, push_cjf_rows. rewrite fold_indexed_push. simpl.
  apply Forall_imap_rows. intros idx p. apply HP.
Qed.

Lemma Forall_concat_map {A} (P : row -> Prop) (f : A -> list row) (l : list A) :
  Forall (fun x => Forall P (f x)) l -> Forall P (concat (map f l)).
Proof.
  induction 1 as [|x l Hx _ IH]; simpl; [constructor |]. by apply Forall_app.
Qed.

Lemma filter_all {A} (q : A -> bool) (l : list A) :
  Forall (fun x => q x = true) l ->
  List.filter q l = l /\ List.filter (fun x => negb (q x)) l = [].
Proof.
  induction 1 as [|x l Hx _ [IH1 IH2]]; simpl; [done |].
  by rewrite Hx, IH1, IH2.
Qed.

Lemma filter_none {A} (q : A -> bool) (l : list A) :
  Forall (fun x => q x = false) l ->
  List.filter q l = [] /\ List.filter (fun x => negb (q x)) l = l.
Proof.
  induction 1 as [|x l Hx _ [IH1 IH2]]; simpl; [done |].
  by rewrite Hx, IH1, IH2.
Qed.

Lemma csvRows_unfold (jsonObjects : list workflow) :
  csvRows jsonObjects
  = concat (map (fun wf => stage_rows wf ++ cjf_rows wf (buildTables wf) (buildTaskMap wf))
              jsonObjects).
Proof.
  unfold csvRows.
  rewrite (foldl_appending (fun rows wf => processWorkflow wf rows)
             (fun wf => processWorkflow wf [])) by (intros; apply processWorkflow_app).
  simpl. f_equal. apply map_ext. intros wf. by rewrite processWorkflow_rows.
Qed.

Lemma stage_rows_not_cjf wf :
  no_stage_named_cjf wf -> Forall (fun r => is_cjf r = false) (stage_rows wf).
Proof.
  intros Hwf. unfold stage_rows. apply Forall_concat_map.
  eapply Forall_impl; [exact Hwf |]. intros st Hst. simpl in Hst.
  apply Forall_concat_map, Forall_forall. intros tk _.
  apply Forall_task_rows. intros p isLastParam.
  apply is_cjf_false. exact Hst.
Qed.

Lemma cjf_rows_cjf wf tb taskMap :
  Forall (fun r => is_cjf r = true) (cjf_rows wf tb taskMap).
Proof. apply Forall_cjf_rows. intros p isLastParam. reflexivity. Qed.

Lemma filter_concat_map {A B} (q : B -> bool) (f : A -> list B) (l : list A) :
  List.filter q (concat (map f l)) = concat (map (fun x => List.filter q (f x)) l).
Proof.
  induction l as [|x l IH]; simpl; [done |]. by rewrite List.filter_app, IH.
Qed.

End AssembledList.

(** X5: when no stage bears the name ["Create Job Form"], the assembled
    list is the creation-form records of all definitions, in batch
    order, followed by the stage records of all definitions, in batch
    order. *)
Theorem sortedRows_creation_forms_first (jsonObjects : list workflow) :
  Forall no_stage_named_cjf jsonObjects ->
  sortedRows jsonObjects
  = concat (map (fun wf => cjf_rows wf (buildTables wf) (buildTaskMap wf)) jsonObjects)
    ++ concat (map stage_rows jsonObjects).
Proof.
  intros Hbatch. unfold sortedRows. rewrite csvRows_unfold, !filter_concat_map.
  f_equal; f_equal; apply List.map_ext_Forall; eapply Forall_impl; try exact Hbatch;
    intros wf Hwf; simpl in *; rewrite List.filter_app.
  - rewrite (proj1 (filter_none _ _ (stage_rows_not_cjf wf Hwf))).
    by rewrite (proj1 (filter_all _ _ (cjf_rows_cjf wf _ _))).
  - rewrite (proj2 (filter_none _ _ (stage_rows_not_cjf wf Hwf))).
    by rewrite (proj2 (filter_all _ _ (cjf_rows_cjf wf _ _))), app_nil_r.
Qed.

Lemma sortedRows_creation_forms_first_witness :
  sortedRows Samples.mixed_batch
  = concat (map (fun wf => cjf_rows wf (buildTables wf) (buildTaskMap wf))
              Samples.mixed_batch)
    ++ concat (map stage_rows Samples.mixed_batch).
Proof.
  apply sortedRows_creation_forms_first.
  repeat constructor; simpl; discriminate.
Defined.

Section AssembledShape.

Lemma csvRows_length (jsonObjects : list workflow) :
  length (csvRows jsonObjects) = length (flat_map emitted_parameters jsonObjects).
Proof.
  pose proof (map_csvRows (fun _ => tt) (fun _ => tt) jsonObjects (fun _ _ _ _ _ _ _ _ => eq_refl))
    as Hmap.
  apply (f_equal (@length unit)) in Hmap. by rewrite !length_map in Hmap.
Qed.

Lemma sortedRows_permutation (jsonObjects : list workflow) :
  Permutation (sortedRows jsonObjects) (csvRows jsonObjects).
Proof. apply filter_split_permutation. Qed.

Lemma Forall_sortedRows (P : row -> Prop) (jsonObjects : list workflow) :
  Forall P (csvRows jsonObjects) -> Forall P (sortedRows jsonObjects).
Proof.
  intros Hrows. unfold sortedRows.
  apply Forall_app; split; apply List.Forall_forall; intros r [Hr _]%List.filter_In;
    by apply (proj1 (List.Forall_forall _ _) Hrows).
Qed.

Lemma Forall_csvRows (P : row -> Prop) (jsonObjects : list workflow) :
  (forall tb taskMap stage task p automationText taskObj isLastParam,
      P (makeRow tb taskMap stage task p automationText taskObj isLastParam)) ->
  Forall P (csvRows jsonObjects).
Proof.
  intros HP. rewrite csvRows_unfold.
  apply Forall_concat_map, Forall_forall. intros wf _. apply Forall_app. split.
  - apply Forall_concat_map, Forall_forall. intros st _.
    apply Forall_concat_map, Forall_forall. intros tk _.
    apply Forall_task_rows. intros. apply HP.
  - apply Forall_cjf_rows. intros. apply HP.
Qed.

End AssembledShape.

(** X6: the assembled list has one record per parameter of the batch, a
    task without parameters adding none, and every record lists the same
    twenty-one columns, which are the header of the preview table as
    soon as there is a record. *)
Theorem sortedRows_shape (jsonObjects : list workflow) :
  length (sortedRows jsonObjects) = length (flat_map emitted_parameters jsonObjects)
  /\ Forall (fun r => map fst r = columns) (sortedRows jsonObjects)
  /\ tableColumns (sortedRows jsonObjects)
     = match flat_map emitted_parameters jsonObjects with
       | [] => []
       | _ => columns
       end.
Proof.
  assert (Hlen : length (sortedRows jsonObjects)
                 = length (flat_map emitted_parameters jsonObjects)).
  { rewrite <- csvRows_length. apply Permutation_length, sortedRows_permutation. }
  assert (Hcols : Forall (fun r => map fst r = columns) (sortedRows jsonObjects)).
  { apply Forall_sortedRows, Forall_csvRows. reflexivity. }
  split; [exact Hlen |]. split; [exact Hcols |].
  destruct (sortedRows jsonObjects) as [|r rows];
    destruct (flat_map emitted_parameters jsonObjects); try done.
  simpl. by inversion Hcols.
Qed.

(** ** Filters and validations of a record *)

(** X7: the Filters column of a record is the placeholder exactly when
    its parameter has no filter field, and the Validations column
    exactly when none of its validation groups has an item or a custom
    payload; a parameter with validation groups that are all empty shows
    ["N/A"]. *)
Theorem filters_validations_placeholder
    (tb : tables) (taskMap : gmap string taskInfo) (stage task : jsval)
    (param : parameterRequest) (automationText : string)
    (taskObj : option taskRequest) (isLastParam : bool) :
  let r := makeRow tb taskMap stage task param automationText taskObj isLastParam in
  (row_get r "Filters" = JStr "N/A" <-> items (param_filter_fields param) = [])
  /\ (row_get r "Validations" = JStr "N/A"
      <-> forallb silent_group (items (p_validations param)) = true).
Proof.
  simpl. split.
  - pose proof (getFiltersText_cases tb param) as Hcases.
    destruct (items (param_filter_fields param)) as [|f fs].
    + by rewrite Hcases.
    + destruct (headed_or_text _ Hcases) as [-> Hne]. split; [| done].
      intros [= Htext]. done.
  - pose proof (getValidationsText_cases tb param) as Hcases.
    unfold has_validation in Hcases.
    destruct (forallb silent_group (items (p_validations param))); simpl in Hcases.
    + by rewrite Hcases.
    + destruct (headed_or_text _ Hcases) as [-> Hne]. split; [| done].
      intros [= Htext]. done.
Qed.

(** ** The statistics *)

Section Statistics.

Lemma bump_filter {A} (q : A -> bool) (x : A) (l : list A) n :
  (bump (q x) n + length (List.filter q l) = n + length (List.filter q (x :: l)))%nat.
Proof. simpl. destruct (q x); simpl; lia. Qed.

Lemma tally_from (acc : tally) (rows : list row) :
  Forall countable_row rows ->
  foldl (fun acc r => match acc with Some a => tally_row a r | None => None end)
    (Some acc) rows
  = Some {| stageSet := foldl add_stage (stageSet acc) rows;
            mandatoryCount := mandatoryCount acc + length (List.filter counts_mandatory rows);
            automationCount :=
              automationCount acc + length (List.filter counts_automation rows);
            dependencyCount :=
              dependencyCount acc + length (List.filter counts_dependency rows);
            validationCount :=
              validationCount acc + length (List.filter counts_validation rows) |}.
Proof.
  intros Hrows. revert acc.
  induction Hrows as [|r rows [fieldType Hr] _ IH]; intros acc.
  - simpl. destruct acc. simpl. f_equal. f_equal; lia.
  - cbn [foldl]. unfold tally_row at 2. rewrite Hr, IH. cbn [stageSet mandatoryCount
      automationCount dependencyCount validationCount].
    f_equal. f_equal.
    + rewrite <- (bump_filter counts_mandatory r rows).
      unfold counts_mandatory at 2. by rewrite Hr.
    + apply (bump_filter counts_automation).
    + apply (bump_filter counts_dependency).
    + apply (bump_filter counts_validation).
Qed.

Lemma stats_of_rows (rows : list row) :
  Forall countable_row rows ->
  stats rows
  = Some {| totalRows := length rows;
            stages := length (stage_set rows);
            mandatory := length (List.filter counts_mandatory rows);
            automations := length (List.filter counts_automation rows);
            dependencies := length (List.filter counts_dependency rows);
            validations := length (List.filter counts_validation rows) |}.
Proof.
  intros Hrows. unfold stats, tally_rows. by rewrite (tally_from empty_tally rows Hrows).
Qed.

(** A row whose Field Type is truthy and no text makes the loop throw,
    whatever rows surround it. *)
Lemma tally_stays_failed (rows : list row) :
  foldl (fun acc r => match acc with Some a => tally_row a r | None => None end) None rows
  = None.
Proof. by induction rows. Qed.

End Statistics.

Section StageSet.

Lemma set_add_elem v s x : x ∈ set_add v s <-> x = v \/ x ∈ s.
Proof.
  unfold set_add. case_bool_decide as Hv.
  - split; [by right | intros [-> | ?]; done].
  - rewrite elem_of_app, list_elem_of_singleton. tauto.
Qed.

Lemma set_add_NoDup v s : NoDup s -> NoDup (set_add v s).
Proof.
  intros Hs. unfold set_add. case_bool_decide as Hv; [done |].
  apply NoDup_app. split; [done |]. split; [| apply NoDup_singleton].
  intros x Hx ->%list_elem_of_singleton. done.
Qed.

Lemma stage_cells_cons r rows :
  stage_cells (r :: rows)
  = if truthy (row_get r "Stage Name") then row_get r "Stage Name" :: stage_cells rows
    else stage_cells rows.
Proof. unfold stage_cells. simpl. by destruct (truthy _). Qed.

Lemma fold_add_stage_elem rows s x :
  x ∈ foldl add_stage s rows <-> x ∈ s \/ x ∈ stage_cells rows.
Proof.
  revert s. induction rows as [|r rows IH]; intros s.
  - simpl. unfold stage_cells. simpl. rewrite elem_of_nil. tauto.
  - cbn [foldl]. rewrite IH, stage_cells_cons. unfold add_stage.
    destruct (truthy (row_get r "Stage Name")).
    + rewrite set_add_elem, elem_of_cons. tauto.
    + tauto.
Qed.

Lemma fold_add_stage_NoDup rows s : NoDup s -> NoDup (foldl add_stage s rows).
Proof.
  revert s. induction rows as [|r rows IH]; intros s Hs; [done |].
  cbn [foldl]. apply IH. unfold add_stage.
  destruct (truthy _); [by apply set_add_NoDup | done].
Qed.

(** The size of the set is the number of distinct truthy stage cells. *)
Lemma stage_set_length rows :
  length (stage_set rows) = length (remove_dups (stage_cells rows)).
Proof.
  apply Permutation_length, NoDup_Permutation.
  - apply fold_add_stage_NoDup, NoDup_nil_2.
  - apply NoDup_remove_dups.
  - intros x. unfold stage_set.
    rewrite fold_add_stage_elem, elem_of_remove_dups, elem_of_nil. tauto.
Qed.

Lemma stage_cells_permutation rows rows' :
  Permutation rows rows' -> Permutation (stage_cells rows) (stage_cells rows').
Proof.
  intros Hperm. unfold stage_cells.
  induction Hperm as [| r l l' _ IH | r r' l | l l' l'' _ IH1 _ IH2]; simpl.
  - done.
  - destruct (truthy _); [by apply perm_skip | done].
  - destruct (truthy (row_get r "Stage Name")), (truthy (row_get r' "Stage Name"));
      try done. apply perm_swap.
  - by etransitivity.
Qed.

Lemma stage_set_permutation rows rows' :
  Permutation rows rows' -> length (stage_set rows) = length (stage_set rows').
Proof.
  intros Hperm%stage_cells_permutation. rewrite !stage_set_length.
  apply Permutation_length, NoDup_Permutation; try apply NoDup_remove_dups.
  intros x. rewrite !elem_of_remove_dups. by rewrite Hperm.
Qed.

End StageSet.

Section CountsOfABatch.

Lemma filter_length_map {A} (q : A -> bool) (l : list A) :
  length (List.filter q l) = length (List.filter (fun b : bool => b) (map q l)).
Proof. induction l as [|x l IH]; simpl; [done |]. destruct (q x); simpl; lia. Qed.

Lemma buildAutomationText_cases wf tb tk :
  if has_automation tk then starts_with "A" (buildAutomationText wf tb tk)
  else buildAutomationText wf tb tk = "".
Proof.
  unfold has_automation, buildAutomationText.
  destruct (t_automationRequests tk) as [[|auto rest] |]; simpl; try done.
  apply join_starts_with. unfold automation_block, starts_with. simpl.
  eexists. reflexivity.
Qed.

Lemma lowered_field_type_makeRow tb taskMap stage task p automationText taskObj isLastParam :
  lowered_field_type (makeRow tb taskMap stage task p automationText taskObj isLastParam)
  = Some (if p_mandatory p then "mandatory" else "optional").
Proof. unfold lowered_field_type. simpl. by destruct (p_mandatory p). Qed.

Lemma counts_mandatory_makeRow tb taskMap stage task p automationText taskObj isLastParam :
  counts_mandatory (makeRow tb taskMap stage task p automationText taskObj isLastParam)
  = p_mandatory p.
Proof.
  unfold counts_mandatory. rewrite lowered_field_type_makeRow. by destruct (p_mandatory p).
Qed.

Lemma present_and_not_headed s placeholder :
  nonempty s = true -> s <> placeholder -> present_and_not (JStr s) placeholder = true.
Proof.
  intros Hs Hne. unfold present_and_not, strict_eq. simpl. unfold nonempty in Hs.
  rewrite Hs. simpl. apply negb_true_iff, bool_decide_eq_false. congruence.
Qed.

Lemma counts_validation_makeRow tb taskMap stage task p automationText taskObj isLastParam :
  counts_validation (makeRow tb taskMap stage task p automationText taskObj isLastParam)
  = has_validation p.
Proof.
  unfold counts_validation. simpl.
  pose proof (getValidationsText_cases tb p) as Hcases.
  destruct (has_validation p).
  - destruct (headed_or_text _ Hcases) as [-> Hne].
    apply present_and_not_headed; [| done].
    by destruct (getValidationsText tb p).
  - by rewrite Hcases.
Qed.

Lemma counts_dependency_last tb taskMap stage task p automationText tk :
  counts_dependency (makeRow tb taskMap stage task p automationText (Some tk) true)
  = has_prerequisite tk.
Proof.
  unfold counts_dependency, has_prerequisite, getDependenciesText. simpl.
  unfold getDependenciesText.
  by destruct (t_prerequisiteTaskIds tk) as [[|taskId rest] |].
Qed.

Lemma counts_automation_last wf tb taskMap stage task p tk :
  counts_automation
    (makeRow tb taskMap stage task p (buildAutomationText wf tb tk) (Some tk) true)
  = has_automation tk.
Proof.
  unfold counts_automation. simpl. rewrite or_text_empty.
  pose proof (buildAutomationText_cases wf tb tk) as Hcases.
  destruct (has_automation tk).
  - destruct Hcases as [t ->]. by apply present_and_not_headed.
  - by rewrite Hcases.
Qed.

(** A count that only a task's last record can raise. *)
Lemma count_task_rows (q : row -> bool) (h : bool) wf tb taskMap st tk :
  (forall p automationText taskObj,
      q (makeRow tb taskMap (s_name st) (t_name tk) p automationText taskObj false) = false) ->
  (forall p,
      q (makeRow tb taskMap (s_name st) (t_name tk) p (buildAutomationText wf tb tk)
           (Some tk) true) = h) ->
  length (List.filter q (task_rows wf tb taskMap st tk))
  = length (List.filter (fun t => has_parameter t && h) [tk]).
Proof.
  intros Hdown Hlast. unfold has_parameter. simpl.
  destruct (t_parameterRequests tk) as [params |] eqn:Hp;
    [| by unfold task_rows, push_task_rows; rewrite Hp].
  destruct params as [|p init _] using rev_ind;
    [by unfold task_rows, push_task_rows; rewrite Hp |].
  rewrite (task_rows_split tb taskMap wf st tk init p Hp), List.filter_app.
  replace (List.filter q (map _ init)) with (@nil row).
  - simpl. rewrite Hlast. destruct (init ++ [p]) eqn:Hl; [by destruct init |].
    simpl. by destruct h.
  - symmetry. clear Hp. induction init as [|x init IH]; simpl; [done |]. by rewrite Hdown.
Qed.

Lemma count_concat_map {A C} (q : C -> bool) (h : A -> bool) (f : A -> list C) (l : list A) :
  (forall x, length (List.filter q (f x)) = length (List.filter h [x])) ->
  length (List.filter q (concat (map f l))) = length (List.filter h l).
Proof.
  intros Hf. induction l as [|x l IH]; simpl; [done |].
  rewrite List.filter_app, length_app, IH, Hf. simpl. destruct (h x); simpl; lia.
Qed.

Lemma count_flat {A C} (q : C -> bool) (f : A -> list C) (l : list A) :
  length (List.filter q (concat (map f l)))
  = length (List.filter q (flat_map f l)).
Proof. by rewrite List.flat_map_concat_map. Qed.

(** The task-level count of the records of a definition. *)
Lemma count_processWorkflow (q : row -> bool) (h : taskRequest -> bool) wf :
  (forall tb taskMap stage task p automationText taskObj,
      q (makeRow tb taskMap stage task p automationText taskObj false) = false) ->
  (forall tb taskMap stage task p, q (makeRow tb taskMap stage task p "" None true) = false) ->
  (forall tb taskMap stage task p tk,
      q (makeRow tb taskMap stage task p (buildAutomationText wf tb tk) (Some tk) true)
      = h tk) ->
  length (List.filter q (stage_rows wf ++ cjf_rows wf (buildTables wf) (buildTaskMap wf)))
  = length (List.filter (fun tk => has_parameter tk && h tk) (all_tasks wf)).
Proof.
  intros Hdown Hcjf Hlast. rewrite List.filter_app, length_app.
  replace (List.filter q (cjf_rows wf _ _)) with (@nil row).
  - simpl. rewrite Nat.add_0_r. unfold stage_rows, all_tasks.
    induction (items (wf_stageRequests wf)) as [|st stages IH]; simpl; [done |].
    rewrite !List.filter_app, !length_app, IH. f_equal.
    induction (items (s_taskRequests st)) as [|tk tasks IHt]; simpl; [done |].
    rewrite List.filter_app, length_app, IHt.
    rewrite (count_task_rows q (h tk)); [| intros; apply Hdown | intros; apply Hlast].
    simpl. destruct (has_parameter tk && h tk); simpl; lia.
  - symmetry. apply filter_none.
    apply Forall_cjf_rows. intros p isLastParam.
    destruct isLastParam; [apply Hcjf | apply Hdown].
Qed.

End CountsOfABatch.

Section StatisticsOfABatch.

Context (jsonObjects : list workflow).

Lemma sortedRows_countable : Forall countable_row (sortedRows jsonObjects).
Proof.
  apply Forall_sortedRows, Forall_csvRows. intros. unfold countable_row.
  by rewrite lowered_field_type_makeRow.
Qed.

Lemma count_sortedRows (q : row -> bool) :
  length (List.filter q (sortedRows jsonObjects))
  = length (List.filter q (csvRows jsonObjects)).
Proof. apply filter_partition_length. Qed.

Lemma count_by_parameter (q : row -> bool) (g : parameterRequest -> bool) :
  (forall tb taskMap stage task p automationText taskObj isLastParam,
      q (makeRow tb taskMap stage task p automationText taskObj isLastParam) = g p) ->
  length (List.filter q (sortedRows jsonObjects))
  = length (List.filter g (flat_map emitted_parameters jsonObjects)).
Proof.
  intros Hq. rewrite count_sortedRows, (filter_length_map q), (filter_length_map g).
  by rewrite (map_csvRows q g jsonObjects Hq).
Qed.

Lemma count_by_task (q : row -> bool) (h : taskRequest -> bool) :
  (forall tb taskMap stage task p automationText taskObj,
      q (makeRow tb taskMap stage task p automationText taskObj false) = false) ->
  (forall tb taskMap stage task p, q (makeRow tb taskMap stage task p "" None true) = false) ->
  (forall wf tb taskMap stage task p tk,
      q (makeRow tb taskMap stage task p (buildAutomationText wf tb tk) (Some tk) true)
      = h tk) ->
  length (List.filter q (sortedRows jsonObjects))
  = length (List.filter (fun tk => has_parameter tk && h tk)
              (flat_map all_tasks jsonObjects)).
Proof.
  intros Hdown Hcjf Hlast. rewrite count_sortedRows, csvRows_unfold.
  induction jsonObjects as [|wf rest IH]; simpl; [done |].
  rewrite (List.filter_app q (stage_rows wf ++ _)), (List.filter_app _ (all_tasks wf)).
  rewrite !length_app, IH. f_equal.
  apply (count_processWorkflow q h wf Hdown Hcjf). intros. apply Hlast.
Qed.

(** The statistics of the assembled list, in terms of the batch. *)
Lemma stats_sortedRows :
  stats (sortedRows jsonObjects)
  = Some {| totalRows := length (flat_map emitted_parameters jsonObjects);
            stages := length (remove_dups (stage_cells (csvRows jsonObjects)));
            mandatory :=
              length (List.filter p_mandatory (flat_map emitted_parameters jsonObjects));
            automations :=
              length (List.filter (fun tk => has_parameter tk && has_automation tk)
                        (flat_map all_tasks jsonObjects));
            dependencies :=
              length (List.filter (fun tk => has_parameter tk && has_prerequisite tk)
                        (flat_map all_tasks jsonObjects));
            validations :=
              length (List.filter has_validation
                        (flat_map emitted_parameters jsonObjects)) |}.
Proof.
  rewrite (stats_of_rows _ sortedRows_countable). f_equal. f_equal.
  - rewrite <- csvRows_length. apply Permutation_length, sortedRows_permutation.
  - rewrite <- stage_set_length. apply stage_set_permutation, sortedRows_permutation.
  - apply count_by_parameter. intros. apply counts_mandatory_makeRow.
  - apply count_by_task; intros; try reflexivity. apply counts_automation_last.
  - apply count_by_task; intros; try reflexivity. apply counts_dependency_last.
  - apply count_by_parameter. intros. apply counts_validation_makeRow.
Qed.

End StatisticsOfABatch.

(** X8: the statistics never fail on an assembled list, and three of
    them count parameters: the rows are the parameters of the batch, the
    mandatory fields those flagged mandatory, and the validations those
    with a validation group that has an item or a custom payload. *)
Theorem stats_count_parameters (jsonObjects : list workflow) :
  exists s, stats (sortedRows jsonObjects) = Some s
    /\ totalRows s = length (flat_map emitted_parameters jsonObjects)
    /\ mandatory s
       = length (List.filter p_mandatory (flat_map emitted_parameters jsonObjects))
    /\ validations s
       = length (List.filter has_validation (flat_map emitted_parameters jsonObjects)).
Proof. eexists. split; [apply stats_sortedRows |]. by repeat split. Qed.

(** X9: two statistics count tasks, not records: the dependencies are
    the tasks with a prerequisite, the automations the tasks with an
    automation rule, in both cases only tasks that have at least one
    parameter; a task without parameters is counted by neither. *)
Theorem stats_count_tasks (jsonObjects : list workflow) :
  exists s, stats (sortedRows jsonObjects) = Some s
    /\ dependencies s
       = length (List.filter (fun tk => has_parameter tk && has_prerequisite tk)
                   (flat_map all_tasks jsonObjects))
    /\ automations s
       = length (List.filter (fun tk => has_parameter tk && has_automation tk)
                   (flat_map all_tasks jsonObjects)).
Proof. eexists. split; [apply stats_sortedRows |]. by repeat split. Qed.

(** X10: the statistics do not depend on the final reordering, and the
    stage count is the number of distinct non-empty Stage Name values
    among the records, the creation form counting as a stage. *)
Theorem stats_order_independent (jsonObjects : list workflow) :
  stats (sortedRows jsonObjects) = stats (csvRows jsonObjects)
  /\ exists s, stats (sortedRows jsonObjects) = Some s
       /\ stages s = length (remove_dups (stage_cells (sortedRows jsonObjects))).
Proof.
  split.
  - rewrite (stats_of_rows _ (sortedRows_countable jsonObjects)).
    rewrite (stats_of_rows (csvRows jsonObjects)).
    + f_equal. f_equal; try apply count_sortedRows.
      * apply Permutation_length, sortedRows_permutation.
      * apply stage_set_permutation, sortedRows_permutation.
    + apply Forall_csvRows. intros. unfold countable_row.
      by rewrite lowered_field_type_makeRow.
  - eexists. split; [apply (stats_of_rows _ (sortedRows_countable jsonObjects)) |].
    apply stage_set_length.
Qed.

(** ** The shape of a humanized text *)

Section HumanizedShape.

Lemma capital_not_blank c : is_upper c = true -> is_blank c = false.
Proof. destruct c as [[] [] [] [] [] [] [] []]; try reflexivity; discriminate. Qed.

Lemma swap_space c :
  is_space (if (c =? "_")%char then " "%char else c) = is_blank c.
Proof. destruct c as [[] [] [] [] [] [] [] []]; reflexivity. Qed.

Lemma blank_pipeline_start s :
  all_chars is_space (underscores_to_spaces (space_before_capitals s))
  = all_chars is_blank s.
Proof.
  unfold underscores_to_spaces. induction s as [|c t IH]; simpl; [done |].
  destruct (is_upper c) eqn:Hc; simpl; rewrite swap_space, IH; [| done].
  by rewrite (capital_not_blank c Hc).
Qed.

Lemma collapse_all_space s :
  all_chars is_space (collapse_spaces s) = all_chars is_space s.
Proof.
  induction s as [|c t IH]; simpl; [done |].
  destruct (is_space c) eqn:Hc; simpl; [| by rewrite Hc].
  by destruct (starts_with_space t); simpl; rewrite IH.
Qed.

Lemma trim_start_empty s : trim_start s = "" <-> all_chars is_space s = true.
Proof.
  induction s as [|c t IH]; simpl; [done |].
  destruct (is_space c); simpl; [exact IH | done].
Qed.

Lemma trim_end_nonempty c t : is_space c = false -> trim_end (String c t) <> "".
Proof. intros Hc. simpl. destruct (trim_end t); by rewrite ?Hc. Qed.

Lemma trim_empty s : trim s = "" <-> all_chars is_space s = true.
Proof.
  rewrite <- trim_start_empty. unfold trim. split; [| by intros ->].
  pose proof (trim_start_start s) as Hstart.
  destruct (trim_start s) as [|c t]; [done |].
  intros Htrim. by apply trim_end_nonempty in Htrim.
Qed.

Lemma map_chars_empty f s : map_chars f s = "" <-> s = "".
Proof. by destruct s. Qed.

Lemma capitalize_first_empty s : capitalize_first s = "" <-> s = "".
Proof. destruct s as [|c t]; simpl; [done |]. by destruct (is_word c). Qed.

Lemma capitalize_first_tail s :
  match capitalize_first s, s with
  | String _ t, String _ t' => t = t'
  | "", "" => True
  | _, _ => False
  end.
Proof. destruct s as [|c t]; simpl; [done |]. by destruct (is_word c). Qed.

End HumanizedShape.

(** X11: the text [formatKey] returns has no underscore, no white space
    other than single blanks between words, none at either end, and no
    capital letter after its first character; it is empty exactly when
    the key consists of white space and underscores only. *)
Theorem formatKey_shape (key : string) :
  let text := formatKey key in
  all_chars no_underscore text = true
  /\ blanks_single text = true
  /\ starts_with_space text = false
  /\ ends_with_space text = false
  /\ match text with
     | "" => True
     | String _ rest => all_chars no_capital rest = true
     end
  /\ (text = "" <-> all_chars is_blank key = true).
Proof.
  simpl.
  set (l := toLowerCase (trim (collapse_spaces
              (underscores_to_spaces (space_before_capitals key))))).
  assert (Hkey : formatKey key = capitalize_first l).
  { unfold formatKey. by destruct key. }
  pose proof (humanized_pipeline key) as [Hl Hp Hb Hs He]. fold l in Hl, Hp, Hb, Hs, He.
  assert (Hempty : l = "" <-> all_chars is_blank key = true).
  { unfold l, toLowerCase.
    by rewrite map_chars_empty, trim_empty, collapse_all_space, blank_pipeline_start. }
  rewrite Hkey, capitalize_first_empty.
  destruct l as [|c t]; [simpl; by repeat split; try apply Hempty |].
  simpl in Hl, Hp, Hb, Hs, He |- *.
  apply andb_true_iff in Hl as [Hlc Hlt], Hp as [Hpc Hpt].
  rewrite Hs in Hb. simpl in Hb.
  destruct (is_word c); simpl.
  - rewrite upper_char_underscore, upper_char_space, Hpc, Hpt, Hs, Hb. simpl.
    repeat split; try done; try apply Hempty.
    destruct t; [done | exact He].
  - rewrite Hpc, Hpt, Hs, Hb. simpl.
    repeat split; try done; try apply Hempty.
    destruct t; [done | exact He].
Qed.

(** ** What the reference index holds *)

Section TableProjections.

Context {M : Type} (proj : tables -> M).

Lemma for_each_preserves {A} (step : A -> tables -> tables) :
  (forall x tb, proj (step x tb) = proj tb) ->
  forall xs tb, proj (for_each xs step tb) = proj tb.
Proof.
  intros Hstep. unfold for_each.
  induction xs as [|x xs IH]; intros tb; simpl; [done |]. by rewrite IH, Hstep.
Qed.

Lemma when_preserves c (step : tables -> tables) :
  (forall tb, proj (step tb) = proj tb) -> forall tb, proj (when c step tb) = proj tb.
Proof. intros Hstep tb. unfold when. by destruct c. Qed.

Lemma for_each_fold {A E} (ins : M -> E -> M) (ent : A -> list E)
    (step : A -> tables -> tables) :
  (forall x tb, proj (step x tb) = foldl ins (proj tb) (ent x)) ->
  forall xs tb, proj (for_each xs step tb) = foldl ins (proj tb) (flat_map ent xs).
Proof.
  intros Hstep. unfold for_each.
  induction xs as [|x xs IH]; intros tb; simpl; [done |].
  by rewrite IH, Hstep, foldl_app.
Qed.

(** The writes that leave the projection alone. *)
Hypothesis proj_set_option : forall k v tb, proj (set_option k v tb) = proj tb.
Hypothesis proj_set_propertyName : forall k v tb, proj (set_propertyName k v tb) = proj tb.

Lemma register_option_preserves o tb : proj (register_option o tb) = proj tb.
Proof.
  destruct o as [opt |]; [| done]. unfold register_option.
  rewrite !when_preserves; auto.
Qed.

Lemma register_choices_preserves cs tb : proj (register_choices cs tb) = proj tb.
Proof.
  destruct cs as [l |]; [| done]. unfold register_choices.
  apply for_each_preserves. intros c tb'. by apply when_preserves.
Qed.

Lemma register_filter_preserves f tb : proj (register_filter f tb) = proj tb.
Proof.
  unfold register_filter. rewrite when_preserves by auto.
  destruct (ff_field f) as [field |]; [| done].
  destruct (_ && _); [| done].
  destruct (present (ff_displayName f)); [auto |].
  destruct (present (ff_externalId f)); auto.
Qed.

Lemma register_property_validation_preserves pv tb :
  proj (register_property_validation pv tb) = proj tb.
Proof.
  unfold register_property_validation.
  assert (Hopts : proj (match vi_options pv with
                        | Some opts =>
                            for_each opts
                              (fun opt => when (truthy (c_id opt))
                                            (set_option (c_id opt) (display_name_label opt)))
                              tb
                        | None => tb
                        end) = proj tb).
  { destruct (vi_options pv); [| done].
    apply for_each_preserves. intros c tb'. by apply when_preserves. }
  destruct (truthy (vi_propertyId pv)); [| exact Hopts].
  rewrite when_preserves; auto.
Qed.

Lemma register_property_preserves p tb : proj (register_property p tb) = proj tb.
Proof. unfold register_property. by rewrite register_choices_preserves. Qed.

Lemma register_automation_preserves auto tb : proj (register_automation auto tb) = proj tb.
Proof.
  unfold register_automation. destruct (a_actionDetails auto); [| done].
  apply register_choices_preserves.
Qed.

End TableProjections.

Section TableFolds.

Context {M E : Type} (proj : tables -> M) (ins : M -> E -> M)
  (ent : parameterRequest -> list E).
Hypothesis proj_set_option : forall k v tb, proj (set_option k v tb) = proj tb.
Hypothesis proj_set_propertyName : forall k v tb, proj (set_propertyName k v tb) = proj tb.
Hypothesis proj_collectParam :
  forall p tb, proj (collectParam p tb) = foldl ins (proj tb) (ent p).

Lemma flat_map_flat_map {A B C} (f : B -> list C) (g : A -> list B) (l : list A) :
  flat_map f (flat_map g l) = flat_map (fun x => flat_map f (g x)) l.
Proof.
  induction l as [|x l IH]; simpl; [done |]. by rewrite List.flat_map_app, IH.
Qed.

(** A projection that only [collectParam] changes is a fold over the
    parameters in the order they are collected. *)
Lemma buildTables_fold wf :
  proj (buildTables wf)
  = foldl ins (proj empty_tables) (flat_map ent (collected_parameters wf)).
Proof.
  unfold buildTables, collected_parameters, all_task_parameters.
  rewrite List.flat_map_app, foldl_app, !flat_map_flat_map.
  rewrite (for_each_fold proj ins
             (fun st => flat_map (fun tk => flat_map ent (items (t_parameterRequests tk)))
                          (items (s_taskRequests st)))).
  - f_equal. rewrite (for_each_fold proj ins ent _ proj_collectParam). f_equal.
    rewrite !(for_each_preserves proj); try done;
      intros obj tb; apply for_each_preserves; intros p tb';
      by apply register_property_preserves.
  - intros st tb.
    apply (for_each_fold proj ins
             (fun tk => flat_map ent (items (t_parameterRequests tk)))).
    intros tk tb'.
    rewrite (for_each_preserves proj)
      by (intros auto tb''; by apply register_automation_preserves).
    apply (for_each_fold proj ins ent _ proj_collectParam).
Qed.

End TableFolds.

Section ParameterLabels.

Lemma parameterMap_collectParam p tb :
  parameterMap (collectParam p tb)
  = foldl (fun m (e : string * jsval) => <[e.1 := e.2]> m) (parameterMap tb)
      [(to_text (p_id p), p_label p)].
Proof.
  unfold collectParam. simpl.
  assert (Hrules : forall tb',
             parameterMap (match p_rules p with
                           | Some ((_ :: _) as rules) => for_each rules (register_rule p) tb'
                           | _ => tb'
                           end) = parameterMap tb').
  { intros tb'. destruct (p_rules p) as [[|r rs] |]; try done.
    apply (for_each_preserves parameterMap). intros r' tb''. unfold register_rule.
    by apply (for_each_preserves parameterMap). }
  rewrite Hrules.
  rewrite (for_each_preserves parameterMap).
  2:{ intros v tb'. apply (for_each_preserves parameterMap). intros pv tb''.
      by apply register_property_validation_preserves. }
  assert (Hfilters : forall tb',
             parameterMap (match param_filter_fields p with
                           | Some fields => for_each fields register_filter tb'
                           | None => tb'
                           end) = parameterMap tb').
  { intros tb'. destruct (param_filter_fields p); [| done].
    apply (for_each_preserves parameterMap). intros f tb''.
    by apply register_filter_preserves. }
  rewrite Hfilters.
  rewrite (for_each_preserves parameterMap); [done |].
  intros o tb'. by apply register_option_preserves.
Qed.

Lemma parameterMap_buildTables wf :
  parameterMap (buildTables wf)
  = foldl (fun m (e : string * jsval) => <[e.1 := e.2]> m) ∅
      (map (fun p => (to_text (p_id p), p_label p)) (collected_parameters wf)).
Proof.
  rewrite (buildTables_fold parameterMap
             (fun m (e : string * jsval) => <[e.1 := e.2]> m)
             (fun p => [(to_text (p_id p), p_label p)]));
    try done.
  apply parameterMap_collectParam.
Qed.

Lemma foldl_insert_other (l : list (string * jsval)) (m : gmap string jsval) k :
  Forall (fun e => e.1 <> k) l ->
  foldl (fun m (e : string * jsval) => <[e.1 := e.2]> m) m l !! k = m !! k.
Proof.
  intros Hl. revert m. induction Hl as [|e l He _ IH]; intros m; simpl; [done |].
  by rewrite IH, lookup_insert_ne.
Qed.

End ParameterLabels.

(** X12: a parameter's identifier resolves to its label in the parameter
    table of its definition, provided no parameter collected after it
    (top-level parameters first, then those of the tasks) has an
    identifier with the same text; with such a later parameter the later
    label wins. *)
Theorem parameterMap_resolves
    (wf : workflow) (before after : list parameterRequest) (p : parameterRequest) :
  collected_parameters wf = before ++ p :: after ->
  Forall (fun q => to_text (p_id q) <> to_text (p_id p)) after ->
  get (parameterMap (buildTables wf)) (p_id p) = p_label p.
Proof.
  intros Hsplit Hafter. unfold get.
  rewrite parameterMap_buildTables, Hsplit, map_app, foldl_app. simpl.
  rewrite foldl_insert_other; [by rewrite lookup_insert_eq |].
  apply List.Forall_map. eapply Forall_impl; [exact Hafter |]. done.
Qed.

Lemma parameterMap_resolves_witness :
  get (parameterMap (buildTables Samples.two_task_workflow)) (JStr "p2") = JStr "Batch".
Proof.
  apply (parameterMap_resolves Samples.two_task_workflow
           [Samples.text_parameter "p0" "Product"; Samples.text_parameter "p1" "Weight"]
           [Samples.text_parameter "p3" "Operator"] (Samples.text_parameter "p2" "Batch")).
  - reflexivity.
  - repeat constructor. simpl. discriminate.
Defined.

Section TableInvariants.

Context {M : Type} (proj : tables -> M) (Q : M -> Prop).
Hypothesis proj_set_option : forall k v tb, proj (set_option k v tb) = proj tb.
Hypothesis proj_set_propertyName : forall k v tb, proj (set_propertyName k v tb) = proj tb.
Hypothesis Q_collectParam : forall p tb, Q (proj tb) -> Q (proj (collectParam p tb)).

Lemma for_each_invariant {A} (step : A -> tables -> tables) :
  (forall x tb, Q (proj tb) -> Q (proj (step x tb))) ->
  forall xs tb, Q (proj tb) -> Q (proj (for_each xs step tb)).
Proof.
  intros Hstep. unfold for_each.
  induction xs as [|x xs IH]; intros tb Htb; simpl; [done |]. by apply IH, Hstep.
Qed.

(** A property of a projection that [collectParam] keeps holds of the
    tables of every definition. *)
Lemma buildTables_invariant wf : Q (proj empty_tables) -> Q (proj (buildTables wf)).
Proof.
  intros Hempty. unfold buildTables.
  apply for_each_invariant.
  - intros st tb Htb. apply for_each_invariant; [| exact Htb].
    intros tk tb' Htb'.
    rewrite (for_each_preserves proj)
      by (intros auto tb''; by apply register_automation_preserves).
    by apply for_each_invariant.
  - apply for_each_invariant; [exact Q_collectParam |].
    rewrite !(for_each_preserves proj); try done;
      intros obj tb; apply for_each_preserves; intros p tb';
      by apply register_property_preserves.
Qed.

End TableInvariants.

Section Visibility.

Lemma collectParam_rules p tb :
  collectParam p tb
  = match p_rules p with
    | Some ((_ :: _) as rules) => for_each rules (register_rule p) (before_rules p tb)
    | _ => before_rules p tb
    end.
Proof. reflexivity. Qed.

Lemma visibilityMap_before_rules p tb :
  visibilityMap (before_rules p tb) = visibilityMap tb.
Proof.
  unfold before_rules.
  rewrite (for_each_preserves visibilityMap).
  2:{ intros v tb'. apply (for_each_preserves visibilityMap). intros pv tb''.
      by apply register_property_validation_preserves. }
  assert (Hoptions :
            visibilityMap
              (for_each (param_options p) register_option
                 (set_propertyName (p_id p) (p_label p)
                    (set_parameter (p_id p) (p_label p) tb)))
            = visibilityMap tb).
  { rewrite (for_each_preserves visibilityMap); [done |].
    intros o tb'. by apply register_option_preserves. }
  destruct (param_filter_fields p); [| exact Hoptions].
  rewrite (for_each_preserves visibilityMap); [exact Hoptions |].
  intros f tb'. by apply register_filter_preserves.
Qed.

(** What one rule does to the visibility table: only the keys of the
    parameters it shows are written, each with a sentence. *)
Lemma register_rule_dom p r tb :
  dom (visibilityMap (register_rule p r tb))
  = foldl (fun (D : gset string) k => {[k]} ∪ D) (dom (visibilityMap tb))
      (map to_text (items (r_show_parameters r))).
Proof.
  unfold register_rule.
  generalize (visibility_sentence (p_label p)
                (join_values " / "
                   (map (fun inp => or_else (get (optionMap tb) inp) inp)
                      (items (r_input r))))).
  intros sentence. unfold for_each. revert tb.
  induction (items (r_show_parameters r)) as [|target targets IH]; intros tb; simpl;
    [done |].
  rewrite IH. simpl. by rewrite dom_insert_L.
Qed.

Lemma collectParam_dom p tb :
  dom (visibilityMap (collectParam p tb))
  = foldl (fun (D : gset string) k => {[k]} ∪ D) (dom (visibilityMap tb))
      (shown_targets p).
Proof.
  rewrite collectParam_rules, <- (visibilityMap_before_rules p tb). unfold shown_targets.
  destruct (p_rules p) as [[|r rs] |]; try done.
  apply (for_each_fold (fun tb => dom (visibilityMap tb))
           (fun (D : gset string) k => {[k]} ∪ D)
           (fun r => map to_text (items (r_show_parameters r)))
           (register_rule p) (register_rule_dom p) (r :: rs)).
Qed.

Lemma foldl_union_elem (l : list string) (D : gset string) k :
  k ∈ foldl (fun (D : gset string) k => {[k]} ∪ D) D l <-> k ∈ D \/ In k l.
Proof.
  revert D. induction l as [|x l IH]; intros D; simpl; [tauto |].
  rewrite IH, elem_of_union, elem_of_singleton. split; intros; intuition congruence.
Qed.

Lemma visibilityMap_dom wf k :
  is_Some (visibilityMap (buildTables wf) !! k) <-> In k (all_targets wf).
Proof.
  rewrite <- elem_of_dom.
  rewrite (buildTables_fold (fun tb => dom (visibilityMap tb))
             (fun (D : gset string) k => {[k]} ∪ D) shown_targets);
    try done; [| apply collectParam_dom].
  rewrite foldl_union_elem. simpl. rewrite dom_empty_L, elem_of_empty.
  unfold all_targets. tauto.
Qed.

Lemma collectParam_sentences p tb :
  sentences (visibilityMap tb) -> sentences (visibilityMap (collectParam p tb)).
Proof.
  intros Htb. rewrite <- (visibilityMap_before_rules p tb) in Htb.
  rewrite collectParam_rules.
  destruct (p_rules p) as [[|r rs] |]; try done.
  apply (for_each_invariant visibilityMap sentences); [| exact Htb].
  intros r' tb' Htb'. unfold register_rule.
  apply (for_each_invariant visibilityMap sentences); [| exact Htb'].
  intros target tb'' Htb''. simpl. apply map_Forall_insert_2; [| exact Htb''].
  unfold visibility_sentence. by eexists.
Qed.

Lemma visibilityMap_sentences wf : sentences (visibilityMap (buildTables wf)).
Proof.
  apply (buildTables_invariant visibilityMap sentences); try done.
  apply collectParam_sentences.
Qed.

End Visibility.

(** X13: the Branching column of a record is the placeholder exactly
    when no rule of any parameter of the definition shows an identifier
    with the text of this parameter's identifier. *)
Theorem branching_placeholder
    (wf : workflow) (taskMap : gmap string taskInfo) (stage task : jsval)
    (param : parameterRequest) (automationText : string)
    (taskObj : option taskRequest) (isLastParam : bool) :
  row_get (makeRow (buildTables wf) taskMap stage task param automationText taskObj
             isLastParam) "Branching" = JStr "N/A"
  <-> ~ In (to_text (p_id param)) (all_targets wf).
Proof.
  rewrite <- visibilityMap_dom. simpl. unfold branching_text.
  pose proof (visibilityMap_sentences wf) as Hsentences.
  destruct (visibilityMap (buildTables wf) !! to_text (p_id param)) as [v |] eqn:Hv; simpl.
  - destruct (Hsentences _ _ Hv) as [t ->]. simpl. split; [done |].
    intros Hnone. destruct Hnone. by eexists.
  - split; [| done]. intros _ [v Hv']. done.
Qed.

(** ** What the task position index holds *)

(** X14: a task's identifier resolves to the names and positions of that
    task (positions default to the place in the list, counted from one),
    provided no task registered after it has a key equal to the text of
    this identifier; it makes no difference whether the reference is the
    identifier itself or any value with the same text. *)
Theorem lookupTask_finds_task
    (wf : workflow) (before after : list (jsval * taskInfo))
    (id reference : jsval) (info : taskInfo) :
  task_entries wf = before ++ (id, info) :: after ->
  Forall (fun e => keys_apart id e.1) after ->
  to_text reference = to_text id ->
  lookupTask (buildTaskMap wf) reference = Some info.
Proof.
  intros Hsplit Hafter Href. unfold lookupTask.
  rewrite Href, buildTaskMap_entries, Hsplit, foldl_app. simpl.
  rewrite (foldl_register_other after _ id Hafter).
  by rewrite (proj1 (register_task_keys info id _)).
Qed.

Lemma lookupTask_finds_task_witness :
  lookupTask (buildTaskMap Samples.numbered_workflow) (JStr "586514447368638464")
  = Some {| taskName := JStr "Weigh"; stageName := JStr "Dispensing";
            stageOrder := 1; taskOrder := 1 |}.
Proof.
  apply (lookupTask_finds_task Samples.numbered_workflow []
           [(JStr "586514447368650000",
             {| taskName := JStr "Record"; stageName := JStr "Dispensing";
                stageOrder := 1; taskOrder := 2 |})]
           (JStr "586514447368638464")).
  - reflexivity.
  - repeat constructor; vm_compute; discriminate.
  - reflexivity.
Defined.

(** Where the hypothesis fails: the identifiers of the two sample tasks
    differ in the last of eighteen digits and have the same numeric
    form, so the second task takes the key of the first, and the first
    identifier resolves to the second task. *)
Example near_identifiers_collide :
  num_text (to_number (JStr "586514447368638501")) = "586514447368638500"
  /\ lookupTask (buildTaskMap Samples.near_workflow) (JStr "586514447368638500")
     = Some {| taskName := JStr "Record"; stageName := JStr "Dispensing";
               stageOrder := 1; taskOrder := 2 |}.
Proof. split; vm_compute; reflexivity. Qed.

(** X15: the identifier of a task of the definition is never reported as
    not found: it resolves to some task, even when identifiers collide. *)
Theorem lookupTask_finds_every_task
    (wf : workflow) (st : stageRequest) (tk : taskRequest) :
  In st (items (wf_stageRequests wf)) ->
  In tk (items (s_taskRequests st)) ->
  lookupTask (buildTaskMap wf) (t_id tk) <> None.
Proof.
  intros Hst Htk Hnone. apply lookupTask_None in Hnone as [Htext _].
  assert (Hsome : is_Some (buildTaskMap wf !! to_text (t_id tk))).
  { unfold buildTaskMap, fold_indexed.
    apply (fold_from_reaches
             (fun tm : gmap string taskInfo => is_Some (tm !! to_text (t_id tk))))
      with (x := st); [| exact Hst |].
    - intros acc i x Hacc. apply fold_from_keeps; [| exact Hacc].
      intros acc' j y Hacc'. by apply register_task_keeps.
    - intros acc i.
      apply (fold_from_reaches
               (fun tm : gmap string taskInfo => is_Some (tm !! to_text (t_id tk))))
        with (x := tk); [| exact Htk |].
      + intros acc' j y Hacc'. by apply register_task_keeps.
      + intros acc' j. eexists. apply register_task_keys. }
  destruct Hsome as [info Hinfo]. congruence.
Qed.

Lemma lookupTask_finds_every_task_witness :
  lookupTask (buildTaskMap Samples.two_task_workflow) (JStr "t2") <> None.
Proof.
  apply (lookupTask_finds_every_task Samples.two_task_workflow Samples.two_task_stage
           Samples.second_task).
  - simpl. by left.
  - simpl. right. by left.
Defined.

(** ** Names of filter fields and options *)

Section FilterNames.

Lemma prefix_nonempty (pre s : string) :
  pre <> "" -> String.prefix pre s = true -> negb (String.eqb s "") = true.
Proof. destruct pre; [done |]. by destruct s. Qed.

Lemma hex_no_dot s : all_chars is_hex_digit s = true -> includes s "." = false.
Proof.
  induction s as [|c t IH]; [done |].
  cbn [all_chars includes]. intros [Hc Ht]%andb_true_iff. rewrite (IH Ht), orb_false_r.
  change (String.prefix "." (String c t))
    with (if Ascii.ascii_dec "." c then String.prefix "" t else false).
  destruct (Ascii.ascii_dec "." c) as [<- |]; [discriminate Hc | reflexivity].
Qed.

Lemma line_if_not_field c rest line :
  not_field_line line -> Forall not_field_line rest ->
  Forall not_field_line (line_if c line ++ rest).
Proof. intros Hline Hrest. destruct c; simpl; [by constructor | done]. Qed.

Lemma filter_values_lines_not_field tb f : Forall not_field_line (filter_values_lines tb f).
Proof.
  unfold filter_values_lines.
  destruct (ff_values f) as [[|v vs] |]; try constructor.
  destruct (ff_selector f) as [sel |]; [| constructor].
  destruct (_ && _); [| constructor].
  destruct (resolved_filter_values tb (v :: vs)); by repeat constructor.
Qed.

Lemma present_Some s : present (Some s) = negb (String.eqb s "").
Proof. by destruct s. Qed.

End FilterNames.

(** X16: a filter key of the form [searchable.<id>] that comes with a
    display name, or else an external identifier, makes that name known:
    another filter that has the same key and no name of its own resolves
    to it. *)
Theorem register_filter_resolves
    (tb : tables) (f g : filterField) (field name : string) :
  ff_field f = Some field ->
  String.prefix "searchable." field = true ->
  registered_name f = Some name ->
  nonempty name = true ->
  key_only g field ->
  resolved_field_name (register_filter f tb) g = JStr name.
Proof.
  intros Hfield Hprefix Hname Hnonempty (Hg & Hgd & Hge).
  pose proof (prefix_nonempty "searchable." field ltac:(done) Hprefix) as Hne.
  unfold resolved_field_name, filter_field_name. rewrite Hg, Hgd, Hge.
  change (present None) with false. cbv iota. rewrite present_Some, Hne, Hprefix.
  unfold register_filter, registered_name in *. rewrite Hfield, Hne, Hprefix.
  cbn [andb]. unfold get, when, set_propertyName.
  destruct (present (ff_displayName f)) eqn:Hd.
  - rewrite Hname in *. rewrite (present_Some field), Hne. cbn [andb propertyNameMap of_opt].
    rewrite lookup_insert. case_decide; [done |]. by rewrite lookup_insert_eq.
  - rewrite Hname. unfold nonempty in Hnonempty.
    rewrite (present_Some name), Hnonempty. cbn [andb propertyNameMap of_opt].
    by rewrite lookup_insert_eq.
Qed.

Lemma register_filter_resolves_witness :
  resolved_field_name
    (register_filter
       {| ff_field := Some "searchable.64b7f0c2a1d3e4f5a6b7c8d9"; ff_displayName := None;
          ff_externalId := Some "status"; ff_fieldType := None; ff_op := None;
          ff_selector := None; ff_values := None; ff_referencedParameterId := JUndef |}
       empty_tables)
    {| ff_field := Some "searchable.64b7f0c2a1d3e4f5a6b7c8d9"; ff_displayName := None;
       ff_externalId := None; ff_fieldType := None; ff_op := None;
       ff_selector := None; ff_values := None; ff_referencedParameterId := JUndef |}
  = JStr "status".
Proof.
  apply (register_filter_resolves empty_tables _ _ "searchable.64b7f0c2a1d3e4f5a6b7c8d9"
           "status"); try reflexivity.
  by repeat split.
Defined.

(** X17: a filter whose name (display name, else external identifier,
    else key) contains a dot without being of the form [searchable.<id>]
    gets no field line at all in its block. *)
Theorem dotted_filter_name_dropped (tb : tables) (f : filterField) (name : string) :
  filter_field_name f = Some name ->
  includes name "." = true ->
  String.prefix "searchable." name = false ->
  resolved_field_name tb f = JNull
  /\ Forall not_field_line (filter_parts tb f).
Proof.
  intros Hname Hdot Hprefix.
  assert (Hhex : is_hex24 name = false).
  { unfold is_hex24. destruct (all_chars is_hex_digit name) eqn:Hall;
      [| by rewrite andb_false_r].
    by rewrite (hex_no_dot name Hall) in Hdot. }
  assert (Hresolved : resolved_field_name tb f = JNull).
  { unfold resolved_field_name. by rewrite Hname, Hprefix, Hhex, Hdot. }
  split; [exact Hresolved |].
  unfold filter_parts. rewrite Hresolved. simpl.
  repeat (apply line_if_not_field; [reflexivity |]).
  apply Forall_app. split; [apply filter_values_lines_not_field |].
  destruct (truthy _); simpl; by repeat constructor.
Qed.

Lemma dotted_filter_name_dropped_witness :
  let f := {| ff_field := Some "batch.status"; ff_displayName := None;
              ff_externalId := None; ff_fieldType := None; ff_op := Some "EQ";
              ff_selector := None; ff_values := None;
              ff_referencedParameterId := JUndef |} in
  resolved_field_name empty_tables f = JNull
  /\ Forall not_field_line (filter_parts empty_tables f).
Proof.
  intros f. apply (dotted_filter_name_dropped empty_tables f "batch.status"); reflexivity.
Defined.

(** X18: once an option with a non-empty name is registered, its
    identifier, its name and its value, whichever are present, all
    resolve to that name. *)
Theorem register_option_resolves (tb : tables) (opt : choice) (name : string) :
  c_name opt = Some name ->
  nonempty name = true ->
  let registered := optionMap (register_option (Some opt) tb) in
  (truthy (c_id opt) = true -> get registered (c_id opt) = JStr name)
  /\ get registered (JStr name) = JStr name
  /\ (truthy (c_value opt) = true -> get registered (c_value opt) = JStr name).
Proof.
  intros Hname Hnonempty. simpl. unfold register_option, name_label_display, present, get.
  rewrite Hname. simpl. unfold nonempty in Hnonempty. rewrite Hnonempty.
  unfold when. split; [| split].
  - intros ->. destruct (truthy (c_value opt)); simpl;
      rewrite !lookup_insert; repeat case_decide; done.
  - destruct (truthy (c_id opt)), (truthy (c_value opt)); simpl;
      rewrite !lookup_insert; repeat case_decide; done.
  - intros ->. destruct (truthy (c_id opt)); simpl;
      rewrite !lookup_insert; repeat case_decide; done.
Qed.

Lemma register_option_resolves_witness :
  get (optionMap
         (register_option
            (Some {| c_id := JStr "o1"; c_name := Some "Yes"; c_label := None;
                     c_displayName := None; c_value := JNum 1 |})
            empty_tables))
    (JNum 1)
  = JStr "Yes".
Proof.
  apply (register_option_resolves empty_tables
           {| c_id := JStr "o1"; c_name := Some "Yes"; c_label := None;
              c_displayName := None; c_value := JNum 1 |} "Yes"); reflexivity.
Defined.
